(** * bbpy: the generic Branch-and-Bound driver

    A shallow embedding of [bbpy/bnb/node.py], [bbpy/bnb/search.py],
    [bbpy/solver.py], of the method [BnB.solve] of [bbpy/bnb/bnb.py] and
    of the MIP instance of [bbpy/instances/mip.py], followed by the
    properties of the driver loop: termination precedence, pruning,
    incumbent update and queue filtering, the global lower bound, the
    relative gap, the node status discipline and the best-first selection
    rule, and by properties of the searching rules and of the MIP
    instance.

    Numbers.  Python floats are modelled by [PyFloat.t]: the two
    infinities, NaN and the finite values, the latter as rationals.
    Comparisons, [abs], [min] and [max] are exact and follow the
    IEEE/CPython case analysis (a comparison with NaN is false).  The
    results of subtraction, addition and division are rounded to binary64,
    to nearest with ties to even, and overflow to an infinity
    ([inf - inf] is NaN, a division by zero raises); the literals
    [1e-16] and [1e-8] are the binary64 numbers that Python reads.  Signed
    zeros are not modelled.

    Collaborators.  The problem, the bounding methods, the branching rule
    and the searching rule are abstract classes in the source; they are
    records of functions here.  Of their calls only [get_next] can raise
    in the model, so what is proved of a pass through the loop or of a
    call of [solve] is proved of a pass or a call that returns; an
    exception raised by a collaborator escapes [solve] in the source.
    The wall clock is a function of the number of completed
    iterations. *)

From Stdlib Require Import List ZArith QArith Qabs Qminmax Bool String Lia Lqa.
From Stdlib Require Import Permutation Sorted Qround Qpower.
Import ListNotations.

Set Implicit Arguments.

(* ================================================================== *)
(** ** Python floats *)

Module PyFloat.

Inductive t : Type :=
  | NaN
  | NegInf
  | Fin (q : Q)
  | PosInf.

  (** [a < b] *)
Definition lt (a b : t) : bool :=
    match a, b with
    | NaN, _ | _, NaN => false
    | NegInf, NegInf => false
    | NegInf, _ => true
    | Fin _, NegInf => false
    | Fin x, Fin y => match x ?= y with Lt => true | _ => false end
    | Fin _, PosInf => true
    | PosInf, _ => false
    end.

  (** [a <= b] *)
Definition le (a b : t) : bool :=
    match a, b with
    | NaN, _ | _, NaN => false
    | NegInf, _ => true
    | Fin _, NegInf => false
    | Fin x, Fin y => match x ?= y with Gt => false | _ => true end
    | Fin _, PosInf => true
    | PosInf, PosInf => true
    | PosInf, _ => false
    end.

  (** [a > b] and [a >= b] *)
Definition gt (a b : t) : bool := lt b a.
Definition ge (a b : t) : bool := le b a.

  (** Rounding to the nearest integer, a half going to the even one. *)
Definition rint (q : Q) : Z :=
  let f := Qfloor q in
  match ((q - inject_Z f) ?= (1 # 2))%Q with
  | Lt => f
  | Gt => (f + 1)%Z
  | Eq => if Z.even f then f else (f + 1)%Z
  end.

  (** The binary exponent [e] of a positive rational:
      [2^e <= q < 2^(e+1)]. *)
Definition log2_floor (q : Q) : Z :=
  if Qle_bool 1 q then Z.log2 (Qfloor q)
  else (- Z.log2_up (Qceiling (/ q)))%Z.

  (** The spacing [2^ulp_exponent] of the binary64 numbers around a
      positive rational: 53 significant bits, and the spacing [2^-1074]
      of the subnormal numbers below [2^-1022]. *)
Definition ulp_exponent (q : Q) : Z :=
  (Z.max (log2_floor q) (-1022) - 52)%Z.

  (** A positive rational rounded to the nearest multiple of its spacing,
      a tie going to the even multiple. *)
Definition round_pos (q : Q) : Q :=
  inject_Z (rint (q / 2 ^ ulp_exponent q)) * 2 ^ ulp_exponent q.

  (** Rounding to binary64, to nearest with ties to even, as the float
      operations of CPython round their exact result; what rounds to
      [2^1024] or beyond overflows to an infinity. *)
Definition round64 (q : Q) : t :=
  match q ?= 0 with
  | Eq => Fin 0
  | Gt => let r := round_pos q in
          if Qle_bool (2 ^ 1024) r then PosInf else Fin (Qred r)
  | Lt => let r := round_pos (- q) in
          if Qle_bool (2 ^ 1024) r then NegInf else Fin (Qred (- r))
  end.

  (** [a - b] *)
Definition sub (a b : t) : t :=
    match a, b with
    | NaN, _ | _, NaN => NaN
    | PosInf, PosInf => NaN
    | PosInf, _ => PosInf
    | NegInf, NegInf => NaN
    | NegInf, _ => NegInf
    | Fin _, PosInf => NegInf
    | Fin _, NegInf => PosInf
    | Fin x, Fin y => round64 (x - y)
    end.

  (** [a + b] *)
Definition add (a b : t) : t :=
    match a, b with
    | NaN, _ | _, NaN => NaN
    | PosInf, NegInf | NegInf, PosInf => NaN
    | PosInf, _ | _, PosInf => PosInf
    | NegInf, _ | _, NegInf => NegInf
    | Fin x, Fin y => round64 (x + y)
    end.

  (** [abs(a)] *)
Definition abs (a : t) : t :=
    match a with
    | NaN => NaN
    | NegInf | PosInf => PosInf
    | Fin x => Fin (Qabs x)
    end.

  (** The builtin [min(a, b)]: the first argument is kept unless the
      second one compares strictly smaller. *)
Definition min (a b : t) : t := if lt b a then b else a.

  (** The builtin [max(a, b)]: the first argument is kept unless the
      second one compares strictly greater. *)
Definition max (a b : t) : t := if gt b a then b else a.

Definition is_zero (a : t) : bool :=
    match a with
    | Fin x => match x ?= 0 with Eq => true | _ => false end
    | _ => false
    end.

  (** [a / b]; [None] stands for [ZeroDivisionError], which CPython raises
      whenever the divisor equals zero, whatever the dividend. *)
Definition div (a b : t) : option t :=
    if is_zero b then None
    else Some
      match a, b with
      | NaN, _ | _, NaN => NaN
      | (PosInf | NegInf), (PosInf | NegInf) => NaN
      | PosInf, Fin y => if Qle_bool 0 y then PosInf else NegInf
      | NegInf, Fin y => if Qle_bool 0 y then NegInf else PosInf
      | Fin _, (PosInf | NegInf) => Fin 0
      | Fin x, Fin y => round64 (x / y)
      end.

Definition is_finite (a : t) : bool :=
    match a with Fin _ => true | _ => false end.

Definition is_nan (a : t) : bool :=
    match a with NaN => true | _ => false end.

  (** The literal [1e-16]: the binary64 number nearest to [10^-16],
      [0x1.cd2b297d889bcp-54]. *)
Definition eps16 : Q :=
  2028240960365167 # 20282409603651670423947251286016.

  (** The literal [1e-8]: the binary64 number nearest to [10^-8],
      [0x1.5798ee2308c3ap-27]. *)
Definition eps8 : Q := 3022314549036573 # 302231454903657293676544.

Definition of_Z (z : Z) : t := Fin (inject_Z z).

End PyFloat.

Definition pyfloat : Type := PyFloat.t.

(** The option monad carries the exceptions of the source: [None] is a
    raised exception that nothing in the driver catches. *)
Notation "x <- c ;; k" :=
  (match c with Some x => k | None => None end)
  (at level 61, c at next level, right associativity).
Notation "' p <- c ;; k" :=
  (match c with Some p => k | None => None end)
  (at level 61, p pattern, c at next level, right associativity).

(* ================================================================== *)
(** ** Python builtins on lists *)

Section Builtins.
Variable A : Type.

(** One step of the scan of [min(items, key=key)]: the current item and
    its key are kept unless the key of the next item compares strictly
    smaller. *)
Definition min_step (key : A -> pyfloat) (cur : A * pyfloat) (b : A)
  : A * pyfloat :=
  let kb := key b in
  if PyFloat.lt kb (snd cur) then (b, kb) else cur.

(** One step of the scan of [max(items, key=key)], symmetric. *)
Definition max_step (key : A -> pyfloat) (cur : A * pyfloat) (b : A)
  : A * pyfloat :=
  let kb := key b in
  if PyFloat.gt kb (snd cur) then (b, kb) else cur.

(** [min(items, key=key)] on a non-empty iterable whose first item is
    [a]: one left-to-right pass. *)
Definition py_min_key_from (key : A -> pyfloat) (a : A) (l : list A) : A :=
  fst (fold_left (min_step key) l (a, key a)).

(** [max(items, key=key)] on a non-empty iterable. *)
Definition py_max_key_from (key : A -> pyfloat) (a : A) (l : list A) : A :=
  fst (fold_left (max_step key) l (a, key a)).

  (** [None] is the [ValueError] raised on an empty iterable. *)
Definition py_min_key (key : A -> pyfloat) (l : list A) : option A :=
    match l with
    | [] => None
    | a :: l' => Some (py_min_key_from key a l')
    end.

Definition py_max_key (key : A -> pyfloat) (l : list A) : option A :=
    match l with
    | [] => None
    | a :: l' => Some (py_max_key_from key a l')
    end.

  (** [l.pop(i)]: a negative index counts from the end; [None] is the
      [IndexError] of an index out of range (or of an empty list). *)
Fixpoint remove_nth (i : nat) (l : list A) : list A :=
    match l, i with
    | [], _ => []
    | _ :: l', O => l'
    | a :: l', S i' => a :: remove_nth i' l'
    end.

Definition pop (l : list A) (i : Z) : option (A * list A) :=
    let n := Z.of_nat (List.length l) in
    let j := if (i <? 0)%Z then (i + n)%Z else i in
    if ((j <? 0) || (n <=? j))%Z then None
    else
      a <- nth_error l (Z.to_nat j) ;;
      Some (a, remove_nth (Z.to_nat j) l).

End Builtins.

(** [min(values)] without a key. *)
Definition py_min_from (a : pyfloat) (l : list pyfloat) : pyfloat :=
  py_min_key_from (fun v => v) a l.

(* ================================================================== *)
(** ** bbpy/bnb/node.py *)

Inductive NodeStatus : Type := OPEN | PRUNED | FEASIBLE | PROCESSED.

Module Node.
Section Def.
Variables Region X Payload : Type.

Record t : Type := make {
      status : NodeStatus;
      region : Region;
      level : Z;
      x : option X;
      lb : pyfloat;
      trace : list (string * Payload)
    }.

    (** [Node.__init__(region, level, x=None, lb=-inf)] *)
Definition init (region : Region) (level : Z) (x : option X)
               (lb : pyfloat) : t :=
      {| status := OPEN; region := region; level := level;
         x := x; lb := lb; trace := [] |}.

    (** [node.status = s] *)
Definition set_status (n : t) (s : NodeStatus) : t :=
      {| status := s; region := region n; level := level n;
         x := x n; lb := lb n; trace := trace n |}.
End Def.
Arguments init {Region X Payload} region level x lb.
End Node.

(* ================================================================== *)
(** ** bbpy/bnb/search.py *)

Module SearchingRule.
Section Def.
Variables Region X Payload : Type.
Let Node : Type := Node.t Region X Payload.

    (** The abstract class: [add] returns the queue after the insertion,
        [get_next] the selected node and the queue after its removal. *)
Record t : Type := make {
      add : list Node -> Node -> list Node;
      get_next : list Node -> option (Node * list Node)
    }.
End Def.
End SearchingRule.

Section SearchingRules.
Variables Region X Payload : Type.
Let Node : Type := Node.t Region X Payload.
Let Rule : Type := SearchingRule.t Region X Payload.

  (** [queue.append(node)], the [add] of every rule. *)
Definition append (queue : list Node) (node : Node) : list Node :=
    queue ++ [node].

  (** [queue[i].lb]; [i] ranges over [range(len(queue))], so that the
      index is always in range. *)
Definition lb_at (queue : list Node) (i : nat) : pyfloat :=
    match nth_error queue i with
    | Some n => Node.lb n
    | None => PyFloat.NaN
    end.

Definition BestFirstSearch : Rule :=
    {| SearchingRule.add := append;
       SearchingRule.get_next := fun queue =>
         min_idx <- py_min_key (lb_at queue) (seq 0 (List.length queue)) ;;
         pop queue (Z.of_nat min_idx) |}.

Definition BreadthFirstSearch : Rule :=
    {| SearchingRule.add := append;
       SearchingRule.get_next := fun queue => pop queue 0 |}.

Definition DepthFirstSearch : Rule :=
    {| SearchingRule.add := append;
       SearchingRule.get_next := fun queue => pop queue (-1) |}.

Definition WorstFirstSearch : Rule :=
    {| SearchingRule.add := append;
       SearchingRule.get_next := fun queue =>
         min_idx <- py_max_key (lb_at queue) (seq 0 (List.length queue)) ;;
         pop queue (Z.of_nat min_idx) |}.

  (** [RandomSearch]; [randint lo hi] stands for the draw of
      [random.randint], which raises on an empty range. *)
Definition RandomSearch (randint : Z -> Z -> Z) : Rule :=
    {| SearchingRule.add := append;
       SearchingRule.get_next := fun queue =>
         let hi := (Z.of_nat (List.length queue) - 1)%Z in
         if (hi <? 0)%Z then None else pop queue (randint 0%Z hi) |}.

End SearchingRules.

(* ================================================================== *)
(** ** bbpy/solver.py *)

Inductive Status : Type :=
| RUNNING
| OPTIMAL
| RELATIVE_OPTIMAL
| INFEASIBLE
| UNBOUNDED
| TIME_LIMIT
| ITER_LIMIT
| MEMORY_LIMIT
| ERROR.

Definition Status_eqb (a b : Status) : bool :=
  match a, b with
  | RUNNING, RUNNING | OPTIMAL, OPTIMAL
  | RELATIVE_OPTIMAL, RELATIVE_OPTIMAL | INFEASIBLE, INFEASIBLE
  | UNBOUNDED, UNBOUNDED | TIME_LIMIT, TIME_LIMIT
  | ITER_LIMIT, ITER_LIMIT | MEMORY_LIMIT, MEMORY_LIMIT
  | ERROR, ERROR => true
  | _, _ => false
  end.

Module Result.
Section Def.
Variables X TraceRecord : Type.

Record t : Type := make {
  status : Status;
  solution : option X;
  objective_value : pyfloat;
  solve_time : pyfloat;
  iterations : Z;
  trace : list TraceRecord
}.
End Def.
End Result.

(* ================================================================== *)
(** ** bbpy/problem.py, bbpy/bnb/bound.py and the branching rule

    The abstract collaborators of the driver.  A bounding method or a
    branching rule is the object obtained after its [initialize(problem)]
    call.  [LowerBoundingMethod.bound] works in place in the source and
    returns the node after the call here. *)

Module Problem.
Section Def.
Variable X : Type.
Record t : Type := make {
  value : X -> pyfloat;
  is_feasible : option X -> pyfloat -> bool
}.
End Def.
End Problem.

Module LowerBoundingMethod.
Section Def.
Variables Region X Payload : Type.
Record t : Type := make {
  bound : Node.t Region X Payload -> Node.t Region X Payload
}.
End Def.
End LowerBoundingMethod.

Module UpperBoundingMethod.
Section Def.
Variables Region X Payload : Type.
Record t : Type := make {
  bound : Node.t Region X Payload -> X
}.
End Def.
End UpperBoundingMethod.

Module BranchingRule.
Section Def.
Variables Region X Payload : Type.
Record t : Type := make {
  branch : Node.t Region X Payload -> list (Node.t Region X Payload)
}.
End Def.
End BranchingRule.

(* ================================================================== *)
(** ** bbpy/bnb/bnb.py *)

(** One entry of [self.trace], the dictionary built by the trace update. *)
Module TraceRecord.
Section Def.
Variable Payload : Type.
Record t : Type := make {
  node_count : Z;
  timer : pyfloat;
  queue_size : Z;
  best_ub : pyfloat;
  best_lb : pyfloat;
  node : list (string * Payload)
}.
End Def.
End TraceRecord.

Module BnB.

(** [BnB._abs_gap] *)
Definition _abs_gap (ub lb : pyfloat) : pyfloat := PyFloat.sub ub lb.

(** [BnB._rel_gap]; [None] would be a [ZeroDivisionError]. *)
Definition _rel_gap (ub lb : pyfloat) : option pyfloat :=
  PyFloat.div
    (PyFloat.sub ub lb)
    (PyFloat.max (PyFloat.min (PyFloat.abs ub) (PyFloat.abs lb))
                 (PyFloat.Fin PyFloat.eps16)).

Section Def.
Variables Region X Payload : Type.
Let Node : Type := Node.t Region X Payload.

(** The attributes set by [BnB.__init__].  [root_region] is the class
    method [self.region.root_region]; the display that [verbose] toggles
    prints and changes nothing, and is left out of the loop below. *)
Record t : Type := make {
  verbose : bool;
  keeptrace : bool;
  time_limit : pyfloat;
  node_limit : Z;
  queue_limit : Z;
  feas_tol : pyfloat;
  abs_gap_tol : pyfloat;
  rel_gap_tol : pyfloat;
  root_region : Problem.t X -> Region;
  lb_method : LowerBoundingMethod.t Region X Payload;
  ub_method : UpperBoundingMethod.t Region X Payload;
  branching_rule : BranchingRule.t Region X Payload;
  searching_rule : SearchingRule.t Region X Payload
}.

(** The attributes that [solve] sets and updates.  [abs_gap], [rel_gap]
    and [timer] are not assigned before the loop body runs: [None] is an
    attribute that does not exist yet. *)
Record state : Type := make_state {
  node_count : Z;
  best_x : option X;
  best_ub : pyfloat;
  best_lb : pyfloat;
  queue : list Node;
  trace : list (TraceRecord.t Payload);
  status : Status;
  abs_gap : option pyfloat;
  rel_gap : option pyfloat;
  timer : option pyfloat
}.

Definition set_queue (st : state) (q : list Node) : state :=
  {| node_count := node_count st; best_x := best_x st;
     best_ub := best_ub st; best_lb := best_lb st; queue := q;
     trace := trace st; status := status st; abs_gap := abs_gap st;
     rel_gap := rel_gap st; timer := timer st |}.

Definition set_best_x (st : state) (x : option X) : state :=
  {| node_count := node_count st; best_x := x;
     best_ub := best_ub st; best_lb := best_lb st; queue := queue st;
     trace := trace st; status := status st; abs_gap := abs_gap st;
     rel_gap := rel_gap st; timer := timer st |}.

Definition set_best_ub (st : state) (ub : pyfloat) : state :=
  {| node_count := node_count st; best_x := best_x st;
     best_ub := ub; best_lb := best_lb st; queue := queue st;
     trace := trace st; status := status st; abs_gap := abs_gap st;
     rel_gap := rel_gap st; timer := timer st |}.

Definition set_best_lb (st : state) (lb : pyfloat) : state :=
  {| node_count := node_count st; best_x := best_x st;
     best_ub := best_ub st; best_lb := lb; queue := queue st;
     trace := trace st; status := status st; abs_gap := abs_gap st;
     rel_gap := rel_gap st; timer := timer st |}.

Definition set_working (st : state) (n : Z) (ag rg tm : pyfloat) : state :=
  {| node_count := n; best_x := best_x st;
     best_ub := best_ub st; best_lb := best_lb st; queue := queue st;
     trace := trace st; status := status st; abs_gap := Some ag;
     rel_gap := Some rg; timer := Some tm |}.

Definition set_trace (st : state) (tr : list (TraceRecord.t Payload))
  : state :=
  {| node_count := node_count st; best_x := best_x st;
     best_ub := best_ub st; best_lb := best_lb st; queue := queue st;
     trace := tr; status := status st; abs_gap := abs_gap st;
     rel_gap := rel_gap st; timer := timer st |}.

Definition set_status (st : state) (s : Status) : state :=
  {| node_count := node_count st; best_x := best_x st;
     best_ub := best_ub st; best_lb := best_lb st; queue := queue st;
     trace := trace st; status := s; abs_gap := abs_gap st;
     rel_gap := rel_gap st; timer := timer st |}.

(** What the loop body does to the outside, in program order: the calls
    to the collaborators and the assignments to [node.status]. *)
Inductive Event : Type :=
| CallGetNext
| CallLbBound (node : Node)
| SetNodeStatus (s : NodeStatus)
| CallIsFeasible (x : option X)
| CallUbBound (node : Node)
| CallValue (x : X)
| CallBranch (node : Node).

(** The local variables of one pass through the loop body: [node], the
    candidate [(x, ub)] (not assigned when the node is pruned) and the
    events of the pass. *)
Record Visit : Type := make_visit {
  node : Node;
  candidate : option (option X * pyfloat);
  events : list Event
}.

Variable self : t.
Variable problem : Problem.t X.

(** Elapsed time [time.time() - self.start_time] read when [node_count]
    iterations are complete. *)
Variable clock : Z -> pyfloat.

(** Lines 205-211, "Upper bound evaluation". *)
Definition upper_bound_evaluation (node : Node)
  : (option X * pyfloat) * list Event :=
  if Problem.is_feasible problem (Node.x node) (feas_tol self) then
    ((Node.x node, Node.lb node), [CallIsFeasible (Node.x node)])
  else
    let x := UpperBoundingMethod.bound (ub_method self) node in
    ((Some x, Problem.value problem x),
     [CallIsFeasible (Node.x node); CallUbBound node; CallValue x]).

(** Lines 213-222, "Upper bound update". *)
Definition upper_bound_update (st : state) (node : Node)
           (x : option X) (ub : pyfloat) : Node * state * list Event :=
  if PyFloat.lt ub (best_ub st) then
    let node := Node.set_status node FEASIBLE in
    let st := set_best_x st x in
    let st := set_best_ub st ub in
    let st :=
      set_queue st
        (filter (fun qnode => PyFloat.le (Node.lb qnode) (best_ub st))
                (queue st)) in
    (node, st, [SetNodeStatus FEASIBLE])
  else (node, st, []).

(** Lines 224-230, "Branching operation"; [and] evaluates its second
    operand only when the first one holds. *)
Definition branching_operation (st : state) (node : Node)
  : option (state * list Event) :=
  if PyFloat.gt (_abs_gap (best_ub st) (Node.lb node)) (abs_gap_tol self)
  then
    r <- _rel_gap (best_ub st) (Node.lb node) ;;
    if PyFloat.gt r (rel_gap_tol self) then
      let child_nodes := BranchingRule.branch (branching_rule self) node in
      Some (set_queue st (queue st ++ child_nodes), [CallBranch node])
    else Some (st, [])
  else Some (st, []).

(** Lines 199-230, "Pruning test" and its two branches. *)
Definition pruning_test (st : state) (node : Node)
  : option (Visit * state) :=
  if PyFloat.gt (Node.lb node) (best_ub st) then
    let node := Node.set_status node PRUNED in
    Some ({| node := node; candidate := None;
             events := [SetNodeStatus PRUNED] |}, st)
  else
    let node := Node.set_status node PROCESSED in
    let '((x, ub), ev1) := upper_bound_evaluation node in
    let '(node, st, ev2) := upper_bound_update st node x ub in
    '(st, ev3) <- branching_operation st node ;;
    Some ({| node := node; candidate := Some (x, ub);
             events := SetNodeStatus PROCESSED :: ev1 ++ ev2 ++ ev3 |}, st).

(** Lines 232-236, "Lower bound update". *)
Definition lower_bound_update (st : state) : state :=
  match queue st with
  | [] => set_best_lb st (best_ub st)
  | qnode :: rest =>
      set_best_lb st (py_min_from (Node.lb qnode) (map (@Node.lb _ _ _) rest))
  end.

(** Lines 238-242, "Working values update". *)
Definition working_values_update (st : state) : option state :=
  let n := (node_count st + 1)%Z in
  let ag := _abs_gap (best_ub st) (best_lb st) in
  rg <- _rel_gap (best_ub st) (best_lb st) ;;
  Some (set_working st n ag rg (clock n)).

(** Lines 244-255, "Trace update". *)
Definition trace_update (st : state) (node : Node) : option state :=
  if keeptrace self then
    tm <- timer st ;;
    Some (set_trace st
            (trace st ++
             [ {| TraceRecord.node_count := node_count st;
                  TraceRecord.timer := tm;
                  TraceRecord.queue_size := Z.of_nat (List.length (queue st));
                  TraceRecord.best_ub := best_ub st;
                  TraceRecord.best_lb := best_lb st;
                  TraceRecord.node := Node.trace node |} ]))
  else Some st.

(** Lines 261-273, "Status update": six independent tests in a row. *)
Definition status_update (st : state) : option state :=
  tm <- timer st ;;
  ag <- abs_gap st ;;
  rg <- rel_gap st ;;
  let len := Z.of_nat (List.length (queue st)) in
  let s := status st in
  let s := if PyFloat.ge tm (time_limit self) then TIME_LIMIT else s in
  let s := if (node_count st >=? node_limit self)%Z then ITER_LIMIT else s in
  let s := if (len >=? queue_limit self)%Z then MEMORY_LIMIT else s in
  let s := if PyFloat.le ag (abs_gap_tol self) then RELATIVE_OPTIMAL else s in
  let s := if PyFloat.le rg (rel_gap_tol self) then RELATIVE_OPTIMAL else s in
  let s := if (len =? 0)%Z then OPTIMAL else s in
  Some (set_status st s).

(** Lines 193-273: one pass through the body of the main loop. *)
Definition iteration (st : state) : option (Visit * state) :=
  '(node0, q) <- SearchingRule.get_next (searching_rule self) (queue st) ;;
  let st := set_queue st q in
  let node1 := LowerBoundingMethod.bound (lb_method self) node0 in
  '(v, st) <- pruning_test st node1 ;;
  let st := lower_bound_update st in
  st <- working_values_update st ;;
  st <- trace_update st (node v) ;;
  st <- status_update st ;;
  Some ({| node := node v; candidate := candidate v;
           events := CallGetNext :: CallLbBound node0 :: events v |}, st).

(** Lines 168-185: the state on entry to the main loop. *)
Definition initial_state : state :=
  let root := Node.init (root_region self problem) 0%Z None PyFloat.NegInf in
  {| node_count := 0%Z; best_x := None;
     best_ub := PyFloat.PosInf; best_lb := PyFloat.NegInf;
     queue := SearchingRule.add (searching_rule self) [] root;
     trace := []; status := RUNNING;
     abs_gap := None; rel_gap := None; timer := None |}.

(** How a call ends: it returns, an exception escapes, or the fuel given
    to the model of the [while] loop is used up. *)
Inductive outcome (A : Type) : Type :=
| Returned (a : A)
| Raised
| OutOfFuel.
Arguments Raised {A}.
Arguments OutOfFuel {A}.

(** Lines 191-273: [while self.status == Status.RUNNING]. *)
Fixpoint main_loop (fuel : nat) (st : state) : outcome state :=
  if Status_eqb (status st) RUNNING then
    match fuel with
    | O => OutOfFuel
    | S fuel' =>
        match iteration st with
        | None => Raised
        | Some (_, st') => main_loop fuel' st'
        end
    end
  else Returned st.

(** [BnB.solve] *)
Definition solve (fuel : nat)
  : outcome (Result.t X (TraceRecord.t Payload)) :=
  match main_loop fuel initial_state with
  | Returned st =>
      match timer st with
      | Some tm =>
          Returned
            {| Result.status := status st;
               Result.solution := best_x st;
               Result.objective_value := best_ub st;
               Result.solve_time := tm;
               Result.iterations := node_count st;
               Result.trace := trace st |}
      | None => Raised
      end
  | Raised => Raised
  | OutOfFuel => OutOfFuel
  end.

End Def.
End BnB.

(* ================================================================== *)
(** ** numpy on one-dimensional float arrays

    The operations of numpy that [bbpy/instances/mip.py] applies to its
    points.  A point is a one-dimensional array of floats, a list here;
    [None] is the [IndexError] or [ValueError] that numpy raises. *)

Module Numpy.

Definition Array : Type := list pyfloat.

(** The position that the integer index [i] designates in an array of
    length [n]: a negative index counts from the end, an index outside
    [-n, n) is out of bounds. *)
Definition position (n : nat) (i : Z) : option nat :=
  let len := Z.of_nat n in
  if ((0 <=? i) && (i <? len))%Z then Some (Z.to_nat i)
  else if ((- len <=? i) && (i <? 0))%Z then Some (Z.to_nat (i + len))
  else None.

(** [x[i]] *)
Definition getitem (x : Array) (i : Z) : option pyfloat :=
  j <- position (List.length x) i ;;
  nth_error x j.

(** [x[i] = v], on a copy. *)
Definition setitem (x : Array) (i : Z) (v : pyfloat) : option Array :=
  j <- position (List.length x) i ;;
  Some (firstn j x ++ v :: skipn (S j) x).

(** [x[indices]] with a list of integer indices. *)
Fixpoint take (x : Array) (indices : list Z) : option Array :=
  match indices with
  | [] => Some []
  | i :: rest =>
      v <- getitem x i ;;
      vs <- take x rest ;;
      Some (v :: vs)
  end.

(** [x[indices] = values], the assignments made from left to right;
    [values] has the length of [indices]. *)
Fixpoint put (x : Array) (indices : list Z) (values : Array)
  : option Array :=
  match indices, values with
  | [], _ => Some x
  | i :: rest, v :: vs =>
      x' <- setitem x i v ;;
      put x' rest vs
  | _ :: _, [] => None
  end.

(** [a + b] on floats. *)
Definition add (a b : pyfloat) : pyfloat := PyFloat.add a b.

(** [a == b] on floats. *)
Definition eqb (a b : pyfloat) : bool :=
  match a, b with
  | PyFloat.NegInf, PyFloat.NegInf | PyFloat.PosInf, PyFloat.PosInf => true
  | PyFloat.Fin x, PyFloat.Fin y =>
      match x ?= y with Eq => true | _ => false end
  | _, _ => false
  end.

(** [np.clip(v, 0.0, 1.0)]: NaN stays NaN. *)
Definition clip01 (v : pyfloat) : pyfloat :=
  match v with
  | PyFloat.NaN => PyFloat.NaN
  | PyFloat.NegInf => PyFloat.Fin 0
  | PyFloat.PosInf => PyFloat.Fin 1
  | PyFloat.Fin q =>
      match q ?= 0 with
      | Lt => PyFloat.Fin 0
      | _ => match q ?= 1 with
             | Gt => PyFloat.Fin 1
             | _ => PyFloat.Fin q
             end
      end
  end.

(** Rounding to the nearest integer, a half going to the even one. *)
Definition round_half_even (q : Q) : Z := PyFloat.rint q.

(** [np.round(v)] *)
Definition round (v : pyfloat) : pyfloat :=
  match v with
  | PyFloat.Fin q => PyFloat.Fin (inject_Z (round_half_even q))
  | other => other
  end.

(** [np.isin(v, [0.0, 1.0])] on one entry. *)
Definition is_binary (v : pyfloat) : bool :=
  eqb v (PyFloat.Fin 0) || eqb v (PyFloat.Fin 1).

(** A float or an array, as the bounds of a problem may be. *)
Inductive operand : Type :=
| Scalar (v : pyfloat)
| Vector (a : Array).

(** [operand - tol] and [operand + tol] with a float [tol]. *)
Definition sub_scalar (o : operand) (tol : pyfloat) : operand :=
  match o with
  | Scalar v => Scalar (PyFloat.sub v tol)
  | Vector a => Vector (map (fun v => PyFloat.sub v tol) a)
  end.

Definition add_scalar (o : operand) (tol : pyfloat) : operand :=
  match o with
  | Scalar v => Scalar (add v tol)
  | Vector a => Vector (map (fun v => add v tol) a)
  end.

(** [np.all(x ? o)] for an elementwise comparison [?] of the array [x]
    with a float or with an array.  Two arrays are compared entry by
    entry when their lengths agree, an array of length one is stretched
    to the other, and any other pair of lengths is a [ValueError]. *)
Definition all_compare (cmp : pyfloat -> pyfloat -> bool)
           (x : Array) (o : operand) : option bool :=
  match o with
  | Scalar v => Some (forallb (fun e => cmp e v) x)
  | Vector a =>
      if Nat.eqb (List.length x) (List.length a) then
        Some (forallb (fun p : pyfloat * pyfloat => cmp (fst p) (snd p))
                      (combine x a))
      else
        match x, a with
        | [e], _ => Some (forallb (fun v => cmp e v) a)
        | _, [v] => Some (forallb (fun e => cmp e v) x)
        | _, _ => None
        end
  end.

End Numpy.

(* ================================================================== *)
(** ** bbpy/instances/mip.py *)

(** How a call of a function of [mip.py] ends.  [Unordered] stands for a
    call of [sorted] on keys that do not all compare (a NaN among two keys
    or more): the source returns then, with an order that depends on the
    sorting algorithm of the interpreter, and that order is not
    modelled. *)
Inductive ended (A : Type) : Type :=
| Returns (a : A)
| Raises
| Unordered.
Arguments Raises {A}.
Arguments Unordered {A}.

Module MIPRegion.

(** The binary entries fixed to 0 and those fixed to 1. *)
Record t : Type := make {
  integers_to_zero : list Z;
  integers_to_one : list Z
}.

(** [MIPRegion.root_region] *)
Definition root_region : t :=
  {| integers_to_zero := []; integers_to_one := [] |}.

End MIPRegion.

Module MIP.

(** The problem [min f(x) s.t. g(x) <= 0, lb <= x <= ub, x[i] in {0,1}
    for i in integers].  [f] and [g] are the [value] methods of two
    [CvxpyFunction] objects, abstract in the source; they may raise. *)
Record t : Type := make {
  f : Numpy.Array -> option pyfloat;
  g : Numpy.Array -> option Numpy.Array;
  lb : Numpy.operand;
  ub : Numpy.operand;
  integers : list Z
}.

(** [MIP.is_feasible(x, feas_tol)]: the four tests are all evaluated
    before they are combined. *)
Definition is_feasible (self : t) (x : Numpy.Array) (feas_tol : pyfloat)
  : option bool :=
  gx <- g self x ;;
  let cleq := forallb (fun v => PyFloat.le v feas_tol) gx in
  cxlb <- Numpy.all_compare PyFloat.ge x
            (Numpy.sub_scalar (lb self) feas_tol) ;;
  cxub <- Numpy.all_compare PyFloat.le x
            (Numpy.add_scalar (ub self) feas_tol) ;;
  xi <- Numpy.take x (integers self) ;;
  let cbin := forallb Numpy.is_binary xi in
  Some (cleq && cxlb && cxub && cbin).

(** The default [feas_tol=1e-8] of [MIP.is_feasible]. *)
Definition default_feas_tol : pyfloat := PyFloat.Fin PyFloat.eps8.

(** [MIP.value(x)] *)
Definition value (self : t) (x : Numpy.Array) : option pyfloat :=
  feasible <- is_feasible self x default_feas_tol ;;
  if feasible then f self x else Some PyFloat.PosInf.

End MIP.

Module MIPBranchingRule.
Section Def.
Variable Payload : Type.
Let Node : Type := Node.t MIPRegion.t Numpy.Array Payload.

(** The attribute [self.integers] set by [initialize], and the order in
    which Python iterates over the set
    [set(integers) - set(integers_to_zero) - set(integers_to_one)], which
    the source leaves to the interpreter. *)
Record t : Type := make {
  integers : list Z;
  free_order : list Z -> list Z -> list Z -> list Z
}.

(** The key [abs(node.x[i] - 0.5)] of the entry [i]. *)
Definition fractionality (x : Numpy.Array) (i : Z) : option pyfloat :=
  v <- Numpy.getitem x i ;;
  Some (PyFloat.abs (PyFloat.sub v (PyFloat.Fin (1 # 2)))).

(** The keys of all the items, each evaluated once. *)
Fixpoint keys (x : Numpy.Array) (items : list Z)
  : option (list (Z * pyfloat)) :=
  match items with
  | [] => Some []
  | i :: rest =>
      k <- fractionality x i ;;
      ks <- keys x rest ;;
      Some ((i, k) :: ks)
  end.

(** [sorted(items, key=...)[0]]: a stable sort puts first the first item
    of least key. *)
Definition sorted_first (x : option Numpy.Array) (items : list Z)
  : ended Z :=
  match x with
  | None => Raises
  | Some x =>
      match keys x items with
      | None => Raises
      | Some [] => Raises
      | Some [(i, _)] => Returns i
      | Some (first :: others) =>
          if existsb (fun p : Z * pyfloat => PyFloat.is_nan (snd p))
                     (first :: others)
          then Unordered
          else Returns (fst (py_min_key_from
                               (fun p : Z * pyfloat => snd p) first others))
      end
  end.

(** [MIPBranchingRule.branch] *)
Definition branch (self : t) (node : Node) : ended (list Node) :=
  let integers_to_zero := MIPRegion.integers_to_zero (Node.region node) in
  let integers_to_one := MIPRegion.integers_to_one (Node.region node) in
  if Nat.eqb (List.length (integers self))
             (List.length integers_to_zero + List.length integers_to_one)
  then Returns []
  else
    match sorted_first (Node.x node)
            (free_order self (integers self)
                        integers_to_zero integers_to_one) with
    | Raises => Raises
    | Unordered => Unordered
    | Returns i =>
        match Node.x node with
        | None => Raises
        | Some x =>
            match Numpy.setitem x i (PyFloat.Fin 0),
                  Numpy.setitem x i (PyFloat.Fin 1) with
            | Some x0, Some x1 =>
                let region0 :=
                  {| MIPRegion.integers_to_zero := integers_to_zero ++ [i];
                     MIPRegion.integers_to_one := integers_to_one |} in
                let child0 :=
                  Node.init region0 (Node.level node + 1)%Z (Some x0)
                            (Node.lb node) in
                let region1 :=
                  {| MIPRegion.integers_to_zero := integers_to_zero;
                     MIPRegion.integers_to_one := integers_to_one ++ [i] |} in
                let child1 :=
                  Node.init region1 (Node.level node + 1)%Z (Some x1)
                            (Node.lb node) in
                Returns [child0; child1]
            | _, _ => Raises
            end
        end
    end.

End Def.
End MIPBranchingRule.

Module MIPUpperBoundingMethod.
Section Def.
Variable Payload : Type.
Let Node : Type := Node.t MIPRegion.t Numpy.Array Payload.

(** The attributes set by [initialize]: the integer indices of the
    problem, and the call [problem.solve(cp.SCIP)] on the problem with the
    integer entries fixed to given values, an external solver that
    returns whether its status is "optimal" and the value of its
    variable. *)
Record t : Type := make {
  integers : list Z;
  solve_fixed : list (Z * pyfloat) -> bool * Numpy.Array
}.

(** The values [np.round(np.clip(node.x[i], 0.0, 1.0))] to which the
    integer entries are fixed; [node.x] is read once per index. *)
Fixpoint integer_constraints (x : option Numpy.Array) (indices : list Z)
  : option (list (Z * pyfloat)) :=
  match indices with
  | [] => Some []
  | i :: rest =>
      a <- x ;;
      v <- Numpy.getitem a i ;;
      cs <- integer_constraints x rest ;;
      Some ((i, Numpy.round (Numpy.clip01 v)) :: cs)
  end.

(** [MIPUpperBoundingMethod.bound]; the point of the node is copied
    before it is changed, the node is left as it is. *)
Definition bound (self : t) (node : Node) : option Numpy.Array :=
  cs <- integer_constraints (Node.x node) (integers self) ;;
  let '(optimal, solution) := solve_fixed self cs in
  x <- (if optimal then Some solution else Node.x node) ;;
  clipped <- Numpy.take x (integers self) ;;
  x <- Numpy.put x (integers self) (map Numpy.clip01 clipped) ;;
  rounded <- Numpy.take x (integers self) ;;
  Numpy.put x (integers self) (map Numpy.round rounded).

End Def.
End MIPUpperBoundingMethod.

(* ================================================================== *)
(** * Reference definitions

    Definitions written from the specification, against which the
    embedding above is compared, and the predicates in which the
    properties of the driver are stated. *)




(** The termination tests of the status update in the order in which
    the specification lists them, each with the status it sets. *)
Definition termination_checks
           (time_limit : pyfloat) (node_limit queue_limit : Z)
           (abs_gap_tol rel_gap_tol : pyfloat)
           (timer : pyfloat) (node_count queue_size : Z)
           (abs_gap rel_gap : pyfloat) : list (bool * Status) :=
  [ (PyFloat.ge timer time_limit, TIME_LIMIT);
    ((node_count >=? node_limit)%Z, ITER_LIMIT);
    ((queue_size >=? queue_limit)%Z, MEMORY_LIMIT);
    (PyFloat.le abs_gap abs_gap_tol, RELATIVE_OPTIMAL);
    (PyFloat.le rel_gap rel_gap_tol, RELATIVE_OPTIMAL);
    ((queue_size =? 0)%Z, OPTIMAL) ].

(** "Each check independently overwriting any previously set status". *)
Definition overwrite_in_order (s0 : Status) (checks : list (bool * Status))
  : Status :=
  fold_left (fun (s : Status) (c : bool * Status) =>
               if fst c then snd c else s) checks s0.

(** "Later checks take precedence": the status of the last check that
    holds, the previous status when none does. *)
Definition last_holding (s0 : Status) (checks : list (bool * Status))
  : Status :=
  match find (fun c : bool * Status => fst c) (rev checks) with
  | Some c => snd c
  | None => s0
  end.

(** The assignments to [node.status] among the events of a visit. *)
Fixpoint status_writes (Region X Payload : Type)
         (evs : list (BnB.Event Region X Payload)) : list NodeStatus :=
  match evs with
  | [] => []
  | BnB.SetNodeStatus _ _ _ s :: evs' => s :: status_writes evs'
  | _ :: evs' => status_writes evs'
  end.

(** The contract of a searching rule in the specification: [add] appends,
    [get_next] removes the node it returns and nothing else. *)
Definition searching_rule_contract (Region X Payload : Type)
           (rule : SearchingRule.t Region X Payload) : Prop :=
  (forall queue node,
      SearchingRule.add rule queue node = queue ++ [node]) /\
  (forall queue node rest,
      SearchingRule.get_next rule queue = Some (node, rest) ->
      exists before after,
        queue = before ++ node :: after /\ rest = before ++ after).

(** The contract of a branching rule for the bound of a child: at most
    the bound of its parent (the parent's bound reused as an estimate, or
    the default [-inf]). *)
Definition child_bound_contract (Region X Payload : Type)
           (rule : BranchingRule.t Region X Payload) : Prop :=
  forall node child,
    Node.lb node <> PyFloat.NaN ->
    In child (BranchingRule.branch rule node) ->
    PyFloat.le (Node.lb child) (Node.lb node) = true.

(** The invariant that orders the two global bounds: no queued bound is
    above the incumbent value. *)
Definition queue_below_incumbent (Region X Payload : Type)
           (st : BnB.state Region X Payload) : Prop :=
  forall m, In m (BnB.queue st) ->
    PyFloat.le (Node.lb m) (BnB.best_ub st) = true.

(** The nodes returned by up to [fuel] calls of [get_next] in a row, each
    on the queue the previous call left: the order in which the main loop
    visits a queue to which nothing is added. *)
Fixpoint drain (Region X Payload : Type)
         (rule : SearchingRule.t Region X Payload) (fuel : nat)
         (queue : list (Node.t Region X Payload))
  : list (Node.t Region X Payload) :=
  match fuel with
  | O => []
  | S fuel' =>
      match SearchingRule.get_next rule queue with
      | Some (node, rest) => node :: drain rule fuel' rest
      | None => []
      end
  end.

(** The queue obtained from [queue] by adding [nodes] one after the
    other. *)
Definition add_all (Region X Payload : Type)
           (rule : SearchingRule.t Region X Payload)
           (queue nodes : list (Node.t Region X Payload))
  : list (Node.t Region X Payload) :=
  fold_left (SearchingRule.add rule) nodes queue.

(** All the bounds of a queue are numbers. *)
Definition numeric_bounds (Region X Payload : Type)
           (queue : list (Node.t Region X Payload)) : bool :=
  forallb (fun m => negb (PyFloat.is_nan (Node.lb m))) queue.

(** A searching rule that keeps what is added to the empty queue and
    returns a node from every non-empty queue. *)
Definition searching_rule_total (Region X Payload : Type)
           (rule : SearchingRule.t Region X Payload) : Prop :=
  (forall node, SearchingRule.add rule [] node <> []) /\
  (forall queue, queue <> [] -> SearchingRule.get_next rule queue <> None).

(** What the iteration order of the set of free indices is known to be:
    each integer index of the problem that the region fixes neither to 0
    nor to 1, once. *)
Definition iterates_free_indices
           (order : list Z -> list Z -> list Z -> list Z) : Prop :=
  forall integers zero one,
    NoDup (order integers zero one) /\
    forall i, In i (order integers zero one) <->
              (In i integers /\ ~ In i zero /\ ~ In i one).

(** A node of the tree of a MIP with distinct integer indices: the
    indices it fixes are distinct integer indices of the problem, and
    their number is its level. *)
Definition fixes_its_level (Payload : Type) (integers : list Z)
           (node : Node.t MIPRegion.t Numpy.Array Payload) : Prop :=
  let fixed := MIPRegion.integers_to_zero (Node.region node)
               ++ MIPRegion.integers_to_one (Node.region node) in
  NoDup fixed /\
  (forall i, In i fixed -> In i integers) /\
  Node.level node = Z.of_nat (List.length fixed).

(** [r] is 0 or 1, and neither 0 nor 1 is closer to [q] than [r]. *)
Definition nearest_binary (q : Q) (r : Z) : Prop :=
  (r = 0 \/ r = 1)%Z /\
  Qabs (inject_Z r - q) <= Qabs (0 - q) /\
  Qabs (inject_Z r - q) <= Qabs (1 - q).

Section Runs.
Variables Region X Payload : Type.
Variable self : BnB.t Region X Payload.
Variable problem : Problem.t X.
Variable clock : Z -> pyfloat.

(** The states at the head of the main loop: the initial one, and the
    one left by a pass through the body entered with status [RUNNING]. *)
Inductive loop_head : BnB.state Region X Payload -> Prop :=
| loop_head_init : loop_head (BnB.initial_state self problem)
| loop_head_next st v st' :
    loop_head st ->
    BnB.status st = RUNNING ->
    BnB.iteration self problem clock st = Some (v, st') ->
    loop_head st'.

(** [k] passes through the loop body, with the last visit. *)
Fixpoint iterate (k : nat) (st : BnB.state Region X Payload)
  : option (option (BnB.Visit Region X Payload)
            * BnB.state Region X Payload) :=
  match k with
  | O => Some (None, st)
  | S k' =>
      '(_, st1) <- iterate k' st ;;
      '(v, st2) <- BnB.iteration self problem clock st1 ;;
      Some (Some v, st2)
  end.


(** "Updated exactly once per visit": each pass through the loop body
    assigns the status of its node exactly once. *)
Definition status_written_once : Prop :=
  forall st v st',
    BnB.iteration self problem clock st = Some (v, st') ->
    List.length (status_writes (BnB.events v)) = 1%nat.

(** "Once both are finite, [best_lb <= best_ub]", read at the head of
    the loop. *)
Definition bounds_ordered : Prop :=
  forall st,
    loop_head st ->
    PyFloat.is_finite (BnB.best_lb st) = true ->
    PyFloat.is_finite (BnB.best_ub st) = true ->
    PyFloat.le (BnB.best_lb st) (BnB.best_ub st) = true.

End Runs.

(* ================================================================== *)
(** * Stub collaborators

    Collaborators "stubbed to known values": regions are numbers, points
    are rationals worth their own value and feasible when integral, and
    the bounding and branching results are read from tables indexed by
    the region. *)

Module Stub.

Definition Node : Type := Node.t nat Q Z.

Definition problem : Problem.t Q :=
  {| Problem.value := fun x => PyFloat.Fin x;
     Problem.is_feasible := fun x _ =>
       match x with
       | Some q => Pos.eqb (Qden (Qred q)) 1
       | None => false
       end |}.

Definition lb_method (tab : nat -> Q * pyfloat)
  : LowerBoundingMethod.t nat Q Z :=
  {| LowerBoundingMethod.bound := fun node =>
       {| Node.status := Node.status node;
          Node.region := Node.region node;
          Node.level := Node.level node;
          Node.x := Some (fst (tab (Node.region node)));
          Node.lb := snd (tab (Node.region node));
          Node.trace := Node.trace node |} |}.

Definition ub_method (tab : nat -> Q) : UpperBoundingMethod.t nat Q Z :=
  {| UpperBoundingMethod.bound := fun node => tab (Node.region node) |}.

(** A child is created with the parent's point as a warm start and with
    the parent's bound, unless the table gives it a bound of its own. *)
Definition branching_rule (tab : nat -> list (nat * option pyfloat))
  : BranchingRule.t nat Q Z :=
  {| BranchingRule.branch := fun node =>
       map (fun c : nat * option pyfloat =>
              Node.init (fst c) (Node.level node + 1)%Z (Node.x node)
                        (match snd c with
                         | Some l => l
                         | None => Node.lb node
                         end))
           (tab (Node.region node)) |}.

Definition tol : pyfloat := PyFloat.Fin PyFloat.eps8.

Definition solver (time_limit : pyfloat) (node_limit : Z)
           (abs_gap_tol rel_gap_tol : pyfloat)
           (lbs : nat -> Q * pyfloat) (ubs : nat -> Q)
           (children : nat -> list (nat * option pyfloat))
  : BnB.t nat Q Z :=
  {| BnB.verbose := false;
     BnB.keeptrace := true;
     BnB.time_limit := time_limit;
     BnB.node_limit := node_limit;
     BnB.queue_limit := 9223372036854775807%Z;
     BnB.feas_tol := tol;
     BnB.abs_gap_tol := abs_gap_tol;
     BnB.rel_gap_tol := rel_gap_tol;
     BnB.root_region := fun _ => 0%nat;
     BnB.lb_method := lb_method lbs;
     BnB.ub_method := ub_method ubs;
     BnB.branching_rule := branching_rule children;
     BnB.searching_rule := BestFirstSearch nat Q Z |}.

(** An open node of region [r] created with bound [lb]. *)
Definition open_node (r : nat) (lb : Q) : Node :=
  Node.init r 1%Z None (PyFloat.Fin lb).

(** Nodes queued in this order with bounds 5, 2, 8 and 2. *)
Definition queue_5_2_8_2 : list Node :=
  [open_node 1 5; open_node 2 2; open_node 3 8; open_node 4 2].

(** A node whose bound is NaN queued before a node of bound 1. *)
Definition queue_nan_1 : list Node :=
  [Node.init 1%nat 1%Z None PyFloat.NaN; open_node 2 1].

(** A generator whose draw is always the upper end of the range. *)
Definition draw_last (lo hi : Z) : Z := hi.

(** One second per iteration. *)
Definition clock (n : Z) : pyfloat := PyFloat.of_Z n.

(** A tree of seven regions explored in five iterations: the root and
    regions 1 and 2 are expanded, region 3 yields the optimum 3 and
    empties regions 5 and 6 from the queue, region 4 is pruned. *)
Module Tree.

Definition lbs (r : nat) : Q * pyfloat :=
  match r with
  | 0%nat => (1 # 2, PyFloat.Fin 1)
  | 1%nat => (3 # 2, PyFloat.Fin (7 # 2))
  | 2%nat => (5 # 2, PyFloat.Fin 2)
  | 3%nat => (3, PyFloat.Fin 3)
  | 4%nat => (9 # 2, PyFloat.Fin 5)
  | _ => (0, PyFloat.PosInf)
  end.

Definition ubs (r : nat) : Q :=
  match r with
  | 0%nat => 7
  | 1%nat => 6
  | 2%nat => 4
  | _ => 100
  end.

Definition children (r : nat) : list (nat * option pyfloat) :=
  match r with
  | 0%nat => [(1%nat, None); (2%nat, None)]
  | 1%nat => [(5%nat, None); (6%nat, None)]
  | 2%nat => [(3%nat, None); (4%nat, None)]
  | _ => []
  end.

Definition self : BnB.t nat Q Z :=
  solver PyFloat.PosInf 9223372036854775807%Z tol tol lbs ubs children.

(** The same solver with a zero time limit. *)
Definition self_no_time : BnB.t nat Q Z :=
  solver (PyFloat.Fin 0) 9223372036854775807%Z tol tol lbs ubs children.


(** The same solver with a node limit of three. *)
Definition self_three_nodes : BnB.t nat Q Z :=
  solver PyFloat.PosInf 3%Z tol tol lbs ubs children.

Definition run (k : nat) : option (option (BnB.Visit nat Q Z)
                                   * BnB.state nat Q Z) :=
  iterate self problem clock k (BnB.initial_state self problem).

Definition state_after (k : nat) : BnB.state nat Q Z :=
  match run k with
  | Some (_, st) => st
  | None => BnB.initial_state self problem
  end.

End Tree.

(** A branching rule that gives the child of the root a bound of its
    own, 100, above the value 5 of the incumbent found at the root. *)
Module Overshoot.

Definition lbs (r : nat) : Q * pyfloat :=
  match r with
  | 0%nat => (1 # 2, PyFloat.Fin 0)
  | _ => (0, PyFloat.PosInf)
  end.

Definition ubs (r : nat) : Q := 5.

Definition children (r : nat) : list (nat * option pyfloat) :=
  match r with
  | 0%nat => [(1%nat, Some (PyFloat.Fin 100))]
  | _ => []
  end.

Definition self : BnB.t nat Q Z :=
  solver PyFloat.PosInf 9223372036854775807%Z tol tol lbs ubs children.

End Overshoot.

(** Negative gap tolerances: the root, bounded by 10, yields a point of
    value 5 and is branched on all the same; its child inherits the
    bound 10. *)
Module NegativeTolerance.

Definition lbs (r : nat) : Q * pyfloat :=
  match r with
  | 0%nat => (1 # 2, PyFloat.Fin 10)
  | _ => (0, PyFloat.PosInf)
  end.

Definition ubs (r : nat) : Q := 5.

Definition children (r : nat) : list (nat * option pyfloat) :=
  match r with
  | 0%nat => [(1%nat, None)]
  | _ => []
  end.

Definition self : BnB.t nat Q Z :=
  solver PyFloat.PosInf 9223372036854775807%Z
         (PyFloat.Fin (-100)) (PyFloat.Fin (-100)) lbs ubs children.

End NegativeTolerance.

(** A problem with no feasible point, whose objective is [+inf]
    everywhere, and a root that has no child: the queue is exhausted
    after one pass and no incumbent is found. *)
Module NoIncumbent.

Definition problem : Problem.t Q :=
  {| Problem.value := fun _ => PyFloat.PosInf;
     Problem.is_feasible := fun _ _ => false |}.

Definition lbs (r : nat) : Q * pyfloat := (1 # 2, PyFloat.Fin 1).

Definition ubs (r : nat) : Q := 0.

Definition children (r : nat) : list (nat * option pyfloat) := [].

Definition self : BnB.t nat Q Z :=
  solver PyFloat.PosInf 9223372036854775807%Z tol tol lbs ubs children.

End NoIncumbent.



(** A problem on three entries, the first and the last binary, and a
    node at its root. *)
Module MIPExample.

(** The free indices in the order of the problem's list. *)
Definition in_list_order (integers zero one : list Z) : list Z :=
  nodup Z.eq_dec
        (filter (fun i => negb (existsb (Z.eqb i) zero
                                || existsb (Z.eqb i) one))
                integers).

Definition rule : MIPBranchingRule.t :=
  {| MIPBranchingRule.integers := [0%Z; 2%Z];
     MIPBranchingRule.free_order := in_list_order |}.

Definition point : Numpy.Array :=
  [PyFloat.Fin (3 # 10); PyFloat.Fin 5; PyFloat.Fin (1 # 2)].

Definition root : Node.t MIPRegion.t Numpy.Array Z :=
  {| Node.status := PROCESSED;
     Node.region := MIPRegion.root_region;
     Node.level := 0%Z;
     Node.x := Some point;
     Node.lb := PyFloat.Fin 1;
     Node.trace := [] |}.

(** An upper bounding method whose solver returns an optimal point with
    fractional binary entries. *)
Definition ub_method : MIPUpperBoundingMethod.t :=
  {| MIPUpperBoundingMethod.integers := [0%Z; 2%Z];
     MIPUpperBoundingMethod.solve_fixed := fun _ =>
       (true, [PyFloat.Fin (7 # 10); PyFloat.Fin (-3); PyFloat.Fin (1 # 2)])
  |}.

(** [min x[1] s.t. x - 2 <= 0, -5 <= x <= (1, 5, 1), x[0], x[2] binary]. *)
Definition problem : MIP.t :=
  {| MIP.f := fun x => Numpy.getitem x 1%Z;
     MIP.g := fun x => Some (map (fun v => PyFloat.sub v (PyFloat.Fin 2)) x);
     MIP.lb := Numpy.Scalar (PyFloat.Fin (-5));
     MIP.ub := Numpy.Vector [PyFloat.Fin 1; PyFloat.Fin 5; PyFloat.Fin 1];
     MIP.integers := [0%Z; 2%Z] |}.

Definition feasible_point : Numpy.Array :=
  [PyFloat.Fin 1; PyFloat.Fin (-3); PyFloat.Fin 0].

(** The point [(0.9, 0.1)], both entries binary: the floats [0.9 - 0.5]
    and [abs(0.1 - 0.5)] are the same float 0.4, although the second
    difference is the smaller real. *)
Definition tie_point : Numpy.Array :=
  [PyFloat.Fin (8106479329266893 # 9007199254740992);
   PyFloat.Fin (3602879701896397 # 36028797018963968)].

Definition tie_rule : MIPBranchingRule.t :=
  {| MIPBranchingRule.integers := [0%Z; 1%Z];
     MIPBranchingRule.free_order := in_list_order |}.

Definition tie_root : Node.t MIPRegion.t Numpy.Array Z :=
  {| Node.status := PROCESSED;
     Node.region := MIPRegion.root_region;
     Node.level := 0%Z;
     Node.x := Some tie_point;
     Node.lb := PyFloat.Fin 1;
     Node.trace := [] |}.

(** [min x[1] s.t. x - 2 <= 0, -5 <= x <= (0, 1), x[1] binary], and
    the point [(1e-8, 1.0)], whose first entry is the float [0.0 + 1e-8]
    and exceeds the real [10^-8]. *)
Definition tight_problem : MIP.t :=
  {| MIP.f := fun x => Numpy.getitem x 1%Z;
     MIP.g := fun x => Some (map (fun v => PyFloat.sub v (PyFloat.Fin 2)) x);
     MIP.lb := Numpy.Scalar (PyFloat.Fin (-5));
     MIP.ub := Numpy.Vector [PyFloat.Fin 0; PyFloat.Fin 1];
     MIP.integers := [1%Z] |}.

Definition tight_point : Numpy.Array :=
  [PyFloat.Fin PyFloat.eps8; PyFloat.Fin 1].

End MIPExample.

End Stub.

(* ================================================================== *)
(** * Properties *)

(** ** The order on Python floats *)

Module PyFloatFacts.
Import PyFloat.

Ltac qcmp :=
  repeat match goal with
    | |- context [?x ?= ?y] => destruct (Qcompare_spec x y)
    | H : context [?x ?= ?y] |- _ => destruct (Qcompare_spec x y)
    end.

Ltac crush :=
  simpl in *; qcmp; try discriminate; try reflexivity; try lra.

Lemma gt_le_false (a b : t) : gt a b = true -> le a b = false.
Proof. unfold gt; destruct a, b; crush. Qed.

Lemma le_gt_false (a b : t) : le a b = true -> gt a b = false.
Proof. unfold gt; destruct a, b; crush. Qed.

Lemma lt_le (a b : t) : lt a b = true -> le a b = true.
Proof. destruct a, b; crush. Qed.


Lemma le_not_nan_r (a b : t) : le a b = true -> b <> NaN.
Proof. destruct a, b; simpl; congruence. Qed.

Lemma le_refl (a : t) : a <> NaN -> le a a = true.
Proof. destruct a; crush; congruence. Qed.

Lemma le_trans (a b c : t) :
  le a b = true -> le b c = true -> le a c = true.
Proof. destruct a, b, c; crush. Qed.

Lemma lt_le_trans (a b c : t) :
  lt a b = true -> le b c = true -> lt a c = true.
Proof. destruct a, b, c; crush. Qed.

Lemma le_lt_trans (a b c : t) :
  le a b = true -> lt b c = true -> lt a c = true.
Proof. destruct a, b, c; crush. Qed.

Lemma lt_irrefl (a : t) : lt a a = false.
Proof. destruct a; crush. Qed.

(** Away from NaN the order is total. *)
Lemma not_lt_le (a b : t) :
  a <> NaN -> b <> NaN -> lt b a = false -> le a b = true.
Proof. destruct a, b; crush; congruence. Qed.

Lemma not_le_lt (a b : t) :
  a <> NaN -> b <> NaN -> le a b = false -> lt b a = true.
Proof. destruct a, b; crush; congruence. Qed.

Lemma le_false_of_lt (a b : t) : lt b a = true -> le a b = false.
Proof. destruct a, b; crush. Qed.

(** *** Rounding to binary64 *)

Lemma rint_comp (a b : Q) : a == b -> rint a = rint b.
Proof.
  intros E. unfold rint. rewrite (Qfloor_comp _ _ E).
  assert (H : (a - inject_Z (Qfloor b) ?= 1 # 2)
              = (b - inject_Z (Qfloor b) ?= 1 # 2))
    by (rewrite E; reflexivity).
  rewrite H. reflexivity.
Qed.

Lemma rint_nearest (q : Q) : Qabs (inject_Z (rint q) - q) <= 1 # 2.
Proof.
  unfold rint.
  pose proof (Qfloor_le q) as Hlo. pose proof (Qlt_floor q) as Hhi.
  rewrite inject_Z_plus in Hhi.
  change (inject_Z 1) with 1 in Hhi.
  destruct (Qcompare_spec (q - inject_Z (Qfloor q)) (1 # 2)) as [E | E | E].
  - destruct (Z.even (Qfloor q)).
    + apply Qabs_Qle_condition. split; lra.
    + rewrite inject_Z_plus. change (inject_Z 1) with 1.
      apply Qabs_Qle_condition. split; lra.
  - apply Qabs_Qle_condition. split; lra.
  - rewrite inject_Z_plus. change (inject_Z 1) with 1.
    apply Qabs_Qle_condition. split; lra.
Qed.

Lemma rint_mono (a b : Q) : a <= b -> (rint a <= rint b)%Z.
Proof.
  intros Hab.
  destruct (Z_le_gt_dec (rint a) (rint b)) as [H | H]; [exact H | exfalso].
  pose proof (rint_nearest a) as Ha. pose proof (rint_nearest b) as Hb.
  apply Qabs_Qle_condition in Ha. apply Qabs_Qle_condition in Hb.
  assert (H1 : inject_Z (rint b) + 1 <= inject_Z (rint a)).
  { change 1 with (inject_Z 1). rewrite <- inject_Z_plus.
    rewrite <- Zle_Qle. lia. }
  assert (E : a == b) by lra.
  rewrite (rint_comp E) in H. lia.
Qed.

Lemma rint_Z (n : Z) : rint (inject_Z n) = n.
Proof.
  unfold rint. rewrite Qfloor_Z.
  destruct (Qcompare_spec (inject_Z n - inject_Z n) (1 # 2)) as [E | E | E];
    [lra | reflexivity | lra].
Qed.

Lemma pow2_pos (z : Z) : 0 < 2 ^ z.
Proof. apply Qpower_0_lt. reflexivity. Qed.

Lemma pow2_le (n m : Z) : (n <= m)%Z -> 2 ^ n <= 2 ^ m.
Proof. intros H. apply Qpower_le_compat_l; [exact H | discriminate]. Qed.

Lemma pow2_lt_inv (n m : Z) : 2 ^ n < 2 ^ m -> (n < m)%Z.
Proof. intros H. apply (Qpower_lt_compat_l_inv _ _ _ H). reflexivity. Qed.

Lemma pow2_Z (n : Z) : (0 <= n)%Z -> inject_Z (2 ^ n) == 2 ^ n.
Proof. intros H. exact (Zpower_Qpower 2 n H). Qed.

Lemma pow2_plus (n m : Z) : 2 ^ (n + m) == 2 ^ n * 2 ^ m.
Proof. apply Qpower_plus. discriminate. Qed.

Lemma log2_floor_spec (q : Q) :
  0 < q -> 2 ^ log2_floor q <= q /\ q < 2 ^ (log2_floor q + 1).
Proof.
  intros Hq. unfold log2_floor.
  destruct (Qle_bool 1 q) eqn:E.
  - apply Qle_bool_iff in E.
    pose proof (Qfloor_le q) as Hlo. pose proof (Qlt_floor q) as Hhi.
    assert (Hn : (0 < Qfloor q)%Z).
    { assert (H : (1 <= Qfloor q)%Z); [| lia].
      rewrite <- (Qfloor_Z 1). apply Qfloor_resp_le. exact E. }
    destruct (Z.log2_spec _ Hn) as [H1 H2].
    pose proof (Z.log2_nonneg (Qfloor q)) as H0.
    split.
    + rewrite <- pow2_Z by exact H0.
      apply Qle_trans with (inject_Z (Qfloor q)); [| exact Hlo].
      rewrite <- Zle_Qle. exact H1.
    + rewrite <- pow2_Z by lia.
      apply Qlt_le_trans with (inject_Z (Qfloor q + 1)); [exact Hhi |].
      rewrite <- Zle_Qle. unfold Z.succ in H2. lia.
  - assert (Hlt : q < 1).
    { apply Qnot_le_lt. intros H. apply Qle_bool_iff in H. congruence. }
    set (r := / q).
    assert (Hr : 1 < r).
    { unfold r. apply Qlt_shift_inv_l; [exact Hq | lra]. }
    assert (Hqr : q * r == 1) by (unfold r; field; lra).
    pose proof (Qle_ceiling r) as Hc1. pose proof (Qceiling_lt r) as Hc2.
    assert (Hc : (1 < Qceiling r)%Z).
    { rewrite Zlt_Qlt. change (inject_Z 1) with 1. lra. }
    destruct (Z.log2_up_spec _ Hc) as [H1 H2].
    pose proof (Z.log2_up_nonneg (Qceiling r)) as H0.
    set (j := Z.log2_up (Qceiling r)) in *.
    assert (Hj : (0 < j)%Z).
    { destruct (Z.eq_dec j 0) as [E0 | E0]; [| lia].
      rewrite E0 in H2. simpl in H2. lia. }
    assert (Hup : r <= 2 ^ j).
    { rewrite <- pow2_Z by lia.
      apply Qle_trans with (inject_Z (Qceiling r)); [exact Hc1 |].
      rewrite <- Zle_Qle. exact H2. }
    assert (Hdown : 2 ^ (j - 1) < r).
    { rewrite <- pow2_Z by lia.
      apply Qle_lt_trans with (inject_Z (Qceiling r - 1)); [| exact Hc2].
      rewrite <- Zle_Qle. replace (Z.pred j) with (j - 1)%Z in H1 by lia.
      lia. }
    pose proof (pow2_pos j) as Pj. pose proof (pow2_pos (j - 1)) as Pj1.
    split.
    + rewrite Qpower_opp. apply Qle_shift_inv_r; [exact Pj |].
      assert (q * r <= q * 2 ^ j) by (apply Qmult_le_l; assumption).
      lra.
    + replace (- j + 1)%Z with (- (j - 1))%Z by lia.
      rewrite Qpower_opp. apply Qlt_shift_inv_l; [exact Pj1 |].
      assert (q * 2 ^ (j - 1) < q * r) by (apply Qmult_lt_l; assumption).
      lra.
Qed.

Lemma log2_floor_mono (x y : Q) :
  0 < x -> x <= y -> (log2_floor x <= log2_floor y)%Z.
Proof.
  intros Hx Hxy.
  destruct (log2_floor_spec Hx) as [H1 _].
  destruct (@log2_floor_spec y) as [_ H2]; [lra |].
  assert (H : 2 ^ log2_floor x < 2 ^ (log2_floor y + 1)) by lra.
  apply pow2_lt_inv in H. lia.
Qed.

Lemma round_pos_nonneg (q : Q) : 0 <= q -> 0 <= round_pos q.
Proof.
  intros Hq. unfold round_pos.
  pose proof (pow2_pos (ulp_exponent q)) as Hu.
  apply Qmult_le_0_compat; [| lra].
  change 0 with (inject_Z 0). rewrite <- Zle_Qle.
  rewrite <- (rint_Z 0). apply rint_mono.
  change (inject_Z 0) with 0. apply Qle_shift_div_l; [exact Hu | lra].
Qed.

Lemma round_pos_mono (x y : Q) :
  0 < x -> x <= y -> round_pos x <= round_pos y.
Proof.
  intros Hx Hxy. assert (Hy : 0 < y) by lra.
  pose proof (log2_floor_mono Hx Hxy) as Hlog.
  unfold round_pos, ulp_exponent.
  set (ex := Z.max (log2_floor x) (-1022)).
  set (ey := Z.max (log2_floor y) (-1022)).
  assert (Hexy : (ex <= ey)%Z) by (unfold ex, ey; lia).
  pose proof (pow2_pos (ex - 52)) as Pux. pose proof (pow2_pos (ey - 52)) as Puy.
  destruct (Z.eq_dec ex ey) as [E | Hne].
  - rewrite E. apply Qmult_le_compat_r; [| lra].
    rewrite <- Zle_Qle. apply rint_mono.
    apply Qle_shift_div_l; [exact Puy |].
    assert (H : x / 2 ^ (ey - 52) * 2 ^ (ey - 52) == x) by (field; lra).
    rewrite H. exact Hxy.
  - assert (Hlt : (ex + 1 <= ey)%Z) by lia.
    apply Qle_trans with (2 ^ (ex + 1)); [| apply Qle_trans with (2 ^ ey)].
    + destruct (log2_floor_spec Hx) as [_ Hhi].
      assert (Hx' : x <= 2 ^ (ex + 1)).
      { apply Qle_trans with (2 ^ (log2_floor x + 1)); [lra |].
        apply pow2_le. unfold ex. lia. }
      assert (Hs : 2 ^ (ex + 1) == inject_Z (2 ^ 53) * 2 ^ (ex - 52)).
      { rewrite pow2_Z by lia. rewrite <- pow2_plus. f_equiv. lia. }
      rewrite Hs. apply Qmult_le_compat_r; [| lra].
      rewrite <- Zle_Qle. rewrite <- (rint_Z (2 ^ 53)). apply rint_mono.
      apply Qle_shift_div_r; [exact Pux |]. rewrite <- Hs. exact Hx'.
    + apply pow2_le. exact Hlt.
    + assert (Hey : ey = log2_floor y) by (unfold ex, ey in *; lia).
      destruct (log2_floor_spec Hy) as [Hlo _]. rewrite <- Hey in Hlo.
      assert (Hs : 2 ^ ey == inject_Z (2 ^ 52) * 2 ^ (ey - 52)).
      { rewrite pow2_Z by lia. rewrite <- pow2_plus. f_equiv. lia. }
      rewrite Hs at 1. apply Qmult_le_compat_r; [| lra].
      rewrite <- Zle_Qle. rewrite <- (rint_Z (2 ^ 52)) at 1. apply rint_mono.
      apply Qle_shift_div_l; [exact Puy |]. rewrite <- Hs. exact Hlo.
Qed.


Lemma round64_not_nan (q : Q) : round64 q <> NaN.
Proof.
  unfold round64. destruct (q ?= 0); [discriminate | |];
    destruct (Qle_bool _ _); discriminate.
Qed.

Lemma round64_zero (q : Q) : q == 0 -> round64 q = Fin 0.
Proof.
  intros E. unfold round64. rewrite (proj1 (Qeq_alt q 0) E). reflexivity.
Qed.

Lemma compare_Qred_l (a b : Q) : (Qred a ?= b) = (a ?= b).
Proof. apply Qcompare_comp; [apply Qred_correct | reflexivity]. Qed.

Lemma compare_Qred_r (a b : Q) : (a ?= Qred b) = (a ?= b).
Proof. apply Qcompare_comp; [reflexivity | apply Qred_correct]. Qed.

(** The overflow test keeps the order. *)
Lemma clamp_mono (a b : Q) :
  a <= b ->
  le (if Qle_bool (2 ^ 1024) a then PosInf else Fin (Qred a))
     (if Qle_bool (2 ^ 1024) b then PosInf else Fin (Qred b)) = true.
Proof.
  intros Hab.
  destruct (Qle_bool (2 ^ 1024) a) eqn:Ea, (Qle_bool (2 ^ 1024) b) eqn:Eb;
    cbn [le]; try reflexivity.
  - apply Qle_bool_iff in Ea.
    assert (H : ~ 2 ^ 1024 <= b)
      by (intros H; apply Qle_bool_iff in H; congruence).
    exfalso. apply H. apply Qle_trans with a; assumption.
  - rewrite compare_Qred_l, compare_Qred_r.
    destruct (Qcompare_spec a b); try reflexivity. lra.
Qed.

Lemma clamp_neg_mono (a b : Q) :
  b <= a ->
  le (if Qle_bool (2 ^ 1024) a then NegInf else Fin (Qred (- a)))
     (if Qle_bool (2 ^ 1024) b then NegInf else Fin (Qred (- b))) = true.
Proof.
  intros Hab.
  destruct (Qle_bool (2 ^ 1024) a) eqn:Ea, (Qle_bool (2 ^ 1024) b) eqn:Eb;
    cbn [le]; try reflexivity.
  - apply Qle_bool_iff in Eb.
    assert (H : ~ 2 ^ 1024 <= a)
      by (intros H; apply Qle_bool_iff in H; congruence).
    exfalso. apply H. apply Qle_trans with b; assumption.
  - rewrite compare_Qred_l, compare_Qred_r.
    destruct (Qcompare_spec (- a) (- b)); try reflexivity. lra.
Qed.

Lemma round64_nonneg (q : Q) : 0 <= q -> le (Fin 0) (round64 q) = true.
Proof.
  intros Hq. unfold round64.
  destruct (Qcompare_spec q 0) as [E | E | E]; [reflexivity | lra |].
  pose proof (@round_pos_nonneg q Hq) as H.
  destruct (Qle_bool (2 ^ 1024) (round_pos q)); [reflexivity |].
  cbn [le]. rewrite compare_Qred_r.
  destruct (Qcompare_spec 0 (round_pos q)); try reflexivity. lra.
Qed.

Lemma round64_nonpos (q : Q) : q <= 0 -> le (round64 q) (Fin 0) = true.
Proof.
  intros Hq. unfold round64.
  destruct (Qcompare_spec q 0) as [E | E | E]; [reflexivity | | lra].
  assert (H : 0 <= round_pos (- q)) by (apply round_pos_nonneg; lra).
  destruct (Qle_bool (2 ^ 1024) (round_pos (- q))); [reflexivity |].
  cbn [le]. rewrite compare_Qred_l.
  destruct (Qcompare_spec (- round_pos (- q)) 0); try reflexivity. lra.
Qed.

(** Rounding keeps the order. *)
Lemma round64_mono (x y : Q) :
  x <= y -> le (round64 x) (round64 y) = true.
Proof.
  intros Hxy.
  destruct (Qlt_le_dec 0 x) as [Hx | Hx].
  - unfold round64.
    destruct (Qcompare_spec x 0) as [E | E | E]; [lra | lra |].
    destruct (Qcompare_spec y 0) as [E' | E' | E']; [lra | lra |].
    apply clamp_mono. apply round_pos_mono; assumption.
  - destruct (Qlt_le_dec 0 y) as [Hy | Hy].
    + exact (le_trans _ _ _ (round64_nonpos Hx)
                      (round64_nonneg (Qlt_le_weak _ _ Hy))).
    + destruct (Qlt_le_dec y 0) as [Hy' | Hy'].
      * unfold round64.
        destruct (Qcompare_spec x 0) as [E | E | E]; [lra | | lra].
        destruct (Qcompare_spec y 0) as [E' | E' | E']; [lra | | lra].
        apply clamp_neg_mono. apply round_pos_mono; lra.
      * rewrite (@round64_zero y) by lra. apply round64_nonpos. exact Hx.
Qed.


(** The rounding at work: the literals [1e-16] and [1e-8], the floats
    [0.1] and [7.0 / 3.0], the overflow threshold, the largest float and
    the ties of the smallest subnormal numbers. *)
Example round64_values :
  round64 (1 # 10000000000000000) = Fin eps16 /\
  round64 (1 # 100000000) = Fin eps8 /\
  round64 (1 # 10) = Fin (3602879701896397 # 36028797018963968) /\
  round64 (7 # 3) = Fin (5254199565265579 # 2251799813685248) /\
  round64 (2 ^ 1024 - 2 ^ 970) = PosInf /\
  round64 (2 ^ 1024 - 2 ^ 971) = Fin (Qred (2 ^ 1024 - 2 ^ 971)) /\
  round64 (- (2 ^ 1024)) = NegInf /\
  round64 (2 ^ (-1075)) = Fin 0 /\
  round64 (3 * 2 ^ (-1075)) = Fin (Qred (2 ^ (-1073))) /\
  round64 eps16 = Fin eps16.
Proof. repeat split; vm_compute; reflexivity. Qed.

(** A rounded difference of two numbers that is above a non-negative
    tolerance is the difference of a greater and a smaller number. *)
Lemma sub_gt_positive (x y : Q) (tol : t) :
  le (Fin 0) tol = true -> gt (round64 (x - y)) tol = true -> y < x.
Proof.
  intros Htol Hgt. apply Qnot_le_lt. intros Hxy.
  assert (H : le (round64 (x - y)) (Fin 0) = true)
    by (apply round64_nonpos; lra).
  rewrite (le_gt_false _ _ (le_trans _ _ _ H Htol)) in Hgt. discriminate.
Qed.




Lemma eps16_pos : 0 < eps16.
Proof. reflexivity. Qed.

(** The denominator of the relative gap is never zero. *)
Lemma floor_not_zero (m : t) : is_zero (max m (Fin eps16)) = false.
Proof.
  pose proof eps16_pos.
  unfold max, gt; destruct m; simpl; try reflexivity.
  destruct (Qcompare_spec q eps16); simpl;
    destruct (Qcompare_spec q 0); try reflexivity; lra.
Qed.



(** A difference strictly above a non-negative tolerance orders its
    operands strictly. *)
Lemma sub_gt_lt (a b tol : t) :
  le (Fin 0) tol = true -> gt (sub a b) tol = true -> lt b a = true.
Proof.
  destruct a as [| | x |], b as [| | y |]; cbn [sub];
    try (unfold gt; destruct tol; crush; fail).
  intros Htol Hgt. pose proof (@sub_gt_positive x y tol Htol Hgt).
  simpl. destruct (Qcompare_spec y x); try reflexivity; lra.
Qed.

(** What is strictly below something is neither NaN nor [+inf]. *)
Lemma lt_not_nan_l (a b : t) : lt a b = true -> a <> NaN.
Proof. destruct a; simpl; congruence. Qed.

Lemma lt_not_PosInf_l (a b : t) : lt a b = true -> a <> PosInf.
Proof. destruct a, b; simpl; congruence. Qed.

End PyFloatFacts.

(** ** The relative gap *)

Lemma rel_gap_never_raises (ub lb : pyfloat) : BnB._rel_gap ub lb <> None.
Proof.
  unfold BnB._rel_gap, PyFloat.div.
  rewrite PyFloatFacts.floor_not_zero. discriminate.
Qed.







(** ** The linear scans of [min] and the best-first rule *)

Section MinScan.
Variable A : Type.
Variable key : A -> pyfloat.

(** The scan keeps an item of the iterable; every item before it has a
    key that is not below or equal to the kept key, every item after it a
    key that is not strictly below. *)
Lemma fold_min_scan (a : A) (l : list A) :
  let r := fold_left (min_step key) l (a, key a) in
  snd r = key (fst r) /\
  exists l1 l2,
    a :: l = l1 ++ fst r :: l2 /\
    (forall m, In m l1 -> PyFloat.le (key m) (key (fst r)) = false) /\
    (forall m, In m l2 -> PyFloat.lt (key m) (key (fst r)) = false).
Proof.
  induction l as [| b l IH] using rev_ind; simpl.
  - split; [reflexivity |].
    exists [], []. repeat split; intros m [].
  - rewrite fold_left_app. simpl.
    destruct IH as [Hk (l1 & l2 & Hsplit & Hbefore & Hafter)].
    set (r := fold_left (min_step key) l (a, key a)) in *.
    assert (Hstep : min_step key r b
                    = if PyFloat.lt (key b) (key (fst r))
                      then (b, key b) else r)
      by (unfold min_step; simpl; rewrite Hk; reflexivity).
    rewrite Hstep. clear Hstep.
    destruct (PyFloat.lt (key b) (key (fst r))) eqn:Hlt; simpl.
    + split; [reflexivity |].
      exists (l1 ++ fst r :: l2), []. repeat split.
      * rewrite app_comm_cons, Hsplit. reflexivity.
      * intros m Hm.
        destruct (PyFloat.le (key m) (key b)) eqn:Hle; [| reflexivity].
        pose proof (PyFloatFacts.le_lt_trans _ _ _ Hle Hlt) as Hmr.
        apply in_app_or in Hm. destruct Hm as [Hm | [<- | Hm]].
        -- pose proof (Hbefore m Hm) as Hb.
           rewrite (PyFloatFacts.lt_le _ _ Hmr) in Hb. discriminate.
        -- rewrite PyFloatFacts.lt_irrefl in Hmr. discriminate.
        -- rewrite (Hafter m Hm) in Hmr. discriminate.
      * intros m [].
    + split; [exact Hk |].
      exists l1, (l2 ++ [b]). repeat split.
      * rewrite app_comm_cons, Hsplit, <- app_assoc. reflexivity.
      * exact Hbefore.
      * intros m Hm. apply in_app_or in Hm. destruct Hm as [Hm | [<- | []]].
        -- exact (Hafter m Hm).
        -- exact Hlt.
Qed.

Lemma py_min_key_from_scan (a : A) (l : list A) :
  exists l1 l2,
    a :: l = l1 ++ py_min_key_from key a l :: l2 /\
    (forall m, In m l1 ->
       PyFloat.le (key m) (key (py_min_key_from key a l)) = false) /\
    (forall m, In m l2 ->
       PyFloat.lt (key m) (key (py_min_key_from key a l)) = false).
Proof. exact (proj2 (fold_min_scan a l)). Qed.

Lemma py_min_key_from_In (a : A) (l : list A) :
  In (py_min_key_from key a l) (a :: l).
Proof.
  destruct (py_min_key_from_scan a l) as (l1 & l2 & -> & _).
  apply in_or_app. right. left. reflexivity.
Qed.

Lemma py_min_key_from_minimal (a : A) (l : list A) (m : A) :
  In m (a :: l) ->
  PyFloat.lt (key m) (key (py_min_key_from key a l)) = false.
Proof.
  destruct (py_min_key_from_scan a l) as (l1 & l2 & Hs & Hb & Ha).
  rewrite Hs. intros Hm. apply in_app_or in Hm.
  destruct Hm as [Hm | [<- | Hm]].
  - specialize (Hb m Hm).
    destruct (PyFloat.lt (key m) (key (py_min_key_from key a l))) eqn:E;
      [| reflexivity].
    rewrite (PyFloatFacts.lt_le _ _ E) in Hb. discriminate.
  - apply PyFloatFacts.lt_irrefl.
  - exact (Ha m Hm).
Qed.

End MinScan.
(** ** [list.pop] *)

Lemma remove_nth_firstn_skipn (A : Type) (i : nat) (l : list A) :
  remove_nth i l = firstn i l ++ skipn (S i) l.
Proof.
  revert i. induction l as [| a l IH]; intros [| i]; simpl; try reflexivity.
  rewrite IH. reflexivity.
Qed.

Lemma pop_nth (A : Type) (l : list A) (i : nat) (a : A) :
  nth_error l i = Some a ->
  pop l (Z.of_nat i) = Some (a, firstn i l ++ skipn (S i) l).
Proof.
  intros H. unfold pop.
  assert (Hlt : (i < List.length l)%nat)
    by (apply nth_error_Some; congruence).
  destruct (Z.ltb_spec (Z.of_nat i) 0); [lia |].
  destruct (Z.ltb_spec (Z.of_nat i) 0); [lia |].
  destruct (Z.leb_spec (Z.of_nat (List.length l)) (Z.of_nat i)); [lia |].
  simpl. rewrite Nat2Z.id, H, remove_nth_firstn_skipn. reflexivity.
Qed.

Lemma pop_split (A : Type) (l : list A) (i : Z) (a : A) (rest : list A) :
  pop l i = Some (a, rest) ->
  exists before after, l = before ++ a :: after /\ rest = before ++ after.
Proof.
  unfold pop. intros H.
  destruct ((_ <? 0)%Z || _)%bool; [discriminate |].
  destruct (nth_error l _) as [b |] eqn:Hn; [| discriminate].
  injection H as <- <-.
  do 2 eexists. split; [| apply remove_nth_firstn_skipn].
  symmetry. apply firstn_skipn_middle. exact Hn.
Qed.

Lemma seq_split_index (n i : nat) (l1 l2 : list nat) :
  seq 0 n = l1 ++ i :: l2 ->
  i = List.length l1 /\ (i < n)%nat /\
  (forall j, (j < i)%nat -> In j l1) /\
  (forall j, (i < j < n)%nat -> In j l2).
Proof.
  intros Hs.
  assert (Hi : nth_error (seq 0 n) (List.length l1) = Some i).
  { rewrite Hs, nth_error_app2, Nat.sub_diag by lia. reflexivity. }
  rewrite nth_error_seq in Hi.
  destruct (Nat.ltb_spec (List.length l1) n) as [Hlt |]; [| discriminate].
  injection Hi as Hi. simpl in Hi. subst i.
  repeat split; try assumption.
  - intros j Hj.
    assert (Hn : nth_error (seq 0 n) j = Some j).
    { rewrite nth_error_seq.
      destruct (Nat.ltb_spec j n); [reflexivity | lia]. }
    rewrite Hs, nth_error_app1 in Hn by assumption.
    exact (nth_error_In _ _ Hn).
  - intros j Hj.
    assert (Hn : nth_error (seq 0 n) j = Some j).
    { rewrite nth_error_seq.
      destruct (Nat.ltb_spec j n); [reflexivity | lia]. }
    rewrite Hs, nth_error_app2 in Hn by lia.
    destruct (j - List.length l1)%nat as [| d] eqn:Hd; [lia |].
    simpl in Hn. exact (nth_error_In _ _ Hn).
Qed.

(** ** [BestFirstSearch.get_next] *)

Section BestFirst.
Variables Region X Payload : Type.
Local Abbreviation Node := (Node.t Region X Payload).

(** What the scan of [get_next] guarantees on any queue, NaN bounds
    included: no earlier node is below or level with the returned one, no
    later node is strictly below it. *)
Lemma BestFirstSearch_get_next_scan (queue : list Node) :
  queue <> [] ->
  exists node before after,
    queue = before ++ node :: after /\
    SearchingRule.get_next (BestFirstSearch Region X Payload) queue
    = Some (node, before ++ after) /\
    (forall m, In m before ->
       PyFloat.le (Node.lb m) (Node.lb node) = false) /\
    (forall m, In m after ->
       PyFloat.lt (Node.lb m) (Node.lb node) = false).
Proof.
  intros Hne. destruct queue as [| a l]; [congruence |]. clear Hne.
  set (queue := a :: l).
  unfold BestFirstSearch. simpl SearchingRule.get_next.
  change (List.length queue) with (S (List.length l)).
  simpl seq. simpl py_min_key.
  destruct (py_min_key_from_scan (lb_at queue) 0%nat (seq 1 (List.length l)))
    as (l1 & l2 & Hs & Hb & Ha).
  set (i := py_min_key_from (lb_at queue) 0%nat (seq 1 (List.length l))) in *.
  change (0%nat :: seq 1 (List.length l))
    with (seq 0 (List.length queue)) in Hs.
  destruct (@seq_split_index _ _ _ _ Hs) as (Hi & Hlt & Hl1 & Hl2).
  assert (Hex : exists node, nth_error queue i = Some node).
  { destruct (nth_error queue i) as [node |] eqn:E;
      [exists node; reflexivity | apply nth_error_None in E; lia]. }
  destruct Hex as [node Hnode].
  exists node, (firstn i queue), (skipn (S i) queue).
  assert (Hkey : lb_at queue i = Node.lb node)
    by (unfold lb_at; rewrite Hnode; reflexivity).
  repeat split.
  - symmetry. apply firstn_skipn_middle. exact Hnode.
  - apply pop_nth. exact Hnode.
  - intros m Hm. apply In_nth_error in Hm. destruct Hm as [j Hj].
    rewrite nth_error_firstn in Hj.
    destruct (Nat.ltb_spec j i) as [Hji |]; [| discriminate].
    rewrite <- Hkey. specialize (Hb j (Hl1 j Hji)).
    unfold lb_at at 1 in Hb. rewrite Hj in Hb. exact Hb.
  - intros m Hm. apply In_nth_error in Hm. destruct Hm as [j Hj].
    rewrite nth_error_skipn in Hj.
    assert (Hp : (S i + j < List.length queue)%nat)
      by (apply nth_error_Some; congruence).
    assert (Hr : (i < S i + j < List.length queue)%nat) by lia.
    rewrite <- Hkey. specialize (Ha (S i + j)%nat (Hl2 _ Hr)).
    unfold lb_at at 1 in Ha. rewrite Hj in Ha. exact Ha.
Qed.

(** C7.  On a non-empty queue of nodes whose bounds are numbers,
    [BestFirstSearch.get_next] returns a node of the queue and the queue
    without that occurrence; the bound of the node is at most the bound
    of every queued node, and strictly below the bound of every node
    inserted before it: among the nodes of minimum bound it is the one of
    lowest index. *)
Theorem BestFirstSearch_get_next_min (queue : list Node) :
  queue <> [] ->
  forallb (fun m => negb (PyFloat.is_nan (Node.lb m))) queue = true ->
  exists node before after,
    queue = before ++ node :: after /\
    SearchingRule.get_next (BestFirstSearch Region X Payload) queue
    = Some (node, before ++ after) /\
    (forall m, In m queue ->
       PyFloat.le (Node.lb node) (Node.lb m) = true) /\
    (forall m, In m before ->
       PyFloat.lt (Node.lb node) (Node.lb m) = true).
Proof.
  intros Hne Hnum.
  assert (Hnan : forall m, In m queue -> Node.lb m <> PyFloat.NaN).
  { intros m Hm. rewrite forallb_forall in Hnum. specialize (Hnum m Hm).
    destruct (Node.lb m); simpl in Hnum; congruence. }
  destruct (BestFirstSearch_get_next_scan Hne)
    as (node & before & after & Hq & Hget & Hb & Ha).
  exists node, before, after.
  assert (Hnode : In node queue)
    by (rewrite Hq; apply in_or_app; right; left; reflexivity).
  assert (Hbefore : forall m, In m before ->
            PyFloat.lt (Node.lb node) (Node.lb m) = true).
  { intros m Hm. apply PyFloatFacts.not_le_lt; auto.
    apply Hnan. rewrite Hq. apply in_or_app. left. exact Hm. }
  repeat split; try assumption.
  intros m Hm. pose proof Hm as Hm'. rewrite Hq in Hm.
  apply in_app_or in Hm. destruct Hm as [Hm | [<- | Hm]].
  - apply PyFloatFacts.lt_le. auto.
  - apply PyFloatFacts.le_refl. auto.
  - apply PyFloatFacts.not_lt_le; auto.
Qed.

(** On the queue that holds the root alone, the four deterministic
    rules return it and leave the queue empty. *)
Lemma get_next_singleton (node : Node) :
  let queue := append [] node in
  SearchingRule.get_next (BestFirstSearch Region X Payload) queue
  = Some (node, []) /\
  SearchingRule.get_next (BreadthFirstSearch Region X Payload) queue
  = Some (node, []) /\
  SearchingRule.get_next (DepthFirstSearch Region X Payload) queue
  = Some (node, []) /\
  SearchingRule.get_next (WorstFirstSearch Region X Payload) queue
  = Some (node, []).
Proof. repeat split. Qed.

(** The five rules of [search.py] meet the contract of a searching
    rule. *)
Lemma BestFirstSearch_contract :
  searching_rule_contract (BestFirstSearch Region X Payload).
Proof.
  split; [reflexivity |]. simpl. intros queue node rest H.
  destruct (py_min_key _ _); [| discriminate].
  exact (pop_split _ _ H).
Qed.

Lemma WorstFirstSearch_contract :
  searching_rule_contract (WorstFirstSearch Region X Payload).
Proof.
  split; [reflexivity |]. simpl. intros queue node rest H.
  destruct (py_max_key _ _); [| discriminate].
  exact (pop_split _ _ H).
Qed.

Lemma BreadthFirstSearch_contract :
  searching_rule_contract (BreadthFirstSearch Region X Payload).
Proof.
  split; [reflexivity |]. simpl. intros queue node rest H.
  exact (pop_split _ _ H).
Qed.

Lemma DepthFirstSearch_contract :
  searching_rule_contract (DepthFirstSearch Region X Payload).
Proof.
  split; [reflexivity |]. simpl. intros queue node rest H.
  exact (pop_split _ _ H).
Qed.

Lemma RandomSearch_contract (randint : Z -> Z -> Z) :
  searching_rule_contract (RandomSearch Region X Payload randint).
Proof.
  split; [reflexivity |]. simpl. intros queue node rest H.
  destruct (_ <? 0)%Z; [discriminate |].
  exact (pop_split _ _ H).
Qed.

End BestFirst.

Lemma BestFirstSearch_get_next_min_witness :
  (Stub.queue_5_2_8_2 <> [] /\
   forallb (fun m => negb (PyFloat.is_nan (Node.lb m))) Stub.queue_5_2_8_2
   = true) /\
  exists node before after,
    Stub.queue_5_2_8_2 = before ++ node :: after /\
    SearchingRule.get_next (BestFirstSearch nat Q Z) Stub.queue_5_2_8_2
    = Some (node, before ++ after) /\
    (forall m, In m Stub.queue_5_2_8_2 ->
       PyFloat.le (Node.lb node) (Node.lb m) = true) /\
    (forall m, In m before ->
       PyFloat.lt (Node.lb node) (Node.lb m) = true).
Proof.
  split.
  - split; [discriminate | reflexivity].
  - apply (@BestFirstSearch_get_next_min nat Q Z Stub.queue_5_2_8_2);
      [discriminate | reflexivity].
Defined.

(** Of the two nodes of bound 2, the one queued first is returned. *)
Example BestFirstSearch_get_next_5_2_8_2 :
  SearchingRule.get_next (BestFirstSearch nat Q Z) Stub.queue_5_2_8_2
  = Some (Stub.open_node 2 2,
          [Stub.open_node 1 5; Stub.open_node 3 8; Stub.open_node 4 2]).
Proof. vm_compute. reflexivity. Qed.

(** On a queue that holds a NaN bound first, the node returned is the
    one of bound NaN, which is not at most the queued bound 1: no
    comparison with NaN holds, so the scan keeps its first candidate. *)
Lemma BestFirstSearch_nan_counterexample :
  SearchingRule.get_next (BestFirstSearch nat Q Z) Stub.queue_nan_1
  = Some (Node.init 1%nat 1%Z None PyFloat.NaN, [Stub.open_node 2 1]) /\
  In (Stub.open_node 2 1) Stub.queue_nan_1 /\
  PyFloat.le PyFloat.NaN (Node.lb (Stub.open_node 2 1)) = false /\
  PyFloat.lt (Node.lb (Stub.open_node 2 1)) PyFloat.NaN = false.
Proof.
  split; [vm_compute; reflexivity |].
  split; [right; left; reflexivity |]. split; reflexivity.
Qed.

(** ** The stages of the loop body *)

Section Driver.
Variables Region X Payload : Type.
Variable self : BnB.t Region X Payload.
Variable problem : Problem.t X.
Variable clock : Z -> pyfloat.

Local Abbreviation Node := (Node.t Region X Payload).
Local Abbreviation state := (BnB.state Region X Payload).
Local Abbreviation Visit := (BnB.Visit Region X Payload).
Local Abbreviation get_next :=
  (SearchingRule.get_next (BnB.searching_rule self)).
Local Abbreviation lb_bound :=
  (LowerBoundingMethod.bound (BnB.lb_method self)).
Local Abbreviation ub_bound :=
  (UpperBoundingMethod.bound (BnB.ub_method self)).
Local Abbreviation branch :=
  (BranchingRule.branch (BnB.branching_rule self)).

Lemma rel_gap_returns (ub lb : pyfloat) :
  exists r, BnB._rel_gap ub lb = Some r.
Proof.
  destruct (BnB._rel_gap ub lb) as [r |] eqn:E; [exists r; reflexivity |].
  exfalso. exact (rel_gap_never_raises _ _ E).
Qed.

(** The branching operation leaves the state alone or appends the
    children of the node to the queue; the gap tests raise nothing. *)
Lemma branching_operation_inv (st : state) (node : Node) :
  exists st' ev,
    BnB.branching_operation self st node = Some (st', ev) /\
    ((st' = st /\ ev = []) \/
     (PyFloat.gt (BnB._abs_gap (BnB.best_ub st) (Node.lb node))
                 (BnB.abs_gap_tol self) = true /\
      st' = BnB.set_queue st (BnB.queue st ++ branch node) /\
      ev = [BnB.CallBranch node])).
Proof.
  unfold BnB.branching_operation.
  destruct (PyFloat.gt _ (BnB.abs_gap_tol self)) eqn:Habs.
  - destruct (rel_gap_returns (BnB.best_ub st) (Node.lb node)) as [r ->].
    destruct (PyFloat.gt r (BnB.rel_gap_tol self)); eauto 10.
  - eauto 10.
Qed.

Lemma pruning_test_pruned (st : state) (node1 : Node) :
  PyFloat.gt (Node.lb node1) (BnB.best_ub st) = true ->
  BnB.pruning_test self problem st node1
  = Some ({| BnB.node := Node.set_status node1 PRUNED;
             BnB.candidate := None;
             BnB.events := [BnB.SetNodeStatus _ _ _ PRUNED] |}, st).
Proof. intros H. unfold BnB.pruning_test. rewrite H. reflexivity. Qed.

Lemma pruning_test_processed (st : state) (node1 : Node) :
  PyFloat.gt (Node.lb node1) (BnB.best_ub st) = false ->
  let node2 := Node.set_status node1 PROCESSED in
  exists x ub ev1 node3 st1 ev2 st2 ev3,
    BnB.upper_bound_evaluation self problem node2 = ((x, ub), ev1) /\
    BnB.upper_bound_update st node2 x ub = (node3, st1, ev2) /\
    BnB.branching_operation self st1 node3 = Some (st2, ev3) /\
    BnB.pruning_test self problem st node1
    = Some ({| BnB.node := node3;
               BnB.candidate := Some (x, ub);
               BnB.events :=
                 BnB.SetNodeStatus _ _ _ PROCESSED :: ev1 ++ ev2 ++ ev3 |},
            st2).
Proof.
  intros H node2. unfold BnB.pruning_test. rewrite H. fold node2.
  destruct (BnB.upper_bound_evaluation self problem node2)
    as [[x ub] ev1] eqn:Hev.
  destruct (BnB.upper_bound_update st node2 x ub)
    as [[node3 st1] ev2] eqn:Hup.
  destruct (branching_operation_inv st1 node3) as (st2 & ev3 & Hbr & _).
  rewrite Hbr. eauto 12.
Qed.

Lemma lower_bound_update_frame (st : state) :
  BnB.queue (BnB.lower_bound_update st) = BnB.queue st /\
  BnB.best_ub (BnB.lower_bound_update st) = BnB.best_ub st /\
  BnB.best_x (BnB.lower_bound_update st) = BnB.best_x st /\
  BnB.node_count (BnB.lower_bound_update st) = BnB.node_count st /\
  BnB.status (BnB.lower_bound_update st) = BnB.status st /\
  BnB.trace (BnB.lower_bound_update st) = BnB.trace st.
Proof.
  unfold BnB.lower_bound_update. destruct (BnB.queue st) eqn:E; simpl;
    rewrite ?E; repeat split; reflexivity.
Qed.

(** The status update as a pass over the list of termination checks. *)
Lemma status_update_overwrites (st : state) (tm ag rg : pyfloat) :
  BnB.timer st = Some tm ->
  BnB.abs_gap st = Some ag ->
  BnB.rel_gap st = Some rg ->
  BnB.status_update self st
  = Some (BnB.set_status st
            (overwrite_in_order (BnB.status st)
               (termination_checks
                  (BnB.time_limit self) (BnB.node_limit self)
                  (BnB.queue_limit self) (BnB.abs_gap_tol self)
                  (BnB.rel_gap_tol self)
                  tm (BnB.node_count st)
                  (Z.of_nat (List.length (BnB.queue st))) ag rg))).
Proof.
  intros Htm Hag Hrg. unfold BnB.status_update.
  rewrite Htm, Hag, Hrg. reflexivity.
Qed.

(** The pruning test and its branches touch the incumbent and the queue
    only. *)
Lemma pruning_test_frame (st : state) (node1 : Node) (v : Visit)
      (st' : state) :
  BnB.pruning_test self problem st node1 = Some (v, st') ->
  BnB.node_count st' = BnB.node_count st /\
  BnB.status st' = BnB.status st /\
  BnB.trace st' = BnB.trace st.
Proof.
  intros H.
  destruct (PyFloat.gt (Node.lb node1) (BnB.best_ub st)) eqn:Hgt.
  - rewrite (pruning_test_pruned _ _ Hgt) in H. injection H as _ <-.
    repeat split.
  - destruct (pruning_test_processed _ _ Hgt)
      as (x & ub & ev1 & node3 & st1 & ev2 & st2 & ev3
          & _ & Hup & Hbr & Heq).
    rewrite Heq in H. injection H as _ <-.
    assert (H1 : BnB.node_count st1 = BnB.node_count st /\
                 BnB.status st1 = BnB.status st /\
                 BnB.trace st1 = BnB.trace st).
    { unfold BnB.upper_bound_update in Hup.
      destruct (PyFloat.lt ub (BnB.best_ub st));
        injection Hup as _ <- _; repeat split. }
    destruct (branching_operation_inv st1 node3)
      as (st2' & ev3' & Hbr' & Hcase).
    rewrite Hbr in Hbr'. injection Hbr' as <- <-.
    destruct Hcase as [[-> _] | (_ & -> & _)]; simpl; exact H1.
Qed.

(** One pass through the loop body, stage by stage. *)
Lemma iteration_inv (st : state) (v : Visit) (st' : state) :
  BnB.iteration self problem clock st = Some (v, st') ->
  exists node0 q v1 st2 rg,
    get_next (BnB.queue st) = Some (node0, q) /\
    BnB.pruning_test self problem (BnB.set_queue st q) (lb_bound node0)
    = Some (v1, st2) /\
    BnB._rel_gap (BnB.best_ub st2) (BnB.best_lb st') = Some rg /\
    v = {| BnB.node := BnB.node v1;
           BnB.candidate := BnB.candidate v1;
           BnB.events :=
             BnB.CallGetNext _ _ _ :: BnB.CallLbBound node0
             :: BnB.events v1 |} /\
    BnB.best_x st' = BnB.best_x st2 /\
    BnB.best_ub st' = BnB.best_ub st2 /\
    BnB.queue st' = BnB.queue st2 /\
    BnB.best_lb st' = BnB.best_lb (BnB.lower_bound_update st2) /\
    BnB.node_count st' = (BnB.node_count st + 1)%Z /\
    BnB.abs_gap st'
    = Some (BnB._abs_gap (BnB.best_ub st2) (BnB.best_lb st')) /\
    BnB.rel_gap st' = Some rg /\
    BnB.timer st' = Some (clock (BnB.node_count st + 1)%Z) /\
    BnB.status st'
    = overwrite_in_order (BnB.status st)
        (termination_checks
           (BnB.time_limit self) (BnB.node_limit self)
           (BnB.queue_limit self) (BnB.abs_gap_tol self)
           (BnB.rel_gap_tol self)
           (clock (BnB.node_count st + 1)%Z) (BnB.node_count st + 1)%Z
           (Z.of_nat (List.length (BnB.queue st2)))
           (BnB._abs_gap (BnB.best_ub st2) (BnB.best_lb st')) rg).
Proof.
  intros H. unfold BnB.iteration in H.
  destruct (get_next (BnB.queue st)) as [[node0 q] |] eqn:Hget;
    [| discriminate].
  destruct (BnB.pruning_test self problem (BnB.set_queue st q)
              (lb_bound node0)) as [[v1 st2] |] eqn:Hpt; [| discriminate].
  destruct (pruning_test_frame _ _ Hpt) as (Hnc & Hst & _).
  destruct (lower_bound_update_frame st2) as (Hq & Hub & Hx & Hnc' & Hst' & _).
  set (st3 := BnB.lower_bound_update st2) in *.
  unfold BnB.working_values_update in H.
  destruct (BnB._rel_gap (BnB.best_ub st3) (BnB.best_lb st3))
    as [rg |] eqn:Hrg; [| discriminate].
  set (st4 := BnB.set_working st3 _ _ _ _) in H.
  assert (Htr : exists st5, BnB.trace_update self st4 (BnB.node v1) = Some st5
            /\ BnB.set_trace st4 (BnB.trace st5) = st5).
  { unfold BnB.trace_update. destruct (BnB.keeptrace self); simpl.
    - eexists. split; reflexivity.
    - exists st4. split; reflexivity. }
  destruct Htr as (st5 & Htr & Hst5). rewrite Htr in H.
  rewrite (@status_update_overwrites st5
             (clock (BnB.node_count st3 + 1)%Z)
             (BnB._abs_gap (BnB.best_ub st3) (BnB.best_lb st3)) rg) in H
    by (rewrite <- Hst5; reflexivity).
  injection H as <- <-.
  exists node0, q, v1, st2, rg. rewrite <- Hst5. simpl.
  simpl in Hnc, Hst.
  rewrite Hub in *. rewrite Hq, Hnc', Hnc, Hst', Hst.
  repeat split; try reflexivity; assumption.
Qed.

(** A pass that prunes its node. *)
Lemma iteration_pruned (st : state) (v : Visit) (st' : state)
      (node0 : Node) (q : list Node) :
  BnB.iteration self problem clock st = Some (v, st') ->
  get_next (BnB.queue st) = Some (node0, q) ->
  PyFloat.gt (Node.lb (lb_bound node0)) (BnB.best_ub st) = true ->
  BnB.node v = Node.set_status (lb_bound node0) PRUNED /\
  BnB.candidate v = None /\
  BnB.events v = [BnB.CallGetNext _ _ _; BnB.CallLbBound node0;
                  BnB.SetNodeStatus _ _ _ PRUNED] /\
  BnB.best_x st' = BnB.best_x st /\
  BnB.best_ub st' = BnB.best_ub st /\
  BnB.queue st' = q.
Proof.
  intros H Hget Hgt.
  destruct (iteration_inv _ H)
    as (node0' & q' & v1 & st2 & rg & Hget' & Hpt & _ & -> & Hx & Hub & Hq
        & _).
  rewrite Hget in Hget'. injection Hget' as <- <-.
  rewrite pruning_test_pruned in Hpt by exact Hgt.
  injection Hpt as <- <-. rewrite Hx, Hub, Hq. simpl. repeat split.
Qed.

(** A pass that does not prune its node: the three stages that follow
    the pruning test, with what each of them returns. *)
Lemma iteration_processed (st : state) (v : Visit) (st' : state)
      (node0 : Node) (q : list Node) :
  BnB.iteration self problem clock st = Some (v, st') ->
  get_next (BnB.queue st) = Some (node0, q) ->
  PyFloat.gt (Node.lb (lb_bound node0)) (BnB.best_ub st) = false ->
  let node2 := Node.set_status (lb_bound node0) PROCESSED in
  exists x ub ev1 node3 st1 ev2 st2 ev3,
    BnB.upper_bound_evaluation self problem node2 = ((x, ub), ev1) /\
    BnB.upper_bound_update (BnB.set_queue st q) node2 x ub
    = (node3, st1, ev2) /\
    BnB.branching_operation self st1 node3 = Some (st2, ev3) /\
    BnB.node v = node3 /\
    BnB.candidate v = Some (x, ub) /\
    BnB.events v
    = BnB.CallGetNext _ _ _ :: BnB.CallLbBound node0
      :: BnB.SetNodeStatus _ _ _ PROCESSED :: ev1 ++ ev2 ++ ev3 /\
    BnB.best_x st' = BnB.best_x st2 /\
    BnB.best_ub st' = BnB.best_ub st2 /\
    BnB.queue st' = BnB.queue st2.
Proof.
  intros H Hget Hgt node2.
  destruct (iteration_inv _ H)
    as (node0' & q' & v1 & st2 & rg & Hget' & Hpt & _ & -> & Hx & Hub & Hq
        & _).
  rewrite Hget in Hget'. injection Hget' as <- <-.
  destruct (@pruning_test_processed (BnB.set_queue st q) (lb_bound node0) Hgt)
    as (x & ub & ev1 & node3 & st1 & ev2 & st2' & ev3
        & Hev & Hup & Hbr & Heq).
  rewrite Heq in Hpt. injection Hpt as <- <-.
  exists x, ub, ev1, node3, st1, ev2, st2', ev3. simpl.
  repeat split; assumption.
Qed.

(** The two outcomes of the upper bound update. *)
Lemma upper_bound_update_cases (st : state) (node2 : Node)
      (x : option X) (ub : pyfloat) :
  (PyFloat.lt ub (BnB.best_ub st) = true /\
   BnB.upper_bound_update st node2 x ub
   = (Node.set_status node2 FEASIBLE,
      BnB.set_queue (BnB.set_best_ub (BnB.set_best_x st x) ub)
        (filter (fun qnode => PyFloat.le (Node.lb qnode) ub) (BnB.queue st)),
      [BnB.SetNodeStatus _ _ _ FEASIBLE])) \/
  (PyFloat.lt ub (BnB.best_ub st) = false /\
   BnB.upper_bound_update st node2 x ub = (node2, st, [])).
Proof.
  unfold BnB.upper_bound_update.
  destruct (PyFloat.lt ub (BnB.best_ub st)); [left | right];
    split; reflexivity.
Qed.

(** The two outcomes of the upper bound evaluation. *)
Lemma upper_bound_evaluation_cases (node2 : Node) :
  (Problem.is_feasible problem (Node.x node2) (BnB.feas_tol self) = true /\
   BnB.upper_bound_evaluation self problem node2
   = ((Node.x node2, Node.lb node2), [BnB.CallIsFeasible _ _ (Node.x node2)]))
  \/
  (Problem.is_feasible problem (Node.x node2) (BnB.feas_tol self) = false /\
   BnB.upper_bound_evaluation self problem node2
   = ((Some (ub_bound node2), Problem.value problem (ub_bound node2)),
      [BnB.CallIsFeasible _ _ (Node.x node2); BnB.CallUbBound node2;
       BnB.CallValue _ _ (ub_bound node2)])).
Proof.
  unfold BnB.upper_bound_evaluation.
  destruct (Problem.is_feasible problem (Node.x node2) (BnB.feas_tol self));
    [left | right]; split; reflexivity.
Qed.

(** ** Termination precedence *)

(** Overwriting in order leaves the status of the last check that
    holds. *)
Lemma overwrite_in_order_last_holding (s0 : Status)
      (checks : list (bool * Status)) :
  overwrite_in_order s0 checks = last_holding s0 checks.
Proof.
  unfold overwrite_in_order, last_holding.
  induction checks as [| c checks IH] using rev_ind; [reflexivity |].
  rewrite fold_left_app, rev_app_distr. simpl.
  destruct (fst c); [reflexivity | exact IH].
Qed.

(** C1.  After every pass through the loop body the status is the one
    obtained by running the six termination checks in the order time
    limit, node limit, queue limit, absolute gap, relative gap, queue
    empty, each check that holds overwriting the status; that is the
    status of the last check that holds.  In particular an empty queue
    gives OPTIMAL, also when the time limit is reached in the same
    pass. *)
Theorem status_update_precedence (st : state) (v : Visit) (st' : state) :
  BnB.iteration self problem clock st = Some (v, st') ->
  exists tm ag rg,
    BnB.timer st' = Some tm /\
    BnB.abs_gap st' = Some ag /\
    BnB.rel_gap st' = Some rg /\
    let checks :=
      termination_checks
        (BnB.time_limit self) (BnB.node_limit self) (BnB.queue_limit self)
        (BnB.abs_gap_tol self) (BnB.rel_gap_tol self)
        tm (BnB.node_count st') (Z.of_nat (List.length (BnB.queue st')))
        ag rg in
    BnB.status st' = overwrite_in_order (BnB.status st) checks /\
    BnB.status st' = last_holding (BnB.status st) checks /\
    (BnB.queue st' = [] ->
     BnB.status st' = OPTIMAL /\
     (PyFloat.ge tm (BnB.time_limit self) = true ->
      BnB.status st' <> TIME_LIMIT)).
Proof.
  intros H.
  destruct (iteration_inv _ H)
    as (node0 & q & v1 & st2 & rg & _ & _ & _ & _ & _ & _ & Hq & _
        & Hnc & Hag & Hrg & Htm & Hst).
  exists (clock (BnB.node_count st + 1)%Z),
    (BnB._abs_gap (BnB.best_ub st2) (BnB.best_lb st')), rg.
  rewrite Hq, Hnc.
  split; [exact Htm |]. split; [exact Hag |]. split; [exact Hrg |].
  split; [exact Hst |].
  split; [rewrite <- overwrite_in_order_last_holding; exact Hst |].
  intros Hempty. rewrite Hst, Hempty.
  split; [reflexivity | intros _; discriminate].
Qed.

(** ** Pruning *)

(** C2.  In every pass, when the bound of the node just bounded is
    strictly above [best_ub] the node is marked PRUNED and that is all:
    the events of the pass are the selection, the lower bounding and that
    one assignment (so [branch] is not called), the incumbent is left as
    it was and the queue is what [get_next] left.  Otherwise the node is
    marked PROCESSED straight after the lower bounding, and does not end
    PRUNED. *)
Theorem pruned_or_processed (st : state) (v : Visit) (st' : state) :
  BnB.iteration self problem clock st = Some (v, st') ->
  exists node0 q,
    get_next (BnB.queue st) = Some (node0, q) /\
    (PyFloat.gt (Node.lb (lb_bound node0)) (BnB.best_ub st) = true ->
     BnB.node v = Node.set_status (lb_bound node0) PRUNED /\
     Node.status (BnB.node v) = PRUNED /\
     BnB.events v = [BnB.CallGetNext _ _ _; BnB.CallLbBound node0;
                     BnB.SetNodeStatus _ _ _ PRUNED] /\
     (forall n, ~ In (BnB.CallBranch n) (BnB.events v)) /\
     BnB.candidate v = None /\
     BnB.best_x st' = BnB.best_x st /\
     BnB.best_ub st' = BnB.best_ub st /\
     BnB.queue st' = q) /\
    (PyFloat.gt (Node.lb (lb_bound node0)) (BnB.best_ub st) = false ->
     (exists rest,
         BnB.events v
         = BnB.CallGetNext _ _ _ :: BnB.CallLbBound node0
           :: BnB.SetNodeStatus _ _ _ PROCESSED :: rest) /\
     Node.status (BnB.node v) <> PRUNED).
Proof.
  intros H.
  destruct (iteration_inv _ H) as (node0 & q & _ & _ & _ & Hget & _).
  exists node0, q. split; [exact Hget |]. split.
  - intros Hgt.
    destruct (iteration_pruned _ H Hget Hgt)
      as (Hnode & Hcand & Hev & Hx & Hub & Hq).
    rewrite Hnode, Hev. repeat split; try assumption.
    intros n [E | [E | [E | []]]]; discriminate E.
  - intros Hgt.
    destruct (iteration_processed _ H Hget Hgt)
      as (x & ub & ev1 & node3 & st1 & ev2 & st2 & ev3
          & _ & Hup & _ & Hnode & _ & Hev & _).
    split; [eexists; exact Hev |].
    rewrite Hnode.
    destruct (upper_bound_update_cases (BnB.set_queue st q)
                (Node.set_status (lb_bound node0) PROCESSED) x ub)
      as [[_ E] | [_ E]]; rewrite E in Hup; injection Hup as <- _ _;
      discriminate.
Qed.

(** ** Upper bound candidate *)

(** C6.  In every pass that does not prune its node: when the problem
    reports the point of the node feasible within [feas_tol], the
    candidate is that point with the bound of the node as its value, and
    neither [UpperBoundingMethod.bound] nor [Problem.value] is called;
    otherwise [UpperBoundingMethod.bound] is called on the node and the
    candidate is the returned point with the objective value of that
    point. *)
Theorem upper_bound_candidate (st : state) (v : Visit) (st' : state) :
  BnB.iteration self problem clock st = Some (v, st') ->
  exists node0 q,
    get_next (BnB.queue st) = Some (node0, q) /\
    let node2 := Node.set_status (lb_bound node0) PROCESSED in
    (PyFloat.gt (Node.lb (lb_bound node0)) (BnB.best_ub st) = false ->
     (Problem.is_feasible problem (Node.x node2) (BnB.feas_tol self) = true ->
      BnB.candidate v = Some (Node.x node2, Node.lb node2) /\
      (forall n, ~ In (BnB.CallUbBound n) (BnB.events v)) /\
      (forall y, ~ In (BnB.CallValue _ _ y) (BnB.events v))) /\
     (Problem.is_feasible problem (Node.x node2) (BnB.feas_tol self) = false ->
      BnB.candidate v
      = Some (Some (ub_bound node2), Problem.value problem (ub_bound node2)) /\
      In (BnB.CallUbBound node2) (BnB.events v) /\
      In (BnB.CallValue _ _ (ub_bound node2)) (BnB.events v))).
Proof.
  intros H.
  destruct (iteration_inv _ H) as (node0 & q & _ & _ & _ & Hget & _).
  exists node0, q. split; [exact Hget |]. intros node2 Hgt.
  destruct (iteration_processed _ H Hget Hgt)
    as (x & ub & ev1 & node3 & st1 & ev2 & st2 & ev3
        & Hev & Hup & Hbr & _ & Hcand & Hevs & _).
  fold node2 in Hev, Hup.
  assert (Hev2 : ev2 = [] \/ ev2 = [BnB.SetNodeStatus _ _ _ FEASIBLE]).
  { destruct (upper_bound_update_cases (BnB.set_queue st q) node2 x ub)
      as [[_ E] | [_ E]]; rewrite E in Hup; injection Hup as _ _ <-; auto. }
  assert (Hev3 : ev3 = [] \/ ev3 = [BnB.CallBranch node3]).
  { destruct (branching_operation_inv st1 node3) as (s & e & E & Hc).
    rewrite Hbr in E. injection E as <- <-.
    destruct Hc as [[_ ->] | (_ & _ & ->)]; auto. }
  destruct (upper_bound_evaluation_cases node2) as [[Hf E] | [Hf E]];
    rewrite E in Hev; injection Hev as <- <- <-;
    (split; intros Hf'; [| ]); try congruence.
  - split; [exact Hcand |]. rewrite Hevs.
    split; intros n Hin; simpl in Hin;
      destruct Hev2 as [-> | ->], Hev3 as [-> | ->]; simpl in Hin;
      repeat (destruct Hin as [Hin | Hin]; [discriminate Hin |]);
      exact Hin.
  - split; [exact Hcand |]. rewrite Hevs. simpl. auto 10.
Qed.

(** ** Incumbent update and queue filtering *)

(** C3.  In every pass whose candidate value is strictly below
    [best_ub], the node ends FEASIBLE, the candidate becomes the
    incumbent, and the queue left by [get_next] is filtered on the spot
    by [lb <= best_ub] with the new [best_ub]: a queued node with a bound
    strictly above it is dropped, a queued node with a bound at most it is
    kept.  The children of the node, if it is branched on, come after the
    filtered queue. *)
Theorem incumbent_update_filters (st : state) (v : Visit) (st' : state)
        (x : option X) (ub : pyfloat) :
  BnB.iteration self problem clock st = Some (v, st') ->
  BnB.candidate v = Some (x, ub) ->
  PyFloat.lt ub (BnB.best_ub st) = true ->
  Node.status (BnB.node v) = FEASIBLE /\
  BnB.best_x st' = x /\
  BnB.best_ub st' = ub /\
  exists node0 q children,
    get_next (BnB.queue st) = Some (node0, q) /\
    let kept := filter (fun qnode => PyFloat.le (Node.lb qnode) ub) q in
    BnB.queue st' = kept ++ children /\
    (children = [] \/ children = branch (BnB.node v)) /\
    (forall m, In m q ->
       PyFloat.gt (Node.lb m) ub = true -> ~ In m kept) /\
    (forall m, In m q ->
       PyFloat.le (Node.lb m) ub = true -> In m kept).
Proof.
  intros H Hcand Hlt.
  destruct (iteration_inv _ H) as (node0 & q & _ & _ & _ & Hget & _).
  destruct (PyFloat.gt (Node.lb (lb_bound node0)) (BnB.best_ub st)) eqn:Hgt.
  { destruct (iteration_pruned _ H Hget Hgt) as (_ & Hnone & _).
    congruence. }
  destruct (iteration_processed _ H Hget Hgt)
    as (x' & ub' & ev1 & node3 & st1 & ev2 & st2 & ev3
        & _ & Hup & Hbr & Hnode & Hcand' & _ & Hx & Hub & Hq).
  rewrite Hcand in Hcand'. injection Hcand' as <- <-.
  destruct (branching_operation_inv st1 node3) as (s & e & Hbr' & Hcase).
  rewrite Hbr in Hbr'. injection Hbr' as <- <-.
  destruct (upper_bound_update_cases (BnB.set_queue st q)
              (Node.set_status (lb_bound node0) PROCESSED) x ub)
    as [[_ E] | [E _]]; [| simpl in E; congruence].
  rewrite E in Hup. injection Hup as <- <- _.
  rewrite Hnode.
  split; [reflexivity |].
  assert (Hfields :
            BnB.best_x st2 = x /\ BnB.best_ub st2 = ub /\
            exists children,
              BnB.queue st2
              = filter (fun qnode => PyFloat.le (Node.lb qnode) ub) q
                ++ children /\
              (children = [] \/
               children
               = branch (Node.set_status
                           (Node.set_status (lb_bound node0) PROCESSED)
                           FEASIBLE))).
  { destruct Hcase as [[-> _] | (_ & -> & _)]; simpl.
    - repeat split. exists []. rewrite app_nil_r. auto.
    - repeat split. eexists. split; [reflexivity | auto]. }
  destruct Hfields as (Hx2 & Hub2 & children & Hq2 & Hch).
  rewrite Hx, Hub, Hq, Hx2, Hub2.
  split; [reflexivity |]. split; [reflexivity |].
  exists node0, q, children. split; [exact Hget |]. simpl.
  split; [exact Hq2 |]. split; [exact Hch |]. split.
  - intros m _ Hm Hin. apply filter_In in Hin. destruct Hin as [_ Hle].
    rewrite (PyFloatFacts.gt_le_false _ _ Hm) in Hle. discriminate.
  - intros m Hin Hle. apply filter_In. split; assumption.
Qed.

(** ** The global lower bound *)





(** ** Node status *)

Lemma status_writes_app (a b : list (BnB.Event Region X Payload)) :
  status_writes (a ++ b) = status_writes a ++ status_writes b.
Proof.
  induction a as [| ev a IH]; [reflexivity |].
  destruct ev; simpl; rewrite IH; reflexivity.
Qed.


(** The assignments to the status of a node that is not pruned, and the
    queue its pass leaves. *)
Lemma processed_visit_writes (st : state) (v : Visit) (st' : state)
      (node0 : Node) (q : list Node) :
  BnB.iteration self problem clock st = Some (v, st') ->
  get_next (BnB.queue st) = Some (node0, q) ->
  PyFloat.gt (Node.lb (lb_bound node0)) (BnB.best_ub st) = false ->
  exists x ub,
    BnB.candidate v = Some (x, ub) /\
    ((PyFloat.lt ub (BnB.best_ub st) = false /\
      status_writes (BnB.events v) = [PROCESSED] /\
      Node.status (BnB.node v) = PROCESSED) \/
     (PyFloat.lt ub (BnB.best_ub st) = true /\
      status_writes (BnB.events v) = [PROCESSED; FEASIBLE] /\
      Node.status (BnB.node v) = FEASIBLE)) /\
    forall m, In m (BnB.queue st') ->
      In m q \/ In m (branch (BnB.node v)).
Proof.
  intros H Hget Hgt.
  destruct (iteration_processed _ H Hget Hgt)
    as (x & ub & ev1 & node3 & st1 & ev2 & st2 & ev3
        & Hev & Hup & Hbr & Hnode & Hcand & Hevs & _ & _ & Hq).
  exists x, ub. split; [exact Hcand |].
  destruct (branching_operation_inv st1 node3) as (s & e & E & Hcase).
  rewrite Hbr in E. injection E as <- <-.
  assert (Hw1 : status_writes ev1 = []).
  { destruct (upper_bound_evaluation_cases
                (Node.set_status (lb_bound node0) PROCESSED))
      as [[_ E] | [_ E]]; rewrite E in Hev; injection Hev as _ _ <-;
      reflexivity. }
  assert (Hw3 : status_writes ev3 = []
                /\ forall m, In m (BnB.queue st2) ->
                     In m (BnB.queue st1) \/ In m (branch node3)).
  { destruct Hcase as [[-> ->] | (_ & -> & ->)]; simpl.
    - split; auto.
    - split; [reflexivity |]. intros m Hm. apply in_app_or. exact Hm. }
  destruct Hw3 as [Hw3 Hqueue].
  rewrite Hevs, Hnode, Hq. simpl status_writes.
  rewrite !status_writes_app, Hw1, Hw3. simpl app at 1.
  destruct (upper_bound_update_cases (BnB.set_queue st q)
              (Node.set_status (lb_bound node0) PROCESSED) x ub)
    as [[Hlt E] | [Hlt E]]; rewrite E in Hup; injection Hup as <- <- <-;
    simpl in Hlt.
  - split; [right; repeat split; assumption |].
    intros m Hm. destruct (Hqueue m Hm) as [Hin | Hin]; [| auto].
    simpl in Hin. apply filter_In in Hin. left. exact (proj1 Hin).
  - split; [left; repeat split; assumption |]. exact Hqueue.
Qed.

(** C9, as the code has it.  A node is OPEN when created.  A pass
    through the loop body assigns the status of the node it visits once,
    PRUNED or PROCESSED, and a second time, FEASIBLE over PROCESSED,
    exactly when the candidate value is strictly below [best_ub]; the node
    ends in one of PRUNED, PROCESSED and FEASIBLE.  The pass does not put
    the node back: the queue it leaves holds nodes that were queued
    already and the children returned by [branch]. *)
Theorem node_status_discipline (st : state) (v : Visit) (st' : state) :
  BnB.iteration self problem clock st = Some (v, st') ->
  (forall (region : Region) (level : Z) (x : option X) (lb : pyfloat),
      Node.status (Node.init (Payload := Payload) region level x lb)
      = OPEN) /\
  ((status_writes (BnB.events v) = [PRUNED] /\
    Node.status (BnB.node v) = PRUNED /\
    BnB.candidate v = None) \/
   (status_writes (BnB.events v) = [PROCESSED] /\
    Node.status (BnB.node v) = PROCESSED /\
    exists x ub, BnB.candidate v = Some (x, ub) /\
                 PyFloat.lt ub (BnB.best_ub st) = false) \/
   (status_writes (BnB.events v) = [PROCESSED; FEASIBLE] /\
    Node.status (BnB.node v) = FEASIBLE /\
    exists x ub, BnB.candidate v = Some (x, ub) /\
                 PyFloat.lt ub (BnB.best_ub st) = true)) /\
  exists node0 q,
    get_next (BnB.queue st) = Some (node0, q) /\
    forall m, In m (BnB.queue st') ->
      In m q \/ In m (branch (BnB.node v)).
Proof.
  intros H. split; [reflexivity |].
  destruct (iteration_inv _ H) as (node0 & q & _ & _ & _ & Hget & _).
  destruct (PyFloat.gt (Node.lb (lb_bound node0)) (BnB.best_ub st)) eqn:Hgt.
  - destruct (iteration_pruned _ H Hget Hgt)
      as (Hnode & Hcand & Hev & _ & _ & Hq).
    split.
    + left. rewrite Hev, Hnode. repeat split. exact Hcand.
    + exists node0, q. split; [exact Hget |]. rewrite Hq. auto.
  - destruct (processed_visit_writes _ H Hget Hgt)
      as (x & ub & Hcand & Hcases & Hqueue).
    split.
    + destruct Hcases as [(Hlt & Hw & Hs) | (Hlt & Hw & Hs)].
      * right. left. split; [exact Hw |]. split; [exact Hs |].
        exists x, ub. split; assumption.
      * right. right. split; [exact Hw |]. split; [exact Hs |].
        exists x, ub. split; assumption.
    + exists node0, q. split; [exact Hget |]. exact Hqueue.
Qed.

(** ** The first pass and the iteration count *)

Lemma Status_eqb_eq (a b : Status) : Status_eqb a b = true <-> a = b.
Proof. destruct a, b; simpl; split; congruence. Qed.

(** Every pass adds one to the node count, hence a loop that returns
    from a running state has counted at least one more node and has read
    the clock. *)
Lemma main_loop_count (fuel : nat) :
  forall st st',
    BnB.main_loop self problem clock fuel st = BnB.Returned st' ->
    (BnB.node_count st <= BnB.node_count st')%Z /\
    (BnB.status st = RUNNING ->
     (BnB.node_count st < BnB.node_count st')%Z /\
     BnB.timer st' <> None).
Proof.
  induction fuel as [| fuel IH]; intros st st' H; simpl in H.
  - destruct (Status_eqb (BnB.status st) RUNNING) eqn:E; [discriminate |].
    injection H as <-. split; [lia |].
    intros Hrun. apply Status_eqb_eq in Hrun. congruence.
  - destruct (Status_eqb (BnB.status st) RUNNING) eqn:E.
    + destruct (BnB.iteration self problem clock st) as [[v st1] |] eqn:Hit;
        [| discriminate].
      destruct (iteration_inv _ Hit)
        as (_ & _ & _ & _ & _ & _ & _ & _ & _ & _ & _ & _ & _ & Hnc & _
            & _ & Htm & _).
      destruct (IH _ _ H) as [Hle Hrun].
      split; [lia |]. intros _. split; [lia |].
      destruct (Status_eqb (BnB.status st1) RUNNING) eqn:E1.
      * apply Status_eqb_eq in E1. exact (proj2 (Hrun E1)).
      * destruct fuel; simpl in H; rewrite E1 in H; injection H as <-;
          congruence.
    + injection H as <-. split; [lia |].
      intros Hrun. apply Status_eqb_eq in Hrun. congruence.
Qed.

(** A check that holds leaves a status other than RUNNING. *)
Lemma overwrite_in_order_stops (s0 : Status) (tl : pyfloat) (nl ql : Z)
      (atol rtol tm : pyfloat) (nc qs : Z) (ag rg : pyfloat) :
  PyFloat.ge tm tl = true \/ (nc >=? nl)%Z = true ->
  overwrite_in_order s0 (termination_checks tl nl ql atol rtol tm nc qs ag rg)
  <> RUNNING.
Proof.
  unfold overwrite_in_order, termination_checks. simpl.
  intros [-> | ->];
    destruct (PyFloat.ge tm tl), (nc >=? nl)%Z, (qs >=? ql)%Z,
      (PyFloat.le ag atol), (PyFloat.le rg rtol), (qs =? 0)%Z;
    discriminate.
Qed.





(** ** The order of the two global bounds *)

Section BoundsOrdered.
Hypothesis Hsearch : searching_rule_contract (BnB.searching_rule self).
Hypothesis Hchild : child_bound_contract (BnB.branching_rule self).
Hypothesis Htol : PyFloat.le (PyFloat.Fin 0) (BnB.abs_gap_tol self) = true.

Local Abbreviation below_incumbent :=
  (@queue_below_incumbent Region X Payload).





End BoundsOrdered.

(** ** Further properties of the driver *)

(** What a pass does to the incumbent: nothing, or a strict decrease of
    [best_ub] to the candidate value, with the candidate point. *)
Lemma iteration_incumbent (st : state) (v : Visit) (st' : state) :
  BnB.iteration self problem clock st = Some (v, st') ->
  (BnB.best_ub st' = BnB.best_ub st /\ BnB.best_x st' = BnB.best_x st /\
   Node.status (BnB.node v) <> FEASIBLE) \/
  (PyFloat.lt (BnB.best_ub st') (BnB.best_ub st) = true /\
   BnB.candidate v = Some (BnB.best_x st', BnB.best_ub st') /\
   Node.status (BnB.node v) = FEASIBLE).
Proof.
  intros H.
  destruct (iteration_inv _ H) as (node0 & q & _ & _ & _ & Hget & _).
  destruct (PyFloat.gt (Node.lb (lb_bound node0)) (BnB.best_ub st)) eqn:Hgt.
  - destruct (iteration_pruned _ H Hget Hgt) as (Hn & _ & _ & Hx & Hub & _).
    left. rewrite Hn. repeat split; try assumption. discriminate.
  - destruct (iteration_processed _ H Hget Hgt)
      as (x & ub & ev1 & node3 & st1 & ev2 & st2 & ev3
          & _ & Hup & Hbr & Hnode & Hcand & _ & Hx & Hub & _).
    destruct (branching_operation_inv st1 node3) as (s & e & E & Hcase).
    rewrite Hbr in E. injection E as <- <-.
    assert (Hframe : BnB.best_ub st2 = BnB.best_ub st1 /\
                     BnB.best_x st2 = BnB.best_x st1)
      by (destruct Hcase as [[-> _] | (_ & -> & _)]; split; reflexivity).
    destruct Hframe as [Hub2 Hx2]. rewrite Hx, Hub, Hub2, Hx2, Hnode, Hcand.
    destruct (upper_bound_update_cases (BnB.set_queue st q)
                (Node.set_status (lb_bound node0) PROCESSED) x ub)
      as [[Hlt E] | [Hlt E]]; rewrite E in Hup; injection Hup as <- <- _;
      simpl in Hlt |- *.
    + right. repeat split. exact Hlt.
    + left. repeat split. discriminate.
Qed.

(** The trace after a pass: one more record when tracing is on, holding
    the count, the clock reading, the queue size and the two bounds that
    the pass leaves, and the trace of its node. *)
Lemma iteration_trace (st : state) (v : Visit) (st' : state) :
  BnB.iteration self problem clock st = Some (v, st') ->
  BnB.trace st'
  = if BnB.keeptrace self then
      BnB.trace st ++
      [ {| TraceRecord.node_count := BnB.node_count st';
           TraceRecord.timer := clock (BnB.node_count st');
           TraceRecord.queue_size :=
             Z.of_nat (List.length (BnB.queue st'));
           TraceRecord.best_ub := BnB.best_ub st';
           TraceRecord.best_lb := BnB.best_lb st';
           TraceRecord.node := Node.trace (BnB.node v) |} ]
    else BnB.trace st.
Proof.
  intros H. pose proof H as H0. unfold BnB.iteration in H.
  destruct (get_next (BnB.queue st)) as [[node0 q] |] eqn:Hget;
    [| discriminate].
  destruct (BnB.pruning_test self problem (BnB.set_queue st q)
              (lb_bound node0)) as [[v1 st2] |] eqn:Hpt; [| discriminate].
  destruct (pruning_test_frame _ _ Hpt) as (Hnc & _ & Htr).
  destruct (lower_bound_update_frame st2)
    as (Hq & Hub & _ & Hnc' & _ & Htr').
  set (st3 := BnB.lower_bound_update st2) in *.
  unfold BnB.working_values_update in H.
  destruct (BnB._rel_gap (BnB.best_ub st3) (BnB.best_lb st3))
    as [rg |] eqn:Hrg; [| discriminate].
  unfold BnB.trace_update, BnB.status_update in H.
  simpl in Hnc, Htr.
  destruct (BnB.keeptrace self); simpl in H; injection H as <- <-; simpl;
    rewrite Htr', Htr, ?Hnc', ?Hnc; reflexivity.
Qed.

(** The loop returns a state that is a head of the loop. *)
Lemma main_loop_loop_head (fuel : nat) :
  forall st st',
    loop_head self problem clock st ->
    BnB.main_loop self problem clock fuel st = BnB.Returned st' ->
    loop_head self problem clock st' /\ BnB.status st' <> RUNNING.
Proof.
  induction fuel as [| fuel IH]; intros st st' Hhead H; simpl in H.
  - destruct (Status_eqb (BnB.status st) RUNNING) eqn:E; [discriminate |].
    injection H as <-. split; [exact Hhead |].
    intros Hrun. apply Status_eqb_eq in Hrun. congruence.
  - destruct (Status_eqb (BnB.status st) RUNNING) eqn:E.
    + destruct (BnB.iteration self problem clock st) as [[v st1] |] eqn:Hit;
        [| discriminate].
      apply Status_eqb_eq in E.
      exact (IH _ _ (loop_head_next Hhead E Hit) H).
    + injection H as <-. split; [exact Hhead |].
      intros Hrun. apply Status_eqb_eq in Hrun. congruence.
Qed.

(** A call that returns packages a state at the head of the loop, reached
    by at least one pass and no longer running. *)
Lemma solve_returned (fuel : nat)
      (r : Result.t X (TraceRecord.t Payload)) :
  BnB.solve self problem clock fuel = BnB.Returned r ->
  exists st tm,
    loop_head self problem clock st /\
    BnB.status st <> RUNNING /\
    BnB.timer st = Some tm /\
    r = {| Result.status := BnB.status st;
           Result.solution := BnB.best_x st;
           Result.objective_value := BnB.best_ub st;
           Result.solve_time := tm;
           Result.iterations := BnB.node_count st;
           Result.trace := BnB.trace st |}.
Proof.
  unfold BnB.solve. intros H.
  destruct (BnB.main_loop self problem clock fuel
              (BnB.initial_state self problem)) as [st | |] eqn:Hloop;
    try discriminate.
  destruct (main_loop_loop_head _ (loop_head_init self problem clock) Hloop)
    as [Hhead Hstop].
  destruct (BnB.timer st) as [tm |] eqn:Htm; [| discriminate].
  injection H as <-. exists st, tm. repeat split; assumption.
Qed.

(** The incumbent value is a number or an infinity, never NaN, and no
    solution is recorded while it is [+inf]. *)
Lemma loop_head_incumbent (st : state) :
  loop_head self problem clock st ->
  BnB.best_ub st <> PyFloat.NaN /\
  (BnB.best_ub st = PyFloat.PosInf -> BnB.best_x st = None).
Proof.
  induction 1 as [| st v st' _ [IHnan IHinf] _ Hit].
  - split; [discriminate | reflexivity].
  - destruct (iteration_incumbent _ Hit)
      as [(Hub & Hx & _) | (Hlt & _ & _)].
    + rewrite Hub, Hx. split; assumption.
    + split.
      * exact (@PyFloatFacts.lt_not_nan_l _ _ Hlt).
      * intros E. exfalso. exact (@PyFloatFacts.lt_not_PosInf_l _ _ Hlt E).
Qed.

(** X8.  [best_ub] never increases: after any number of passes started
    with an incumbent value that is not NaN (as at every head of the
    loop), it is at most what it was. *)
Theorem best_ub_never_increases (k : nat) :
  forall (st : state) (o : option Visit) (st' : state),
    BnB.best_ub st <> PyFloat.NaN ->
    iterate self problem clock k st = Some (o, st') ->
    PyFloat.le (BnB.best_ub st') (BnB.best_ub st) = true.
Proof.
  induction k as [| k IH]; intros st o st' Hnan H; simpl in H.
  - injection H as _ <-. apply PyFloatFacts.le_refl. exact Hnan.
  - destruct (iterate self problem clock k st) as [[o1 st1] |] eqn:Hk;
      [| discriminate].
    destruct (BnB.iteration self problem clock st1) as [[v st2] |] eqn:Hit;
      [| discriminate].
    injection H as _ <-. specialize (IH _ _ _ Hnan Hk).
    destruct (iteration_incumbent _ Hit)
      as [(Hub & _ & _) | (Hlt & _ & _)].
    + rewrite Hub. exact IH.
    + exact (PyFloatFacts.le_trans _ _ _ (PyFloatFacts.lt_le _ _ Hlt) IH).
Qed.

(** X9.  The objective value of a returned result is never NaN, and a
    result whose objective value is [+inf] carries no solution: the
    incumbent changes only by a candidate whose value is strictly below
    the current one, together with the point of that candidate. *)
Theorem result_incumbent (fuel : nat)
        (r : Result.t X (TraceRecord.t Payload)) :
  BnB.solve self problem clock fuel = BnB.Returned r ->
  Result.objective_value r <> PyFloat.NaN /\
  (Result.objective_value r = PyFloat.PosInf -> Result.solution r = None) /\
  (forall st v st',
      BnB.iteration self problem clock st = Some (v, st') ->
      BnB.best_x st' <> BnB.best_x st \/ BnB.best_ub st' <> BnB.best_ub st ->
      PyFloat.lt (BnB.best_ub st') (BnB.best_ub st) = true /\
      BnB.candidate v = Some (BnB.best_x st', BnB.best_ub st')).
Proof.
  intros H.
  destruct (solve_returned _ H) as (st & tm & Hhead & _ & _ & ->). simpl.
  destruct (loop_head_incumbent Hhead) as [Hnan Hinf].
  split; [exact Hnan |]. split; [exact Hinf |].
  intros st0 v st' Hit Hchange.
  destruct (iteration_incumbent _ Hit)
    as [(Hub & Hx & _) | (Hlt & Hc & _)].
  - destruct Hchange; congruence.
  - split; assumption.
Qed.

(** The trace at the head of the loop: one record per pass when tracing
    is on, numbered from 1, and nothing when it is off. *)
Lemma loop_head_trace (st : state) :
  loop_head self problem clock st ->
  (0 <= BnB.node_count st)%Z /\
  (BnB.keeptrace self = true ->
   map (@TraceRecord.node_count Payload) (BnB.trace st)
   = map Z.of_nat (seq 1 (Z.to_nat (BnB.node_count st)))) /\
  (BnB.keeptrace self = false -> BnB.trace st = []).
Proof.
  induction 1 as [| st v st' _ (IH0 & IHon & IHoff) _ Hit].
  - split; [simpl; lia |]. split; intros _; reflexivity.
  - pose proof (iteration_trace _ Hit) as Htr.
    destruct (iteration_inv _ Hit)
      as (_ & _ & _ & _ & _ & _ & _ & _ & _ & _ & _ & _ & _ & Hnc & _).
    split; [lia |]. split.
    + intros Hon. rewrite Hon in Htr. rewrite Htr, map_app, (IHon Hon).
      simpl map at 2. rewrite Hnc.
      replace (Z.to_nat (BnB.node_count st + 1))
        with (S (Z.to_nat (BnB.node_count st))) by lia.
      rewrite seq_S, map_app. simpl. do 2 f_equal. lia.
    + intros Hoff. rewrite Hoff in Htr. rewrite Htr. exact (IHoff Hoff).
Qed.

(** X10.  The trace of a returned result: with [keeptrace] off it is
    empty; with [keeptrace] on it holds one record per iteration, numbered
    1, 2, ... up to [iterations], and its last record carries the
    objective value, the solve time and the iteration count of the
    result. *)
Theorem result_trace (fuel : nat)
        (r : Result.t X (TraceRecord.t Payload)) :
  BnB.solve self problem clock fuel = BnB.Returned r ->
  (BnB.keeptrace self = false -> Result.trace r = []) /\
  (BnB.keeptrace self = true ->
   List.length (Result.trace r) = Z.to_nat (Result.iterations r) /\
   map (@TraceRecord.node_count Payload) (Result.trace r)
   = map Z.of_nat (seq 1 (Z.to_nat (Result.iterations r))) /\
   exists earlier last,
     Result.trace r = earlier ++ [last] /\
     TraceRecord.node_count last = Result.iterations r /\
     TraceRecord.timer last = Result.solve_time r /\
     TraceRecord.best_ub last = Result.objective_value r).
Proof.
  intros H.
  destruct (solve_returned _ H) as (st & tm & Hhead & Hstop & Htm & ->).
  simpl. destruct (loop_head_trace Hhead) as (_ & Hon & Hoff).
  split; [exact Hoff |]. intros Hk. specialize (Hon Hk).
  split; [| split; [exact Hon |]].
  - rewrite <- (length_map (@TraceRecord.node_count Payload)), Hon.
    rewrite length_map, length_seq. reflexivity.
  - destruct Hhead as [| st0 v st' _ _ Hit]; [simpl in Hstop; congruence |].
    pose proof (iteration_trace _ Hit) as Htr. rewrite Hk in Htr.
    destruct (iteration_inv _ Hit)
      as (_ & _ & _ & _ & _ & _ & _ & _ & _ & _ & _ & _ & _ & Hnc & _
          & _ & Htm' & _).
    rewrite Htm in Htm'. injection Htm' as ->.
    do 2 eexists. split; [exact Htr |]. simpl.
    rewrite Hnc. repeat split.
Qed.

(** The status that six checks leave on RUNNING, case by case. *)
Lemma overwrite_in_order_cases (tl : pyfloat) (nl ql : Z)
      (atol rtol tm : pyfloat) (nc qs : Z) (ag rg : pyfloat) :
  let s := overwrite_in_order RUNNING
             (termination_checks tl nl ql atol rtol tm nc qs ag rg) in
  (s = RUNNING <->
   existsb (fun c : bool * Status => fst c)
           (termination_checks tl nl ql atol rtol tm nc qs ag rg) = false) /\
  (s = OPTIMAL <-> (qs =? 0)%Z = true) /\
  (s = TIME_LIMIT -> PyFloat.ge tm tl = true) /\
  (s = ITER_LIMIT -> (nc >=? nl)%Z = true) /\
  (s = MEMORY_LIMIT -> (qs >=? ql)%Z = true) /\
  (s = RELATIVE_OPTIMAL ->
   PyFloat.le ag atol = true \/ PyFloat.le rg rtol = true) /\
  In s [RUNNING; OPTIMAL; RELATIVE_OPTIMAL; TIME_LIMIT; ITER_LIMIT;
        MEMORY_LIMIT].
Proof.
  unfold overwrite_in_order, termination_checks. simpl.
  destruct (PyFloat.ge tm tl), (nc >=? nl)%Z, (qs >=? ql)%Z,
    (PyFloat.le ag atol), (PyFloat.le rg rtol), (qs =? 0)%Z; simpl;
    repeat split; intros; try discriminate; try reflexivity; auto 10.
Qed.

(** X12.  A pass entered with status RUNNING leaves RUNNING exactly when
    none of the six termination checks holds, and leaves OPTIMAL exactly
    when it leaves the queue empty; it leaves one of RUNNING, OPTIMAL,
    RELATIVE_OPTIMAL, TIME_LIMIT, ITER_LIMIT and MEMORY_LIMIT, never
    INFEASIBLE, UNBOUNDED or ERROR. *)
Theorem pass_status (st : state) (v : Visit) (st' : state) :
  BnB.iteration self problem clock st = Some (v, st') ->
  BnB.status st = RUNNING ->
  (exists tm ag rg,
      BnB.timer st' = Some tm /\
      BnB.abs_gap st' = Some ag /\
      BnB.rel_gap st' = Some rg /\
      (BnB.status st' = RUNNING <->
       existsb (fun c : bool * Status => fst c)
         (termination_checks
            (BnB.time_limit self) (BnB.node_limit self)
            (BnB.queue_limit self) (BnB.abs_gap_tol self)
            (BnB.rel_gap_tol self)
            tm (BnB.node_count st')
            (Z.of_nat (List.length (BnB.queue st'))) ag rg) = false)) /\
  (BnB.status st' = OPTIMAL <-> BnB.queue st' = []) /\
  In (BnB.status st')
     [RUNNING; OPTIMAL; RELATIVE_OPTIMAL; TIME_LIMIT; ITER_LIMIT;
      MEMORY_LIMIT].
Proof.
  intros H Hrun.
  destruct (iteration_inv _ H)
    as (_ & _ & _ & st2 & rg & _ & _ & _ & _ & _ & _ & Hq & _
        & Hnc & Hag & Hrg & Htm & Hst).
  rewrite Hrun in Hst.
  destruct (overwrite_in_order_cases
              (BnB.time_limit self) (BnB.node_limit self)
              (BnB.queue_limit self) (BnB.abs_gap_tol self)
              (BnB.rel_gap_tol self)
              (clock (BnB.node_count st + 1)%Z) (BnB.node_count st + 1)%Z
              (Z.of_nat (List.length (BnB.queue st2)))
              (BnB._abs_gap (BnB.best_ub st2) (BnB.best_lb st')) rg)
    as (Hrunning & Hopt & _ & _ & _ & _ & Hin).
  cbv zeta in Hrunning, Hopt, Hin. rewrite <- Hst in Hrunning, Hopt, Hin.
  split; [| split; [| exact Hin]].
  - do 3 eexists. split; [exact Htm |]. split; [exact Hag |].
    split; [exact Hrg |]. rewrite Hq, Hnc. exact Hrunning.
  - rewrite Hopt, Hq. rewrite Z.eqb_eq.
    destruct (BnB.queue st2); simpl; split; intros E;
      try reflexivity; try discriminate; lia.
Qed.

(** The status at the head of the loop after at least one pass. *)
Lemma loop_head_status (st : state) (tm : pyfloat) :
  loop_head self problem clock st ->
  BnB.timer st = Some tm ->
  In (BnB.status st)
     [RUNNING; OPTIMAL; RELATIVE_OPTIMAL; TIME_LIMIT; ITER_LIMIT;
      MEMORY_LIMIT] /\
  (BnB.status st = TIME_LIMIT -> PyFloat.ge tm (BnB.time_limit self) = true)
  /\
  (BnB.status st = ITER_LIMIT ->
   (BnB.node_limit self <= BnB.node_count st)%Z) /\
  (BnB.status st = MEMORY_LIMIT ->
   (BnB.queue_limit self <= Z.of_nat (List.length (BnB.queue st)))%Z) /\
  (BnB.status st = OPTIMAL <-> BnB.queue st = []).
Proof.
  intros Hhead Htm.
  destruct Hhead as [| st0 v st' _ Hrun Hit]; [discriminate Htm |].
  destruct (iteration_inv _ Hit)
    as (_ & _ & _ & st2 & rg & _ & _ & _ & _ & _ & _ & Hq & _
        & Hnc & _ & _ & Htm' & Hst).
  rewrite Htm in Htm'. injection Htm' as ->.
  rewrite Hrun in Hst.
  destruct (overwrite_in_order_cases
              (BnB.time_limit self) (BnB.node_limit self)
              (BnB.queue_limit self) (BnB.abs_gap_tol self)
              (BnB.rel_gap_tol self)
              (clock (BnB.node_count st0 + 1)%Z) (BnB.node_count st0 + 1)%Z
              (Z.of_nat (List.length (BnB.queue st2)))
              (BnB._abs_gap (BnB.best_ub st2) (BnB.best_lb st')) rg)
    as (_ & Hopt & Htime & Hiter & Hmem & _ & Hin).
  cbv zeta in Hopt, Htime, Hiter, Hmem, Hin.
  rewrite <- Hst in Hopt, Htime, Hiter, Hmem, Hin.
  rewrite Hq, Hnc.
  split; [exact Hin |]. split; [exact Htime |]. split; [| split].
  - intros E. apply Hiter in E. apply Z.geb_le in E. exact E.
  - intros E. apply Hmem in E. apply Z.geb_le in E. exact E.
  - rewrite Hopt, Z.eqb_eq.
    destruct (BnB.queue st2); simpl; split; intros E;
      try reflexivity; try discriminate; lia.
Qed.

(** X13.  A returned result has one of the statuses OPTIMAL,
    RELATIVE_OPTIMAL, TIME_LIMIT, ITER_LIMIT and MEMORY_LIMIT.  TIME_LIMIT
    is returned only with a solve time at or above the time limit, and
    ITER_LIMIT only with an iteration count at or above the node
    limit. *)
Theorem result_status (fuel : nat)
        (r : Result.t X (TraceRecord.t Payload)) :
  BnB.solve self problem clock fuel = BnB.Returned r ->
  In (Result.status r)
     [OPTIMAL; RELATIVE_OPTIMAL; TIME_LIMIT; ITER_LIMIT; MEMORY_LIMIT] /\
  (Result.status r = TIME_LIMIT ->
   PyFloat.ge (Result.solve_time r) (BnB.time_limit self) = true) /\
  (Result.status r = ITER_LIMIT ->
   (BnB.node_limit self <= Result.iterations r)%Z).
Proof.
  intros H.
  destruct (solve_returned _ H) as (st & tm & Hhead & Hstop & Htm & ->).
  simpl.
  destruct (loop_head_status Hhead Htm) as (Hin & Htime & Hiter & _).
  split; [| split; assumption].
  simpl in Hin |- *. intuition congruence.
Qed.

(** What a pass calls: [get_next] once, first. *)
Lemma iteration_calls_get_next_once (st : state) (v : Visit) (st' : state) :
  BnB.iteration self problem clock st = Some (v, st') ->
  exists rest,
    BnB.events v = BnB.CallGetNext _ _ _ :: rest /\
    ~ In (BnB.CallGetNext _ _ _) rest.
Proof.
  intros H.
  destruct (iteration_inv _ H) as (node0 & q & _ & _ & _ & Hget & _).
  destruct (PyFloat.gt (Node.lb (lb_bound node0)) (BnB.best_ub st)) eqn:Hgt.
  - destruct (iteration_pruned _ H Hget Hgt) as (_ & _ & Hev & _).
    rewrite Hev. eexists. split; [reflexivity |].
    intros [E | [E | []]]; discriminate E.
  - destruct (iteration_processed _ H Hget Hgt)
      as (x & ub & ev1 & node3 & st1 & ev2 & st2 & ev3
          & Hev & Hup & Hbr & _ & _ & Hevs & _).
    rewrite Hevs. eexists. split; [reflexivity |].
    intros [E | [E | Hin]]; try discriminate E.
    apply in_app_or in Hin. destruct Hin as [Hin | Hin].
    + destruct (upper_bound_evaluation_cases
                  (Node.set_status (lb_bound node0) PROCESSED))
        as [[_ E] | [_ E]]; rewrite E in Hev; injection Hev as _ _ <-;
        simpl in Hin; intuition discriminate.
    + apply in_app_or in Hin. destruct Hin as [Hin | Hin].
      * destruct (upper_bound_update_cases (BnB.set_queue st q)
                    (Node.set_status (lb_bound node0) PROCESSED) x ub)
          as [[_ E] | [_ E]]; rewrite E in Hup; injection Hup as _ _ <-;
          simpl in Hin; intuition discriminate.
      * destruct (branching_operation_inv st1 node3) as (s & e & E & Hcase).
        rewrite Hbr in E. injection E as <- <-.
        destruct Hcase as [[_ ->] | (_ & _ & ->)]; simpl in Hin;
          intuition discriminate.
Qed.

(** X11.  The driver never calls [get_next] on an empty queue.  When
    the queue holds the root on entry to the loop, the queue is not
    empty at any head of the loop where the status is RUNNING, because a
    pass that leaves the queue empty sets OPTIMAL, which ends the loop;
    and a pass calls [get_next] once, before anything else. *)
Theorem get_next_on_nonempty_queue (st : state) :
  BnB.queue (BnB.initial_state self problem) <> [] ->
  loop_head self problem clock st ->
  BnB.status st = RUNNING ->
  BnB.queue st <> [] /\
  forall v st',
    BnB.iteration self problem clock st = Some (v, st') ->
    exists rest,
      BnB.events v = BnB.CallGetNext _ _ _ :: rest /\
      ~ In (BnB.CallGetNext _ _ _) rest.
Proof.
  intros Hroot Hhead Hrun.
  split; [| intros v st' H; exact (iteration_calls_get_next_once _ H)].
  pose proof Hhead as Hhead'.
  destruct Hhead as [| st0 v st' _ _ Hit]; [exact Hroot |].
  destruct (iteration_inv _ Hit)
    as (_ & _ & _ & _ & _ & _ & _ & _ & _ & _ & _ & _ & _ & _ & _
        & _ & Htm & _).
  destruct (loop_head_status Hhead' Htm) as (_ & _ & _ & _ & Hopt).
  intros E. apply Hopt in E. congruence.
Qed.

(** The node count at the head of the loop stays within the node limit,
    the first pass apart. *)
Lemma loop_head_count (st : state) :
  loop_head self problem clock st ->
  (0 <= BnB.node_count st <= Z.max 1 (BnB.node_limit self))%Z /\
  (BnB.status st = RUNNING ->
   BnB.node_count st = 0%Z \/
   (BnB.node_count st < BnB.node_limit self)%Z).
Proof.
  induction 1 as [| st v st' _ [IHb IHr] Hrun Hit].
  - simpl. split; [lia | auto].
  - destruct (iteration_inv _ Hit)
      as (_ & _ & _ & st2 & rg & _ & _ & _ & _ & _ & _ & _ & _
          & Hnc & _ & _ & _ & Hst).
    specialize (IHr Hrun). split; [lia |].
    intros Hrun'. right.
    destruct (Z_lt_ge_dec (BnB.node_count st') (BnB.node_limit self))
      as [Hlt | Hge]; [exact Hlt | exfalso].
    revert Hrun'. rewrite Hst. apply overwrite_in_order_stops.
    right. apply Z.geb_le. lia.
Qed.

(** X14.  The node limit bounds the run: a returned result has
    [1 <= iterations <= max(1, node_limit)]. *)
Theorem node_limit_bounds_the_run (fuel : nat)
        (r : Result.t X (TraceRecord.t Payload)) :
  BnB.solve self problem clock fuel = BnB.Returned r ->
  (1 <= Result.iterations r <= Z.max 1 (BnB.node_limit self))%Z.
Proof.
  intros H. pose proof H as H0.
  destruct (solve_returned _ H) as (st & tm & Hhead & _ & _ & ->).
  simpl. destruct (loop_head_count Hhead) as [Hb _].
  split; [| lia].
  unfold BnB.solve in H0.
  destruct (BnB.main_loop self problem clock fuel
              (BnB.initial_state self problem)) as [stf | |] eqn:Hloop;
    try discriminate.
  destruct (main_loop_count _ _ Hloop) as [_ Hrun].
  destruct (Hrun eq_refl) as [Hlt _]. simpl in Hlt.
  destruct (BnB.timer stf); [| discriminate].
  injection H0. intros. lia.
Qed.

(** The branching operation, decided by the two gap tests. *)
Lemma branching_operation_exact (st : state) (node : Node) :
  let branches :=
    PyFloat.gt (BnB._abs_gap (BnB.best_ub st) (Node.lb node))
               (BnB.abs_gap_tol self)
    && match BnB._rel_gap (BnB.best_ub st) (Node.lb node) with
       | Some r => PyFloat.gt r (BnB.rel_gap_tol self)
       | None => false
       end in
  BnB.branching_operation self st node
  = Some (if branches
          then (BnB.set_queue st (BnB.queue st ++ branch node),
                [BnB.CallBranch node])
          else (st, [])).
Proof.
  unfold BnB.branching_operation.
  destruct (rel_gap_returns (BnB.best_ub st) (Node.lb node)) as [r ->].
  destruct (PyFloat.gt _ (BnB.abs_gap_tol self)); simpl; [| reflexivity].
  destruct (PyFloat.gt r (BnB.rel_gap_tol self)); reflexivity.
Qed.

(** X15.  A node whose point the problem reports feasible is a leaf of
    the search: with a non-negative absolute gap tolerance, the pass that
    visits it never calls [branch], whether or not the node improves the
    incumbent, and adds nothing to the queue. *)
Theorem feasible_node_is_not_branched (st : state) (v : Visit)
        (st' : state) (node0 : Node) (q : list Node) :
  BnB.iteration self problem clock st = Some (v, st') ->
  get_next (BnB.queue st) = Some (node0, q) ->
  Problem.is_feasible problem (Node.x (lb_bound node0)) (BnB.feas_tol self)
  = true ->
  PyFloat.le (PyFloat.Fin 0) (BnB.abs_gap_tol self) = true ->
  (forall n, ~ In (BnB.CallBranch n) (BnB.events v)) /\
  (forall m, In m (BnB.queue st') -> In m q).
Proof.
  intros H Hget Hfeas Htol.
  destruct (PyFloat.gt (Node.lb (lb_bound node0)) (BnB.best_ub st)) eqn:Hgt.
  - destruct (iteration_pruned _ H Hget Hgt) as (_ & _ & Hev & _ & _ & Hq).
    rewrite Hev, Hq. split; [| auto].
    intros n [E | [E | [E | []]]]; discriminate E.
  - destruct (iteration_processed _ H Hget Hgt)
      as (x & ub & ev1 & node3 & st1 & ev2 & st2 & ev3
          & Hev & Hup & Hbr & _ & _ & Hevs & _ & _ & Hq).
    destruct (upper_bound_evaluation_cases
                (Node.set_status (lb_bound node0) PROCESSED))
      as [[_ E] | [E _]]; [| simpl in E; congruence].
    rewrite E in Hev. injection Hev as Hx Hubv Hev1.
    assert (Hno : PyFloat.gt (BnB._abs_gap (BnB.best_ub st1) (Node.lb node3))
                    (BnB.abs_gap_tol self) = false /\
                  (forall m, In m (BnB.queue st1) -> In m q) /\
                  (ev2 = [] \/ ev2 = [BnB.SetNodeStatus _ _ _ FEASIBLE])).
    { destruct (upper_bound_update_cases (BnB.set_queue st q)
                  (Node.set_status (lb_bound node0) PROCESSED) x ub)
        as [[Hlt E'] | [Hlt E']]; rewrite E' in Hup;
        injection Hup as <- <- <-; simpl in Hlt |- *; subst ub.
      - split; [| split; [| auto]].
        + destruct (PyFloat.gt _ (BnB.abs_gap_tol self)) eqn:G;
            [| reflexivity].
          pose proof (PyFloatFacts.sub_gt_lt _ _ _ Htol G) as C.
          simpl in C. rewrite PyFloatFacts.lt_irrefl in C. discriminate.
        + intros m Hm. apply filter_In in Hm. exact (proj1 Hm).
      - split; [| split; [| auto]].
        + destruct (PyFloat.gt _ (BnB.abs_gap_tol self)) eqn:G;
            [| reflexivity].
          pose proof (PyFloatFacts.sub_gt_lt _ _ _ Htol G) as C.
          simpl in C, Hlt. congruence.
        + auto. }
    subst ev1.
    destruct Hno as (Hgap & Hincl & Hev2).
    pose proof (branching_operation_exact st1 node3) as Hex.
    cbv zeta in Hex. rewrite Hgap in Hex. simpl in Hex.
    rewrite Hbr in Hex. injection Hex as -> ->.
    rewrite Hevs, Hq. split; [| exact Hincl].
    intros n Hin. simpl in Hin.
    destruct Hev2 as [-> | ->]; simpl in Hin;
      repeat (destruct Hin as [Hin | Hin]; [discriminate Hin |]);
      exact Hin.
Qed.


(** X17.  In a pass that does not prune its node, [branch] is called
    exactly when the absolute and the relative gap between the incumbent
    value the pass leaves and the bound of the node both exceed their
    tolerances.  It is then called once, last, on the visited node
    carrying its final status, and the queue the pass leaves is what
    [get_next] left, filtered when the candidate improved the incumbent,
    followed by the children.  Otherwise [branch] is not called and the
    queue is what [get_next] left, filtered in the same way. *)
Theorem branching_condition (st : state) (v : Visit) (st' : state)
        (node0 : Node) (q : list Node) (x : option X) (ub : pyfloat) :
  BnB.iteration self problem clock st = Some (v, st') ->
  get_next (BnB.queue st) = Some (node0, q) ->
  BnB.candidate v = Some (x, ub) ->
  let branches :=
    PyFloat.gt (BnB._abs_gap (BnB.best_ub st') (Node.lb (BnB.node v)))
               (BnB.abs_gap_tol self)
    && match BnB._rel_gap (BnB.best_ub st') (Node.lb (BnB.node v)) with
       | Some r => PyFloat.gt r (BnB.rel_gap_tol self)
       | None => false
       end in
  let kept :=
    if PyFloat.lt ub (BnB.best_ub st)
    then filter (fun m => PyFloat.le (Node.lb m) ub) q
    else q in
  (branches = true ->
   (exists before,
       BnB.events v = before ++ [BnB.CallBranch (BnB.node v)] /\
       forall n, ~ In (BnB.CallBranch n) before) /\
   BnB.queue st' = kept ++ branch (BnB.node v)) /\
  (branches = false ->
   (forall n, ~ In (BnB.CallBranch n) (BnB.events v)) /\
   BnB.queue st' = kept).
Proof.
  intros H Hget Hcand.
  destruct (PyFloat.gt (Node.lb (lb_bound node0)) (BnB.best_ub st)) eqn:Hgt.
  { destruct (iteration_pruned _ H Hget Hgt) as (_ & Hnone & _).
    congruence. }
  destruct (iteration_processed _ H Hget Hgt)
    as (x' & ub' & ev1 & node3 & st1 & ev2 & st2 & ev3
        & Hev & Hup & Hbr & Hnode & Hcand' & Hevs & _ & Hub & Hq).
  rewrite Hcand in Hcand'. injection Hcand' as <- <-.
  pose proof (branching_operation_exact st1 node3) as Hex.
  cbv zeta in Hex. rewrite Hbr in Hex.
  assert (Hub1 : BnB.best_ub st' = BnB.best_ub st1).
  { rewrite Hub. destruct (branching_operation_inv st1 node3)
      as (s & e & E & Hcase).
    rewrite Hbr in E. injection E as <- <-.
    destruct Hcase as [[-> _] | (_ & -> & _)]; reflexivity. }
  assert (Hkept : BnB.queue st1
                  = if PyFloat.lt ub (BnB.best_ub st)
                    then filter (fun m => PyFloat.le (Node.lb m) ub) q
                    else q).
  { destruct (upper_bound_update_cases (BnB.set_queue st q)
                (Node.set_status (lb_bound node0) PROCESSED) x ub)
      as [[Hlt E] | [Hlt E]]; rewrite E in Hup; injection Hup as _ <- _;
      simpl in Hlt |- *; rewrite Hlt; reflexivity. }
  assert (Hev1 : forall n,
             ~ In (BnB.CallBranch n)
                  (BnB.CallGetNext _ _ _ :: BnB.CallLbBound node0
                   :: BnB.SetNodeStatus _ _ _ PROCESSED :: ev1 ++ ev2)).
  { intros n [E | [E | [E | Hin]]]; try discriminate E.
    apply in_app_or in Hin.
    destruct (upper_bound_evaluation_cases
                (Node.set_status (lb_bound node0) PROCESSED))
      as [[_ E] | [_ E]]; rewrite E in Hev; injection Hev as _ _ <-;
      destruct (upper_bound_update_cases (BnB.set_queue st q)
                  (Node.set_status (lb_bound node0) PROCESSED) x ub)
        as [[_ E'] | [_ E']]; rewrite E' in Hup; injection Hup as _ _ <-;
      simpl in Hin; intuition discriminate. }
  rewrite Hnode, Hub1, Hevs, Hq, <- Hkept. intros branches kept.
  subst branches kept.
  destruct (PyFloat.gt (BnB._abs_gap (BnB.best_ub st1) (Node.lb node3))
              (BnB.abs_gap_tol self)
            && match BnB._rel_gap (BnB.best_ub st1) (Node.lb node3) with
               | Some r => PyFloat.gt r (BnB.rel_gap_tol self)
               | None => false
               end);
    injection Hex as -> ->; (split; [intros Hb | intros Hb]);
    try discriminate Hb.
  - split; [| reflexivity].
    exists (BnB.CallGetNext _ _ _ :: BnB.CallLbBound node0
            :: BnB.SetNodeStatus _ _ _ PROCESSED :: ev1 ++ ev2).
    split; [| exact Hev1].
    simpl. rewrite <- app_assoc. reflexivity.
  - split; [| reflexivity].
    intros n Hin. rewrite app_nil_r in Hin. exact (Hev1 n Hin).
Qed.

End Driver.

Lemma status_update_precedence_witness :
  exists v st',
    BnB.iteration Stub.Tree.self_no_time Stub.problem Stub.clock
                  (Stub.Tree.state_after 4) = Some (v, st') /\
    BnB.queue st' = [] /\
    BnB.timer st' = Some (Stub.clock 5) /\
    PyFloat.ge (Stub.clock 5) (BnB.time_limit Stub.Tree.self_no_time)
    = true /\
    BnB.status st' = OPTIMAL.
Proof.
  destruct (BnB.iteration Stub.Tree.self_no_time Stub.problem Stub.clock
                          (Stub.Tree.state_after 4))
    as [[v st'] |] eqn:E; [| vm_compute in E; discriminate].
  exists v, st'.
  assert (Hq : BnB.queue st' = [])
    by (vm_compute in E; injection E as _ <-; reflexivity).
  assert (Htm : BnB.timer st' = Some (Stub.clock 5))
    by (vm_compute in E; injection E as _ <-; reflexivity).
  destruct (status_update_precedence _ _ _ _ E)
    as (tm & ag & rg & _ & _ & _ & _ & _ & Hopt).
  repeat split; try assumption; try reflexivity.
  exact (proj1 (Hopt Hq)).
Defined.

(* ================================================================== *)
(** * The theorems at work on the stub collaborators *)

(** Runs one pass through the loop body from a given state and names its
    visit and the state it leaves. *)
Ltac run_pass self st v st' E :=
  destruct (BnB.iteration self Stub.problem Stub.clock st)
    as [[v st'] |] eqn:E; [| vm_compute in E; discriminate].

(** Replaces the visit and the state of a pass by their values. *)
Ltac eval_pass E :=
  let E' := fresh "E" in
  pose proof E as E'; vm_compute in E';
  injection E' as <- <-.

Lemma pruned_or_processed_witness :
  exists v st',
    BnB.iteration Stub.Tree.self Stub.problem Stub.clock
                  (Stub.Tree.state_after 4) = Some (v, st') /\
    Node.region (BnB.node v) = 4%nat /\
    Node.status (BnB.node v) = PRUNED /\
    (forall n, ~ In (BnB.CallBranch n) (BnB.events v)) /\
    BnB.best_ub st' = BnB.best_ub (Stub.Tree.state_after 4) /\
    BnB.queue st' = [].
Proof.
  run_pass Stub.Tree.self (Stub.Tree.state_after 4) v st' E.
  exists v, st'. split; [reflexivity |].
  destruct (pruned_or_processed _ _ _ _ E)
    as (node0 & q & Hget & Hpruned & _).
  vm_compute in Hget. injection Hget as <- <-.
  destruct (Hpruned eq_refl) as (Hnode & Hst & _ & Hbr & _ & _ & Hub & Hq).
  rewrite Hnode. repeat split; assumption.
Defined.

Lemma upper_bound_candidate_witness :
  (exists v st',
      BnB.iteration Stub.Tree.self Stub.problem Stub.clock
                    (Stub.Tree.state_after 3) = Some (v, st') /\
      BnB.candidate v = Some (Some 3, PyFloat.Fin 3) /\
      forall n, ~ In (BnB.CallUbBound n) (BnB.events v)) /\
  (exists v st',
      BnB.iteration Stub.Tree.self Stub.problem Stub.clock
                    (Stub.Tree.state_after 0) = Some (v, st') /\
      BnB.candidate v = Some (Some 7, PyFloat.Fin 7) /\
      exists n, In (BnB.CallUbBound n) (BnB.events v)).
Proof.
  split.
  - run_pass Stub.Tree.self (Stub.Tree.state_after 3) v st' E.
    exists v, st'. split; [reflexivity |].
    destruct (upper_bound_candidate _ _ _ _ E) as (node0 & q & Hget & Hc).
    vm_compute in Hget. injection Hget as <- <-.
    destruct (Hc eq_refl) as [Hfeasible _].
    destruct (Hfeasible eq_refl) as (Hcand & Hno & _).
    split; [exact Hcand | exact Hno].
  - run_pass Stub.Tree.self (Stub.Tree.state_after 0) v st' E.
    exists v, st'. split; [reflexivity |].
    destruct (upper_bound_candidate _ _ _ _ E) as (node0 & q & Hget & Hc).
    vm_compute in Hget. injection Hget as <- <-.
    destruct (Hc eq_refl) as [_ Hinfeasible].
    destruct (Hinfeasible eq_refl) as (Hcand & Hcall & _).
    split; [exact Hcand | eexists; exact Hcall].
Defined.

Lemma incumbent_update_filters_witness :
  exists v st',
    BnB.iteration Stub.Tree.self Stub.problem Stub.clock
                  (Stub.Tree.state_after 3) = Some (v, st') /\
    BnB.candidate v = Some (Some 3, PyFloat.Fin 3) /\
    PyFloat.lt (PyFloat.Fin 3) (BnB.best_ub (Stub.Tree.state_after 3))
    = true /\
    map (fun m => (Node.region m, Node.lb m))
        (BnB.queue (Stub.Tree.state_after 3))
    = [(5%nat, PyFloat.Fin (7 # 2)); (6%nat, PyFloat.Fin (7 # 2));
       (3%nat, PyFloat.Fin 2); (4%nat, PyFloat.Fin 2)] /\
    Node.status (BnB.node v) = FEASIBLE /\
    BnB.best_x st' = Some 3 /\
    BnB.best_ub st' = PyFloat.Fin 3 /\
    map (fun m => (Node.region m, Node.lb m)) (BnB.queue st')
    = [(4%nat, PyFloat.Fin 2)].
Proof.
  run_pass Stub.Tree.self (Stub.Tree.state_after 3) v st' E.
  exists v, st'. split; [reflexivity |].
  assert (Hcand : BnB.candidate v = Some (Some 3, PyFloat.Fin 3))
    by (eval_pass E; reflexivity).
  assert (Hlt : PyFloat.lt (PyFloat.Fin 3)
                  (BnB.best_ub (Stub.Tree.state_after 3)) = true)
    by reflexivity.
  destruct (incumbent_update_filters _ _ _ _ E Hcand Hlt)
    as (Hst & Hx & Hub & _).
  repeat split; try assumption; try reflexivity.
  eval_pass E. reflexivity.
Defined.



(** The first pass of the stub tree assigns the status of the root
    twice, PROCESSED and then FEASIBLE. *)
Lemma status_written_once_counterexample :
  ~ status_written_once Stub.Tree.self Stub.problem Stub.clock.
Proof.
  intros Honce.
  run_pass Stub.Tree.self
           (BnB.initial_state Stub.Tree.self Stub.problem) v st' E.
  specialize (Honce _ _ _ E).
  eval_pass E. vm_compute in Honce. discriminate Honce.
Qed.

Lemma node_status_discipline_witness :
  exists v st',
    BnB.iteration Stub.Tree.self Stub.problem Stub.clock
                  (BnB.initial_state Stub.Tree.self Stub.problem)
    = Some (v, st') /\
    status_writes (BnB.events v) = [PROCESSED; FEASIBLE] /\
    Node.status (BnB.node v) = FEASIBLE /\
    map (@Node.status _ _ _) (BnB.queue st') = [OPEN; OPEN].
Proof.
  run_pass Stub.Tree.self
           (BnB.initial_state Stub.Tree.self Stub.problem) v st' E.
  exists v, st'. split; [reflexivity |].
  destruct (node_status_discipline _ _ _ _ E) as (_ & Hcases & _).
  destruct Hcases as [(_ & _ & Hc) | [(_ & _ & Hc) | (Hw & Hs & _)]].
  - eval_pass E. discriminate Hc.
  - destruct Hc as (x & ub & Hc & Hlt).
    eval_pass E. injection Hc as <- <-. discriminate Hlt.
  - split; [exact Hw |]. split; [exact Hs |]. eval_pass E. reflexivity.
Defined.




(** The tolerance matters as well: with negative tolerances a rule whose
    children inherit the bound of their parent breaks the order. *)
Lemma bounds_ordered_needs_tolerance :
  child_bound_contract (BnB.branching_rule Stub.NegativeTolerance.self) /\
  ~ bounds_ordered Stub.NegativeTolerance.self Stub.problem Stub.clock.
Proof.
  split.
  - intros node child Hnan Hin. simpl in Hin.
    destruct (Node.region node) as [| r]; simpl in Hin; [| contradiction].
    destruct Hin as [<- | []]. simpl.
    apply PyFloatFacts.le_refl. exact Hnan.
  - intros Hord.
    run_pass Stub.NegativeTolerance.self
             (BnB.initial_state Stub.NegativeTolerance.self Stub.problem)
             v st' E.
    pose proof (loop_head_next
                  (loop_head_init Stub.NegativeTolerance.self Stub.problem
                                  Stub.clock)
                  eq_refl E) as Hhead.
    specialize (Hord _ Hhead).
    eval_pass E. vm_compute in Hord.
    specialize (Hord eq_refl eq_refl). discriminate.
Qed.



(* ================================================================== *)
(** * Further properties of the searching rules *)

Lemma pop_empty (A : Type) (i : Z) : pop (@nil A) i = None.
Proof.
  unfold pop. simpl.
  destruct (Z.ltb_spec i 0).
  - replace (i + 0 <? 0)%Z with true by (symmetry; apply Z.ltb_lt; lia).
    reflexivity.
  - destruct (Z.ltb_spec i 0); [lia |].
    replace (0 <=? i)%Z with true by (symmetry; apply Z.leb_le; lia).
    reflexivity.
Qed.

Lemma pop_head (A : Type) (a : A) (l : list A) :
  pop (a :: l) 0 = Some (a, l).
Proof. exact (@pop_nth A (a :: l) 0%nat a eq_refl). Qed.

Lemma pop_last (A : Type) (l : list A) (a : A) :
  pop (l ++ [a]) (-1) = Some (a, l).
Proof.
  assert (H : pop (l ++ [a]) (-1)
              = pop (l ++ [a]) (Z.of_nat (List.length l))).
  { unfold pop. rewrite length_app. simpl List.length.
    change (-1 <? 0)%Z with true. cbv iota.
    destruct (Z.ltb_spec (Z.of_nat (List.length l)) 0); [lia |].
    replace (-1 + Z.of_nat (List.length l + 1))%Z
      with (Z.of_nat (List.length l)) by lia.
    reflexivity. }
  assert (Hn : nth_error (l ++ [a]) (List.length l) = Some a)
    by (rewrite nth_error_app2, Nat.sub_diag by lia; reflexivity).
  rewrite H, (pop_nth _ _ Hn). f_equal. f_equal.
  rewrite firstn_app, Nat.sub_diag, firstn_all. simpl firstn.
  rewrite skipn_all2 by (rewrite length_app; simpl; lia).
  rewrite !app_nil_r. reflexivity.
Qed.

Section MaxScan.
Variable A : Type.
Variable key : A -> pyfloat.

(** The scan of [max] keeps an item of the iterable; no item before it
    has a key at or above the kept key, no item after it a key strictly
    above. *)
Lemma fold_max_scan (a : A) (l : list A) :
  let r := fold_left (max_step key) l (a, key a) in
  snd r = key (fst r) /\
  exists l1 l2,
    a :: l = l1 ++ fst r :: l2 /\
    (forall m, In m l1 -> PyFloat.le (key (fst r)) (key m) = false) /\
    (forall m, In m l2 -> PyFloat.lt (key (fst r)) (key m) = false).
Proof.
  induction l as [| b l IH] using rev_ind; simpl.
  - split; [reflexivity |].
    exists [], []. repeat split; intros m [].
  - rewrite fold_left_app. simpl.
    destruct IH as [Hk (l1 & l2 & Hsplit & Hbefore & Hafter)].
    set (r := fold_left (max_step key) l (a, key a)) in *.
    assert (Hstep : max_step key r b
                    = if PyFloat.lt (key (fst r)) (key b)
                      then (b, key b) else r)
      by (unfold max_step, PyFloat.gt; simpl; rewrite Hk; reflexivity).
    rewrite Hstep. clear Hstep.
    destruct (PyFloat.lt (key (fst r)) (key b)) eqn:Hlt; simpl.
    + split; [reflexivity |].
      exists (l1 ++ fst r :: l2), []. repeat split.
      * rewrite app_comm_cons, Hsplit. reflexivity.
      * intros m Hm.
        destruct (PyFloat.le (key b) (key m)) eqn:Hle; [| reflexivity].
        pose proof (PyFloatFacts.lt_le_trans _ _ _ Hlt Hle) as Hmr.
        apply in_app_or in Hm. destruct Hm as [Hm | [<- | Hm]].
        -- pose proof (Hbefore m Hm) as Hb.
           rewrite (PyFloatFacts.lt_le _ _ Hmr) in Hb. discriminate.
        -- rewrite PyFloatFacts.lt_irrefl in Hmr. discriminate.
        -- rewrite (Hafter m Hm) in Hmr. discriminate.
      * intros m [].
    + split; [exact Hk |].
      exists l1, (l2 ++ [b]). repeat split.
      * rewrite app_comm_cons, Hsplit, <- app_assoc. reflexivity.
      * exact Hbefore.
      * intros m Hm. apply in_app_or in Hm. destruct Hm as [Hm | [<- | []]].
        -- exact (Hafter m Hm).
        -- exact Hlt.
Qed.

Lemma py_max_key_from_scan (a : A) (l : list A) :
  exists l1 l2,
    a :: l = l1 ++ py_max_key_from key a l :: l2 /\
    (forall m, In m l1 ->
       PyFloat.le (key (py_max_key_from key a l)) (key m) = false) /\
    (forall m, In m l2 ->
       PyFloat.lt (key (py_max_key_from key a l)) (key m) = false).
Proof. exact (proj2 (fold_max_scan a l)). Qed.

End MaxScan.

Section SearchingRuleFacts.
Variables Region X Payload : Type.
Local Abbreviation Node := (Node.t Region X Payload).

Lemma numeric_bounds_In (queue : list Node) (m : Node) :
  numeric_bounds queue = true -> In m queue -> Node.lb m <> PyFloat.NaN.
Proof.
  unfold numeric_bounds. rewrite forallb_forall. intros H Hm.
  specialize (H m Hm). destruct (Node.lb m); simpl in H; congruence.
Qed.

Lemma numeric_bounds_incl (queue rest : list Node) :
  numeric_bounds queue = true ->
  (forall m, In m rest -> In m queue) ->
  numeric_bounds rest = true.
Proof.
  unfold numeric_bounds. rewrite !forallb_forall. intros H Hincl m Hm.
  exact (H m (Hincl m Hm)).
Qed.

(** The scan of [WorstFirstSearch.get_next] on any queue, NaN bounds
    included. *)
Lemma WorstFirstSearch_get_next_scan (queue : list Node) :
  queue <> [] ->
  exists node before after,
    queue = before ++ node :: after /\
    SearchingRule.get_next (WorstFirstSearch Region X Payload) queue
    = Some (node, before ++ after) /\
    (forall m, In m before ->
       PyFloat.le (Node.lb node) (Node.lb m) = false) /\
    (forall m, In m after ->
       PyFloat.lt (Node.lb node) (Node.lb m) = false).
Proof.
  intros Hne. destruct queue as [| a l]; [congruence |]. clear Hne.
  set (queue := a :: l).
  unfold WorstFirstSearch. simpl SearchingRule.get_next.
  change (List.length queue) with (S (List.length l)).
  simpl seq. simpl py_max_key.
  destruct (py_max_key_from_scan (lb_at queue) 0%nat (seq 1 (List.length l)))
    as (l1 & l2 & Hs & Hb & Ha).
  set (i := py_max_key_from (lb_at queue) 0%nat (seq 1 (List.length l))) in *.
  change (0%nat :: seq 1 (List.length l))
    with (seq 0 (List.length queue)) in Hs.
  destruct (@seq_split_index _ _ _ _ Hs) as (Hi & Hlt & Hl1 & Hl2).
  assert (Hex : exists node, nth_error queue i = Some node).
  { destruct (nth_error queue i) as [node |] eqn:E;
      [exists node; reflexivity | apply nth_error_None in E; lia]. }
  destruct Hex as [node Hnode].
  exists node, (firstn i queue), (skipn (S i) queue).
  assert (Hkey : lb_at queue i = Node.lb node)
    by (unfold lb_at; rewrite Hnode; reflexivity).
  repeat split.
  - symmetry. apply firstn_skipn_middle. exact Hnode.
  - apply pop_nth. exact Hnode.
  - intros m Hm. apply In_nth_error in Hm. destruct Hm as [j Hj].
    rewrite nth_error_firstn in Hj.
    destruct (Nat.ltb_spec j i) as [Hji |]; [| discriminate].
    rewrite <- Hkey. specialize (Hb j (Hl1 j Hji)).
    unfold lb_at at 2 in Hb. rewrite Hj in Hb. exact Hb.
  - intros m Hm. apply In_nth_error in Hm. destruct Hm as [j Hj].
    rewrite nth_error_skipn in Hj.
    assert (Hp : (S i + j < List.length queue)%nat)
      by (apply nth_error_Some; congruence).
    assert (Hr : (i < S i + j < List.length queue)%nat) by lia.
    rewrite <- Hkey. specialize (Ha (S i + j)%nat (Hl2 _ Hr)).
    unfold lb_at at 2 in Ha. rewrite Hj in Ha. exact Ha.
Qed.

(** The four deterministic rules return a node from every non-empty
    queue and keep the node added to the empty queue. *)
Lemma deterministic_rules_total :
  searching_rule_total (BestFirstSearch Region X Payload) /\
  searching_rule_total (BreadthFirstSearch Region X Payload) /\
  searching_rule_total (DepthFirstSearch Region X Payload) /\
  searching_rule_total (WorstFirstSearch Region X Payload).
Proof.
  repeat split; try (intros node; discriminate); intros queue Hne H.
  - destruct (BestFirstSearch_get_next_scan Hne)
      as (n & b & c & _ & E & _). congruence.
  - destruct queue as [| a l]; [congruence |].
    simpl in H. rewrite pop_head in H. discriminate.
  - destruct (exists_last Hne) as (l' & b & E).
    rewrite E in H. simpl in H. rewrite pop_last in H. discriminate.
  - destruct (WorstFirstSearch_get_next_scan Hne)
      as (n & b & c & _ & E & _). congruence.
Qed.

(** X1.  Each of the four deterministic rules raises on the empty queue
    and on no other: [get_next] returns a node from every non-empty
    queue. *)
Theorem get_next_raises_on_empty_only (queue : list Node) :
  (SearchingRule.get_next (BestFirstSearch Region X Payload) queue = None
   <-> queue = []) /\
  (SearchingRule.get_next (BreadthFirstSearch Region X Payload) queue = None
   <-> queue = []) /\
  (SearchingRule.get_next (DepthFirstSearch Region X Payload) queue = None
   <-> queue = []) /\
  (SearchingRule.get_next (WorstFirstSearch Region X Payload) queue = None
   <-> queue = []).
Proof.
  destruct deterministic_rules_total
    as ((_ & Hbest) & (_ & Hbreadth) & (_ & Hdepth) & (_ & Hworst)).
  repeat split; try (intros ->; reflexivity); intros H;
    (destruct queue as [| a l]; [reflexivity | exfalso]).
  - exact (Hbest (a :: l) ltac:(discriminate) H).
  - exact (Hbreadth (a :: l) ltac:(discriminate) H).
  - exact (Hdepth (a :: l) ltac:(discriminate) H).
  - exact (Hworst (a :: l) ltac:(discriminate) H).
Qed.

(** X2.  [RandomSearch.get_next] raises on the empty queue without
    drawing; on a non-empty queue, a draw within [0, len(queue) - 1], as
    [random.randint] makes them, returns the node at the drawn index and
    the queue without it. *)
Theorem RandomSearch_get_next_draw (randint : Z -> Z -> Z)
        (queue : list Node) :
  let hi := (Z.of_nat (List.length queue) - 1)%Z in
  queue <> [] ->
  (0 <= randint 0%Z hi <= hi)%Z ->
  SearchingRule.get_next (RandomSearch Region X Payload randint) [] = None /\
  exists node,
    nth_error queue (Z.to_nat (randint 0%Z hi)) = Some node /\
    SearchingRule.get_next (RandomSearch Region X Payload randint) queue
    = Some (node,
            firstn (Z.to_nat (randint 0%Z hi)) queue
            ++ skipn (S (Z.to_nat (randint 0%Z hi))) queue).
Proof.
  intros hi Hne Hdraw. split; [reflexivity |].
  assert (Hlen : (0 < List.length queue)%nat)
    by (destruct queue; [congruence | simpl; lia]).
  assert (Hex : exists node,
             nth_error queue (Z.to_nat (randint 0%Z hi)) = Some node).
  { destruct (nth_error queue (Z.to_nat (randint 0%Z hi))) as [n |] eqn:E;
      [exists n; reflexivity |].
    apply nth_error_None in E. unfold hi in *. lia. }
  destruct Hex as [node Hnode]. exists node. split; [exact Hnode |].
  assert (Hpop : pop queue (randint 0%Z hi)
                 = Some (node,
                         firstn (Z.to_nat (randint 0%Z hi)) queue
                         ++ skipn (S (Z.to_nat (randint 0%Z hi))) queue)).
  { rewrite <- (Z2Nat.id (randint 0%Z hi)) at 1 by lia.
    apply pop_nth. exact Hnode. }
  rewrite <- Hpop. unfold RandomSearch. simpl SearchingRule.get_next.
  fold hi. destruct (Z.ltb_spec hi 0); [unfold hi in *; lia | reflexivity].
Qed.

(** X3.  On a non-empty queue of nodes whose bounds are numbers,
    [WorstFirstSearch.get_next] returns a node of the queue and the queue
    without that occurrence; the bound of the node is at least the bound
    of every queued node and strictly above the bound of every node
    inserted before it. *)
Theorem WorstFirstSearch_get_next_max (queue : list Node) :
  queue <> [] ->
  numeric_bounds queue = true ->
  exists node before after,
    queue = before ++ node :: after /\
    SearchingRule.get_next (WorstFirstSearch Region X Payload) queue
    = Some (node, before ++ after) /\
    (forall m, In m queue ->
       PyFloat.le (Node.lb m) (Node.lb node) = true) /\
    (forall m, In m before ->
       PyFloat.lt (Node.lb m) (Node.lb node) = true).
Proof.
  intros Hne Hnum.
  pose proof (numeric_bounds_In queue) as Hnan.
  destruct (WorstFirstSearch_get_next_scan Hne)
    as (node & before & after & Hq & Hget & Hb & Ha).
  exists node, before, after.
  assert (Hnode : In node queue)
    by (rewrite Hq; apply in_or_app; right; left; reflexivity).
  assert (Hbefore : forall m, In m before ->
            PyFloat.lt (Node.lb m) (Node.lb node) = true).
  { intros m Hm. apply PyFloatFacts.not_le_lt; auto.
    apply Hnan; [exact Hnum |]. rewrite Hq. apply in_or_app. left. exact Hm. }
  repeat split; try assumption.
  intros m Hm. pose proof Hm as Hm'. rewrite Hq in Hm.
  apply in_app_or in Hm. destruct Hm as [Hm | [<- | Hm]].
  - apply PyFloatFacts.lt_le. auto.
  - apply PyFloatFacts.le_refl. auto.
  - apply PyFloatFacts.not_lt_le; auto.
Qed.

Lemma fold_append (queue nodes : list Node) :
  fold_left (@append Region X Payload) nodes queue = queue ++ nodes.
Proof.
  revert queue. induction nodes as [| n nodes IH]; intros queue; simpl.
  - rewrite app_nil_r. reflexivity.
  - rewrite IH. unfold append. rewrite <- app_assoc. reflexivity.
Qed.

(** X4.  Breadth-first is first in, first out: the nodes added one after
    the other to an empty queue are returned by successive [get_next]
    calls in the order of their insertion, after which [get_next]
    raises. *)
Theorem BreadthFirstSearch_fifo (nodes : list Node) (extra : nat) :
  drain (BreadthFirstSearch Region X Payload)
        (List.length nodes + extra)
        (add_all (BreadthFirstSearch Region X Payload) [] nodes)
  = nodes.
Proof.
  unfold add_all. simpl SearchingRule.add. rewrite fold_append.
  rewrite app_nil_l.
  induction nodes as [| a l IH].
  - destruct extra; reflexivity.
  - simpl List.length. simpl Nat.add. cbn [drain].
    assert (Hget : SearchingRule.get_next
                     (BreadthFirstSearch Region X Payload) (a :: l)
                   = Some (a, l)) by apply pop_head.
    rewrite Hget, IH. reflexivity.
Qed.

(** X5.  Depth-first is last in, first out: the nodes added one after
    the other to an empty queue are returned by successive [get_next]
    calls in the reverse order of their insertion, after which
    [get_next] raises. *)
Theorem DepthFirstSearch_lifo (nodes : list Node) (extra : nat) :
  drain (DepthFirstSearch Region X Payload)
        (List.length nodes + extra)
        (add_all (DepthFirstSearch Region X Payload) [] nodes)
  = rev nodes.
Proof.
  unfold add_all. simpl SearchingRule.add. rewrite fold_append.
  rewrite app_nil_l.
  induction nodes as [| a l IH] using rev_ind.
  - destruct extra; reflexivity.
  - rewrite length_app, rev_app_distr. simpl List.length.
    replace (List.length l + 1 + extra)%nat
      with (S (List.length l + extra)) by lia.
    cbn [drain].
    assert (Hget : SearchingRule.get_next
                     (DepthFirstSearch Region X Payload) (l ++ [a])
                   = Some (a, l)) by apply pop_last.
    rewrite Hget, IH. reflexivity.
Qed.

(** One best-first selection on numeric bounds: the returned node is at
    most every node left, which are the other nodes of the queue. *)
Lemma BestFirstSearch_get_next_least (queue : list Node) :
  queue <> [] ->
  numeric_bounds queue = true ->
  exists node rest,
    SearchingRule.get_next (BestFirstSearch Region X Payload) queue
    = Some (node, rest) /\
    Permutation queue (node :: rest) /\
    (forall m, In m rest -> PyFloat.le (Node.lb node) (Node.lb m) = true).
Proof.
  intros Hne Hnum.
  destruct (BestFirstSearch_get_next_scan Hne)
    as (node & before & after & Hq & Hget & Hb & Ha).
  exists node, (before ++ after). split; [exact Hget |]. split.
  - rewrite Hq. symmetry. apply Permutation_middle.
  - assert (Hnode : Node.lb node <> PyFloat.NaN).
    { apply (numeric_bounds_In queue); [exact Hnum |].
      rewrite Hq. apply in_or_app. right. left. reflexivity. }
    intros m Hm.
    assert (Hmq : Node.lb m <> PyFloat.NaN).
    { apply (numeric_bounds_In queue); [exact Hnum |].
      rewrite Hq. apply in_app_or in Hm. apply in_or_app.
      destruct Hm; [left | right; right]; assumption. }
    apply in_app_or in Hm. destruct Hm as [Hm | Hm].
    + apply PyFloatFacts.lt_le, PyFloatFacts.not_le_lt; auto.
    + apply PyFloatFacts.not_lt_le; auto.
Qed.

(** X6.  Best-first sorts: successive [get_next] calls on a queue whose
    bounds are numbers return every node of the queue once, in
    non-decreasing order of bound. *)
Theorem BestFirstSearch_drain_sorted (queue : list Node) :
  numeric_bounds queue = true ->
  let visited :=
    drain (BestFirstSearch Region X Payload) (List.length queue) queue in
  Permutation queue visited /\
  StronglySorted
    (fun a b : Node => PyFloat.le (Node.lb a) (Node.lb b) = true) visited.
Proof.
  remember (List.length queue) as n eqn:Hn.
  revert queue Hn. induction n as [| n IH]; intros queue Hn Hnum.
  - destruct queue; [| discriminate]. simpl. split; constructor.
  - assert (Hne : queue <> []) by (intros ->; discriminate).
    destruct (BestFirstSearch_get_next_least Hne Hnum)
      as (node & rest & Hget & Hperm & Hleast).
    assert (Hlen : n = List.length rest).
    { apply Permutation_length in Hperm. simpl in Hperm. lia. }
    assert (Hnum' : numeric_bounds rest = true).
    { apply (numeric_bounds_incl queue); [exact Hnum |].
      intros m Hm. apply (Permutation_in _ (Permutation_sym Hperm)).
      right. exact Hm. }
    destruct (IH rest Hlen Hnum') as [Hp Hs].
    cbv zeta. cbn [drain]. rewrite Hget. split.
    + rewrite Hperm. constructor. exact Hp.
    + constructor; [exact Hs |].
      apply Forall_forall. intros m Hm. apply Hleast.
      exact (Permutation_in _ (Permutation_sym Hp) Hm).
Qed.

(** X7.  For each of the five rules of [search.py], [add] puts the node
    at the end of the queue and a [get_next] that returns takes exactly
    the returned occurrence out, the other nodes keeping their order: the
    queue is one node shorter and loses no other node. *)
Theorem shipped_rules_keep_the_queue (randint : Z -> Z -> Z)
        (rule : SearchingRule.t Region X Payload) :
  In rule [BestFirstSearch Region X Payload;
           BreadthFirstSearch Region X Payload;
           DepthFirstSearch Region X Payload;
           WorstFirstSearch Region X Payload;
           RandomSearch Region X Payload randint] ->
  (forall queue node, SearchingRule.add rule queue node = queue ++ [node]) /\
  (forall queue node rest,
      SearchingRule.get_next rule queue = Some (node, rest) ->
      (exists before after,
          queue = before ++ node :: after /\ rest = before ++ after) /\
      List.length queue = S (List.length rest) /\
      Permutation queue (node :: rest)).
Proof.
  intros Hrule.
  assert (Hc : searching_rule_contract rule).
  { simpl in Hrule.
    destruct Hrule as [<- | [<- | [<- | [<- | [<- | []]]]]].
    - apply BestFirstSearch_contract.
    - apply BreadthFirstSearch_contract.
    - apply DepthFirstSearch_contract.
    - apply WorstFirstSearch_contract.
    - apply RandomSearch_contract. }
  destruct Hc as [Hadd Hget]. split; [exact Hadd |].
  intros queue node rest H.
  destruct (Hget _ _ _ H) as (before & after & -> & ->).
  split; [eauto |]. split.
  - rewrite !length_app. simpl. lia.
  - symmetry. apply Permutation_middle.
Qed.

End SearchingRuleFacts.

(* ================================================================== *)
(** * The further properties at work on the stub collaborators *)

Lemma RandomSearch_get_next_draw_witness :
  (Stub.queue_5_2_8_2 <> [] /\
   (0 <= Stub.draw_last 0 3 <= 3)%Z) /\
  SearchingRule.get_next (RandomSearch nat Q Z Stub.draw_last)
                         Stub.queue_5_2_8_2
  = Some (Stub.open_node 4 2,
          [Stub.open_node 1 5; Stub.open_node 2 2; Stub.open_node 3 8]).
Proof.
  split; [split; [discriminate | unfold Stub.draw_last; lia] |].
  destruct (@RandomSearch_get_next_draw nat Q Z Stub.draw_last
              Stub.queue_5_2_8_2)
    as (_ & node & Hnode & Hget);
    [discriminate | unfold Stub.draw_last; simpl; lia |].
  rewrite Hget. vm_compute in Hnode. injection Hnode as <-. reflexivity.
Defined.

Lemma WorstFirstSearch_get_next_max_witness :
  (Stub.queue_5_2_8_2 <> [] /\ numeric_bounds Stub.queue_5_2_8_2 = true) /\
  exists node before after,
    Stub.queue_5_2_8_2 = before ++ node :: after /\
    SearchingRule.get_next (WorstFirstSearch nat Q Z) Stub.queue_5_2_8_2
    = Some (node, before ++ after) /\
    (forall m, In m Stub.queue_5_2_8_2 ->
       PyFloat.le (Node.lb m) (Node.lb node) = true) /\
    (forall m, In m before ->
       PyFloat.lt (Node.lb m) (Node.lb node) = true).
Proof.
  split; [split; [discriminate | reflexivity] |].
  apply (@WorstFirstSearch_get_next_max nat Q Z Stub.queue_5_2_8_2);
    [discriminate | reflexivity].
Defined.

Lemma BestFirstSearch_drain_sorted_witness :
  numeric_bounds Stub.queue_5_2_8_2 = true /\
  drain (BestFirstSearch nat Q Z) 4 Stub.queue_5_2_8_2
  = [Stub.open_node 2 2; Stub.open_node 4 2;
     Stub.open_node 1 5; Stub.open_node 3 8] /\
  StronglySorted
    (fun a b : Stub.Node => PyFloat.le (Node.lb a) (Node.lb b) = true)
    (drain (BestFirstSearch nat Q Z) 4 Stub.queue_5_2_8_2).
Proof.
  split; [reflexivity |]. split; [vm_compute; reflexivity |].
  exact (proj2 (@BestFirstSearch_drain_sorted nat Q Z Stub.queue_5_2_8_2
                  eq_refl)).
Defined.

Lemma shipped_rules_keep_the_queue_witness :
  In (DepthFirstSearch nat Q Z)
     [BestFirstSearch nat Q Z; BreadthFirstSearch nat Q Z;
      DepthFirstSearch nat Q Z; WorstFirstSearch nat Q Z;
      RandomSearch nat Q Z Stub.draw_last] /\
  forall node rest,
    SearchingRule.get_next (DepthFirstSearch nat Q Z) Stub.queue_5_2_8_2
    = Some (node, rest) ->
    List.length Stub.queue_5_2_8_2 = S (List.length rest) /\
    Permutation Stub.queue_5_2_8_2 (node :: rest).
Proof.
  assert (Hin : In (DepthFirstSearch nat Q Z)
                   [BestFirstSearch nat Q Z; BreadthFirstSearch nat Q Z;
                    DepthFirstSearch nat Q Z; WorstFirstSearch nat Q Z;
                    RandomSearch nat Q Z Stub.draw_last])
    by (right; right; left; reflexivity).
  split; [exact Hin |]. intros node rest H.
  destruct (@shipped_rules_keep_the_queue nat Q Z Stub.draw_last _ Hin)
    as [_ Hget].
  destruct (Hget _ _ _ H) as (_ & Hlen & Hperm). split; assumption.
Defined.

Lemma best_ub_never_increases_witness :
  exists o st',
    BnB.best_ub (Stub.Tree.state_after 1) <> PyFloat.NaN /\
    iterate Stub.Tree.self Stub.problem Stub.clock 4
            (Stub.Tree.state_after 1) = Some (o, st') /\
    BnB.best_ub (Stub.Tree.state_after 1) = PyFloat.Fin 7 /\
    BnB.best_ub st' = PyFloat.Fin 3 /\
    PyFloat.le (BnB.best_ub st') (BnB.best_ub (Stub.Tree.state_after 1))
    = true.
Proof.
  destruct (iterate Stub.Tree.self Stub.problem Stub.clock 4
                    (Stub.Tree.state_after 1)) as [[o st'] |] eqn:E;
    [| vm_compute in E; discriminate].
  exists o, st'.
  assert (Hnan : BnB.best_ub (Stub.Tree.state_after 1) <> PyFloat.NaN)
    by (vm_compute; discriminate).
  split; [exact Hnan |]. split; [reflexivity |].
  split; [vm_compute; reflexivity |]. split.
  - pose proof E as E'. vm_compute in E'. injection E' as _ <-. reflexivity.
  - exact (@best_ub_never_increases nat Q Z Stub.Tree.self Stub.problem
             Stub.clock 4 _ _ _ Hnan E).
Defined.

(** Runs [solve] on the stub collaborators and names its result. *)
Ltac run_solve self fuel r E :=
  destruct (BnB.solve self Stub.problem Stub.clock fuel)
    as [r | |] eqn:E;
  [| vm_compute in E; discriminate | vm_compute in E; discriminate].

(** Replaces the result of a call by its value. *)
Ltac eval_solve E :=
  let E' := fresh "E" in
  pose proof E as E'; vm_compute in E'; injection E' as <-.

Lemma result_incumbent_witness :
  exists r,
    BnB.solve Stub.Tree.self Stub.problem Stub.clock 5 = BnB.Returned r /\
    Result.objective_value r = PyFloat.Fin 3 /\
    Result.solution r = Some 3 /\
    Result.objective_value r <> PyFloat.NaN.
Proof.
  run_solve Stub.Tree.self 5%nat r E.
  exists r. split; [reflexivity |].
  destruct (result_incumbent _ _ _ _ E) as (Hnan & _ & _).
  split; [eval_solve E; reflexivity |].
  split; [eval_solve E; reflexivity | exact Hnan].
Defined.

Lemma result_trace_witness :
  exists r,
    BnB.solve Stub.Tree.self Stub.problem Stub.clock 5 = BnB.Returned r /\
    BnB.keeptrace Stub.Tree.self = true /\
    Result.iterations r = 5%Z /\
    List.length (Result.trace r) = 5%nat /\
    map (@TraceRecord.node_count Z) (Result.trace r)
    = [1; 2; 3; 4; 5]%Z.
Proof.
  run_solve Stub.Tree.self 5%nat r E.
  exists r. split; [reflexivity |]. split; [reflexivity |].
  destruct (result_trace _ _ _ _ E) as [_ Hon].
  destruct (Hon eq_refl) as (Hlen & Hnum & _).
  assert (Hit : Result.iterations r = 5%Z) by (eval_solve E; reflexivity).
  rewrite Hit in Hlen, Hnum. split; [exact Hit |].
  split; [exact Hlen | exact Hnum].
Defined.

Lemma get_next_on_nonempty_queue_witness :
  BnB.queue (BnB.initial_state Stub.Tree.self Stub.problem) <> [] /\
  exists v st',
    BnB.iteration Stub.Tree.self Stub.problem Stub.clock
      (BnB.initial_state Stub.Tree.self Stub.problem) = Some (v, st') /\
    BnB.status st' = RUNNING /\
    BnB.queue st' <> [].
Proof.
  assert (Hroot : BnB.queue (BnB.initial_state Stub.Tree.self Stub.problem)
                  <> []) by discriminate.
  split; [exact Hroot |].
  run_pass Stub.Tree.self
           (BnB.initial_state Stub.Tree.self Stub.problem) v st' E.
  exists v, st'. split; [reflexivity |].
  assert (Hrun : BnB.status st' = RUNNING) by (eval_pass E; reflexivity).
  split; [exact Hrun |].
  pose proof (loop_head_next
                (loop_head_init Stub.Tree.self Stub.problem Stub.clock)
                eq_refl E) as Hhead.
  exact (proj1 (@get_next_on_nonempty_queue nat Q Z Stub.Tree.self
                  Stub.problem Stub.clock st' Hroot Hhead Hrun)).
Defined.

Lemma pass_status_witness :
  exists v st',
    BnB.iteration Stub.Tree.self Stub.problem Stub.clock
                  (Stub.Tree.state_after 4) = Some (v, st') /\
    BnB.status (Stub.Tree.state_after 4) = RUNNING /\
    BnB.queue st' = [] /\
    BnB.status st' = OPTIMAL.
Proof.
  run_pass Stub.Tree.self (Stub.Tree.state_after 4) v st' E.
  exists v, st'. split; [reflexivity |]. split; [reflexivity |].
  assert (Hq : BnB.queue st' = []) by (eval_pass E; reflexivity).
  destruct (pass_status _ _ _ _ E eq_refl) as (_ & Hopt & _).
  split; [exact Hq | exact (proj2 Hopt Hq)].
Defined.

Lemma result_status_witness :
  exists r,
    BnB.solve Stub.Tree.self_three_nodes Stub.problem Stub.clock 3
    = BnB.Returned r /\
    Result.status r = ITER_LIMIT /\
    (BnB.node_limit Stub.Tree.self_three_nodes <= Result.iterations r)%Z.
Proof.
  run_solve Stub.Tree.self_three_nodes 3%nat r E.
  exists r. split; [reflexivity |].
  assert (Hst : Result.status r = ITER_LIMIT) by (eval_solve E; reflexivity).
  destruct (result_status _ _ _ _ E) as (_ & _ & Hiter).
  split; [exact Hst | exact (Hiter Hst)].
Defined.

Lemma node_limit_bounds_the_run_witness :
  Z.max 1 (BnB.node_limit Stub.Tree.self_three_nodes) = 3%Z /\
  exists r,
    BnB.solve Stub.Tree.self_three_nodes Stub.problem Stub.clock 3
    = BnB.Returned r /\
    (1 <= Result.iterations r <= 3)%Z.
Proof.
  split; [reflexivity |].
  run_solve Stub.Tree.self_three_nodes 3%nat r E.
  exists r. split; [reflexivity |].
  exact (@node_limit_bounds_the_run nat Q Z Stub.Tree.self_three_nodes
           Stub.problem Stub.clock 3%nat r E).
Defined.

Lemma feasible_node_is_not_branched_witness :
  exists v st' node0 q,
    BnB.iteration Stub.Tree.self Stub.problem Stub.clock
                  (Stub.Tree.state_after 3) = Some (v, st') /\
    SearchingRule.get_next (BnB.searching_rule Stub.Tree.self)
                           (BnB.queue (Stub.Tree.state_after 3))
    = Some (node0, q) /\
    Node.region node0 = 3%nat /\
    (forall n, ~ In (BnB.CallBranch n) (BnB.events v)) /\
    (forall m, In m (BnB.queue st') -> In m q).
Proof.
  run_pass Stub.Tree.self (Stub.Tree.state_after 3) v st' E.
  destruct (SearchingRule.get_next (BnB.searching_rule Stub.Tree.self)
              (BnB.queue (Stub.Tree.state_after 3)))
    as [[node0 q] |] eqn:Hget; [| vm_compute in Hget; discriminate].
  exists v, st', node0, q. split; [reflexivity |]. split; [reflexivity |].
  assert (Hregion : Node.region node0 = 3%nat)
    by (pose proof Hget as G; vm_compute in G; injection G as <- _;
        reflexivity).
  split; [exact Hregion |].
  apply (@feasible_node_is_not_branched nat Q Z Stub.Tree.self Stub.problem
           Stub.clock _ _ _ _ _ E Hget).
  - pose proof Hget as G. vm_compute in G. injection G as <- _. reflexivity.
  - reflexivity.
Defined.


Lemma branching_condition_witness :
  exists v st' node0 q,
    BnB.iteration Stub.Tree.self Stub.problem Stub.clock
                  (Stub.Tree.state_after 0) = Some (v, st') /\
    SearchingRule.get_next (BnB.searching_rule Stub.Tree.self)
                           (BnB.queue (Stub.Tree.state_after 0))
    = Some (node0, q) /\
    BnB.candidate v = Some (Some 7, PyFloat.Fin 7) /\
    (exists before,
        BnB.events v = before ++ [BnB.CallBranch (BnB.node v)] /\
        forall n, ~ In (BnB.CallBranch n) before) /\
    map (@Node.region _ _ _) (BnB.queue st') = [1%nat; 2%nat].
Proof.
  run_pass Stub.Tree.self (Stub.Tree.state_after 0) v st' E.
  destruct (SearchingRule.get_next (BnB.searching_rule Stub.Tree.self)
              (BnB.queue (Stub.Tree.state_after 0)))
    as [[node0 q] |] eqn:Hget; [| vm_compute in Hget; discriminate Hget].
  exists v, st', node0, q. split; [reflexivity |]. split; [reflexivity |].
  assert (Hcand : BnB.candidate v = Some (Some 7, PyFloat.Fin 7))
    by (eval_pass E; reflexivity).
  split; [exact Hcand |].
  destruct (@branching_condition nat Q Z Stub.Tree.self Stub.problem
              Stub.clock _ _ _ _ _ _ _ E Hget Hcand) as [Hyes _].
  destruct Hyes as [Hcall _]; [eval_pass E; reflexivity |].
  split; [exact Hcall |].
  eval_pass E. reflexivity.
Defined.

(* ================================================================== *)
(** * Properties of the MIP instance *)

(** ** Indexing *)

Module NumpyFacts.
Import Numpy.

Lemma position_bound (n : nat) (i : Z) (j : nat) :
  position n i = Some j -> (j < n)%nat.
Proof.
  unfold position.
  destruct ((0 <=? i) && (i <? Z.of_nat n))%Z eqn:E1.
  - apply andb_prop in E1. destruct E1 as [H1 H2].
    apply Z.leb_le in H1. apply Z.ltb_lt in H2.
    intros H. injection H as <-. lia.
  - destruct ((- Z.of_nat n <=? i) && (i <? 0))%Z eqn:E2; [| discriminate].
    apply andb_prop in E2. destruct E2 as [H1 H2].
    apply Z.leb_le in H1. apply Z.ltb_lt in H2.
    intros H. injection H as <-. lia.
Qed.

(** An index designates a position exactly when it is within
    [-n, n). *)
Lemma position_in_range (n : nat) (i : Z) :
  (exists j, position n i = Some j)
  <-> (- Z.of_nat n <= i < Z.of_nat n)%Z.
Proof.
  unfold position.
  destruct ((0 <=? i) && (i <? Z.of_nat n))%Z eqn:E1.
  - apply andb_prop in E1. destruct E1 as [H1 H2].
    apply Z.leb_le in H1. apply Z.ltb_lt in H2.
    split; [intros _; lia | intros _; eexists; reflexivity].
  - destruct ((- Z.of_nat n <=? i) && (i <? 0))%Z eqn:E2.
    + apply andb_prop in E2. destruct E2 as [H1 H2].
      apply Z.leb_le in H1. apply Z.ltb_lt in H2.
      split; [intros _; lia | intros _; eexists; reflexivity].
    + split; [intros [j H]; discriminate | intros Hr; exfalso].
      apply andb_false_iff in E1, E2.
      rewrite Z.leb_gt, Z.ltb_ge in E1, E2. lia.
Qed.

Lemma getitem_position (x : Array) (i : Z) (v : pyfloat) :
  getitem x i = Some v ->
  exists j, position (List.length x) i = Some j /\ nth_error x j = Some v.
Proof.
  unfold getitem. destruct (position (List.length x) i) as [j |];
    [| discriminate].
  intros H. exists j. split; [reflexivity | exact H].
Qed.

Lemma position_getitem (x : Array) (i : Z) (j : nat) :
  position (List.length x) i = Some j ->
  exists v, getitem x i = Some v /\ nth_error x j = Some v.
Proof.
  intros H. unfold getitem. rewrite H.
  pose proof (position_bound _ _ H) as Hlt.
  destruct (nth_error x j) as [v |] eqn:E; [eauto |].
  apply nth_error_None in E. lia.
Qed.

(** The array after an assignment to one position. *)
Lemma replace_nth (x : Array) (j : nat) (v : pyfloat) :
  (j < List.length x)%nat ->
  let x' := firstn j x ++ v :: skipn (S j) x in
  List.length x' = List.length x /\
  nth_error x' j = Some v /\
  forall q, q <> j -> nth_error x' q = nth_error x q.
Proof.
  intros Hlt x'. subst x'.
  assert (Hfirst : List.length (firstn j x) = j)
    by (rewrite length_firstn; lia).
  split; [| split].
  - rewrite length_app.
    change (List.length (v :: skipn (S j) x))
      with (S (List.length (skipn (S j) x))).
    rewrite Hfirst, length_skipn. lia.
  - rewrite nth_error_app2, Hfirst, Nat.sub_diag by lia. reflexivity.
  - intros q Hq. destruct (Nat.lt_ge_cases q j) as [Hlt' | Hge].
    + rewrite nth_error_app1 by lia.
      rewrite nth_error_firstn.
      destruct (Nat.ltb_spec q j); [reflexivity | lia].
    + rewrite nth_error_app2, Hfirst by lia.
      destruct (q - j)%nat as [| d] eqn:Hd; [lia |].
      change (nth_error (v :: skipn (S j) x) (S d))
        with (nth_error (skipn (S j) x) d).
      rewrite nth_error_skipn. f_equal. lia.
Qed.

Lemma setitem_spec (x : Array) (i : Z) (v : pyfloat) (j : nat) :
  position (List.length x) i = Some j ->
  exists x',
    setitem x i v = Some x' /\
    List.length x' = List.length x /\
    nth_error x' j = Some v /\
    forall q, q <> j -> nth_error x' q = nth_error x q.
Proof.
  intros H. unfold setitem. rewrite H.
  eexists. split; [reflexivity |].
  exact (replace_nth x v (position_bound _ _ H)).
Qed.

(** [x[indices]] reads every index. *)
Lemma take_spec (x : Array) (indices : list Z) (vs : Array) :
  take x indices = Some vs ->
  List.length vs = List.length indices /\
  forall k i, nth_error indices k = Some i ->
    exists v, getitem x i = Some v /\ nth_error vs k = Some v.
Proof.
  revert vs. induction indices as [| i rest IH]; intros vs H; simpl in H.
  - injection H as <-. split; [reflexivity |].
    intros [| k] j Hk; discriminate.
  - destruct (getitem x i) as [v |] eqn:Hv; [| discriminate].
    destruct (take x rest) as [vs' |] eqn:Hrest; [| discriminate].
    injection H as <-. destruct (IH _ eq_refl) as [Hlen Hnth].
    split; [simpl; lia |].
    intros [| k] j Hk; simpl in Hk.
    + injection Hk as <-. eauto.
    + exact (Hnth k j Hk).
Qed.

Lemma take_In (x : Array) (indices : list Z) (vs : Array) (i : Z) :
  take x indices = Some vs ->
  In i indices ->
  exists v, getitem x i = Some v /\ In v vs.
Proof.
  intros H Hin. destruct (take_spec _ _ H) as [_ Hnth].
  apply In_nth_error in Hin. destruct Hin as [k Hk].
  destruct (Hnth k i Hk) as (v & Hv & Hvs).
  exists v. split; [exact Hv | exact (nth_error_In _ _ Hvs)].
Qed.

Lemma take_total (x : Array) (indices : list Z) :
  (forall i, In i indices -> exists v, getitem x i = Some v) ->
  exists vs, take x indices = Some vs.
Proof.
  induction indices as [| i rest IH]; intros H; simpl; [eauto |].
  destruct (H i (or_introl eq_refl)) as [v ->].
  destruct IH as [vs ->]; [intros j Hj; apply H; right; exact Hj |].
  eauto.
Qed.

(** [x[indices] = f(x0[indices])] on an array [x] of the length of
    [x0]: the positions designated by the indices hold the image by [f]
    of the entry of [x0], the other ones are those of [x]. *)
Lemma put_map_take (f : pyfloat -> pyfloat) (x0 : Array) :
  forall (indices : list Z) (x vs y : Array),
    List.length x = List.length x0 ->
    take x0 indices = Some vs ->
    put x indices (map f vs) = Some y ->
    List.length y = List.length x0 /\
    (forall i, In i indices ->
       exists p, position (List.length x0) i = Some p /\
                 nth_error y p = option_map f (nth_error x0 p)) /\
    (forall q, (forall i, In i indices ->
                  position (List.length x0) i <> Some q) ->
       nth_error y q = nth_error x q) /\
    (forall q, nth_error x q = option_map f (nth_error x0 q) ->
       nth_error y q = option_map f (nth_error x0 q)).
Proof.
  induction indices as [| i rest IH]; intros x vs y Hlen Htake Hput.
  - simpl in Htake, Hput. injection Hput as <-.
    split; [exact Hlen |]. split; [intros i [] |].
    split; [reflexivity | tauto].
  - simpl in Htake.
    destruct (getitem x0 i) as [v |] eqn:Hv; [| discriminate].
    destruct (take x0 rest) as [vs' |] eqn:Hrest; [| discriminate].
    injection Htake as <-.
    destruct (getitem_position _ _ Hv) as (p & Hp & Hnth).
    assert (Hp' : position (List.length x) i = Some p)
      by (rewrite Hlen; exact Hp).
    destruct (setitem_spec x i (f v) Hp') as (x' & Hset & Hlen' & Hat & Hoff).
    change (put x (i :: rest) (map f (v :: vs')))
      with (x'' <- setitem x i (f v) ;; put x'' rest (map f vs')) in Hput.
    rewrite Hset in Hput.
    destruct (IH x' vs' y (eq_trans Hlen' Hlen) eq_refl Hput)
      as (Hleny & Hin & Hout & Hkeep).
    assert (Hpy : nth_error y p = option_map f (nth_error x0 p)).
    { apply Hkeep. rewrite Hat, Hnth. reflexivity. }
    split; [exact Hleny |]. split; [| split].
    + intros j [<- | Hj]; [exists p; split; assumption | exact (Hin j Hj)].
    + intros q Hq. rewrite Hout by (intros j Hj; apply Hq; right; exact Hj).
      apply Hoff. intros ->. exact (Hq i (or_introl eq_refl) Hp).
    + intros q Hq. destruct (Nat.eq_dec q p) as [-> | Hne];
        [exact Hpy |].
      apply Hkeep. rewrite (Hoff q Hne). exact Hq.
Qed.

(** Clipping to [0, 1]. *)
Lemma clip01_cases (v : pyfloat) :
  (v = PyFloat.NaN /\ clip01 v = PyFloat.NaN) \/
  (exists q, clip01 v = PyFloat.Fin q /\ 0 <= q <= 1 /\
             forall u, v = PyFloat.Fin u ->
               (u < 0 /\ q == 0) \/ (1 < u /\ q == 1) \/
               (0 <= u <= 1 /\ q == u)).
Proof.
  destruct v as [| | u |]; simpl.
  - left. split; reflexivity.
  - right. exists 0. split; [reflexivity |].
    split; [lra | intros u; discriminate].
  - right. destruct (Qcompare_spec u 0) as [E0 | E0 | E0].
    + destruct (Qcompare_spec u 1) as [E1 | E1 | E1]; try lra.
      exists u. split; [reflexivity |]. split; [lra |].
      intros w Hw. injection Hw as <-. right. right. split; lra.
    + exists 0. split; [reflexivity |]. split; [lra |].
      intros w Hw. injection Hw as <-. left. split; lra.
    + destruct (Qcompare_spec u 1) as [E1 | E1 | E1].
      * exists u. split; [reflexivity |]. split; [lra |].
        intros w Hw. injection Hw as <-. right. right. split; lra.
      * exists u. split; [reflexivity |]. split; [lra |].
        intros w Hw. injection Hw as <-. right. right. split; lra.
      * exists 1. split; [reflexivity |]. split; [lra |].
        intros w Hw. injection Hw as <-. right. left. split; lra.
  - right. exists 1. split; [reflexivity |].
    split; [lra | intros u; discriminate].
Qed.

(** Rounding returns a nearest integer. *)
Lemma round_half_even_nearest (q : Q) :
  Qabs (inject_Z (round_half_even q) - q) <= 1 # 2.
Proof. exact (PyFloatFacts.rint_nearest q). Qed.

(** On [0, 1], rounding returns 0 or 1. *)
Lemma round_half_even_unit (q : Q) :
  0 <= q <= 1 ->
  (round_half_even q = 0 \/ round_half_even q = 1)%Z.
Proof.
  intros [H0 H1]. unfold round_half_even, PyFloat.rint.
  pose proof (Qfloor_le q) as Hlo. pose proof (Qlt_floor q) as Hhi.
  assert (Hf : (Qfloor q = 0 \/ Qfloor q = 1)%Z).
  { assert (Hle : (Qfloor q <= 1)%Z)
      by (rewrite Zle_Qle; change (inject_Z 1) with 1; lra).
    assert (Hge : (0 < Qfloor q + 1)%Z)
      by (rewrite Zlt_Qlt; change (inject_Z 0) with 0; lra).
    lia. }
  destruct Hf as [Hf | Hf]; rewrite Hf in *.
  - destruct (_ ?= _); simpl; tauto.
  - change (inject_Z 1) with 1 in *.
    destruct (Qcompare_spec (q - 1) (1 # 2)) as [E | E | E]; try lra.
    tauto.
Qed.

(** [np.round(np.clip(v, 0.0, 1.0))]: NaN for NaN, and otherwise that of
    0 and 1 which is nearest to [v]. *)
Lemma round_clip01 (v : pyfloat) :
  (v = PyFloat.NaN /\ round (clip01 v) = PyFloat.NaN) \/
  (exists r, round (clip01 v) = PyFloat.Fin (inject_Z r) /\
             (r = 0 \/ r = 1)%Z /\
             forall u, v = PyFloat.Fin u -> nearest_binary u r).
Proof.
  destruct (clip01_cases v) as [[-> _] | (q & Hq & Hunit & Hcases)].
  - left. split; reflexivity.
  - right. rewrite Hq. exists (round_half_even q).
    split; [reflexivity |].
    pose proof (round_half_even_unit Hunit) as Hr.
    split; [exact Hr |].
    intros u Hu. split; [exact Hr |].
    pose proof (round_half_even_nearest q) as Hnear.
    apply Qabs_Qle_condition in Hnear.
    destruct (Hcases u Hu) as [[Hneg E] | [[Hpos E] | [Hin E]]].
    + assert (round_half_even q = 0%Z) as ->.
      { destruct Hr as [Hr | Hr]; [exact Hr | exfalso].
        rewrite Hr in Hnear. change (inject_Z 1) with 1 in Hnear. lra. }
      change (inject_Z 0) with 0.
      split; [apply Qle_refl |].
      apply Qabs_case; intros; apply Qabs_case; intros; lra.
    + assert (round_half_even q = 1%Z) as ->.
      { destruct Hr as [Hr | Hr]; [exfalso | exact Hr].
        rewrite Hr in Hnear. change (inject_Z 0) with 0 in Hnear. lra. }
      change (inject_Z 1) with 1.
      split; [| apply Qle_refl].
      apply Qabs_case; intros; apply Qabs_case; intros; lra.
    + destruct Hr as [Hr | Hr]; rewrite Hr in *.
      * change (inject_Z 0) with 0 in *.
        split; [apply Qle_refl |].
        apply Qabs_case; intros; apply Qabs_case; intros; lra.
      * change (inject_Z 1) with 1 in *.
        split; [| apply Qle_refl].
        apply Qabs_case; intros; apply Qabs_case; intros; lra.
Qed.

Lemma round_clip01_binary (v : pyfloat) :
  v <> PyFloat.NaN -> is_binary (round (clip01 v)) = true.
Proof.
  intros Hv. destruct (round_clip01 v) as [[E _] | (r & -> & [-> | ->] & _)];
    [contradiction | reflexivity | reflexivity].
Qed.

End NumpyFacts.

(** ** [MIPBranchingRule.branch] *)

Section MIPBranchingFacts.
Variable Payload : Type.
Local Abbreviation Node := (Node.t MIPRegion.t Numpy.Array Payload).

Lemma keys_spec (x : Numpy.Array) (items : list Z)
      (ks : list (Z * pyfloat)) :
  MIPBranchingRule.keys x items = Some ks ->
  map fst ks = items /\
  forall p, In p ks ->
    MIPBranchingRule.fractionality x (fst p) = Some (snd p).
Proof.
  revert ks. induction items as [| i rest IH]; intros ks H; simpl in H.
  - injection H as <-. split; [reflexivity | intros p []].
  - destruct (MIPBranchingRule.fractionality x i) as [k |] eqn:Hk;
      [| discriminate].
    destruct (MIPBranchingRule.keys x rest) as [ks' |] eqn:Hrest;
      [| discriminate].
    injection H as <-. destruct (IH _ eq_refl) as [Hfst Hkeys].
    split; [simpl; rewrite Hfst; reflexivity |].
    intros p [<- | Hp]; [exact Hk | exact (Hkeys p Hp)].
Qed.

Lemma keys_total (x : Numpy.Array) (items : list Z) :
  (forall i, In i items -> exists v, Numpy.getitem x i = Some v) ->
  exists ks, MIPBranchingRule.keys x items = Some ks.
Proof.
  induction items as [| i rest IH]; intros H; simpl; [eauto |].
  unfold MIPBranchingRule.fractionality.
  destruct (H i (or_introl eq_refl)) as [v ->].
  destruct IH as [ks ->]; [intros j Hj; apply H; right; exact Hj |].
  eauto.
Qed.

(** What [sorted(...)[0]] returns: an item whose key no item has a key
    strictly below. *)
Lemma sorted_first_returns (x : option Numpy.Array) (items : list Z)
      (i : Z) :
  MIPBranchingRule.sorted_first x items = Returns i ->
  exists a ki,
    x = Some a /\
    In i items /\
    MIPBranchingRule.fractionality a i = Some ki /\
    forall j, In j items ->
      exists kj, MIPBranchingRule.fractionality a j = Some kj /\
                 PyFloat.lt kj ki = false.
Proof.
  unfold MIPBranchingRule.sorted_first.
  destruct x as [a |]; [| discriminate].
  destruct (MIPBranchingRule.keys a items) as [ks |] eqn:Hks;
    [| discriminate].
  destruct (keys_spec _ _ Hks) as [Hfst Hkeys].
  assert (Hitems : forall j, In j items ->
            exists p, In p ks /\ fst p = j).
  { intros j Hj. rewrite <- Hfst in Hj. apply in_map_iff in Hj.
    destruct Hj as (p & E & Hp). eauto. }
  destruct ks as [| first others]; [discriminate |].
  assert (Hmin : forall p : Z * pyfloat,
             In p (first :: others) ->
             (forall m, In m (first :: others) ->
                        PyFloat.lt (snd m) (snd p) = false) ->
             Returns (fst p) = Returns i ->
             exists a0 ki,
               Some a = Some a0 /\
               In i items /\
               MIPBranchingRule.fractionality a0 i = Some ki /\
               forall j, In j items ->
                 exists kj, MIPBranchingRule.fractionality a0 j = Some kj /\
                            PyFloat.lt kj ki = false).
  { intros p Hp Hleast E. injection E as <-.
    exists a, (snd p). split; [reflexivity |]. split.
    - rewrite <- Hfst. apply in_map. exact Hp.
    - split; [exact (Hkeys p Hp) |].
      intros j Hj. destruct (Hitems j Hj) as (m & Hm & <-).
      exists (snd m). split; [exact (Hkeys m Hm) | exact (Hleast m Hm)]. }
  destruct first as [i0 k0]. set (first := (i0, k0)) in *.
  destruct others as [| second others].
  - intros E.
    apply (Hmin first); [left; reflexivity | | exact E].
    intros m [<- | []]. apply PyFloatFacts.lt_irrefl.
  - cbv iota beta.
    destruct (existsb (fun p : Z * pyfloat => PyFloat.is_nan (snd p))
                      (first :: second :: others));
      [intros E; discriminate E |].
    intros E.
    apply (Hmin (py_min_key_from (fun p : Z * pyfloat => snd p) first
                                 (second :: others))); [| | exact E].
    + apply py_min_key_from_In.
    + intros m Hm.
      exact (py_min_key_from_minimal (fun p : Z * pyfloat => snd p) Hm).
Qed.

(** On an array that holds a number at every item, [sorted(...)[0]]
    returns. *)
Lemma sorted_first_total (a : Numpy.Array) (items : list Z) :
  items <> [] ->
  (forall i, In i items ->
     exists v, Numpy.getitem a i = Some v /\ v <> PyFloat.NaN) ->
  exists i, MIPBranchingRule.sorted_first (Some a) items = Returns i.
Proof.
  intros Hne Hnum. unfold MIPBranchingRule.sorted_first.
  destruct (keys_total a items) as [ks Hks].
  { intros i Hi. destruct (Hnum i Hi) as (v & Hv & _). eauto. }
  rewrite Hks. destruct (keys_spec _ _ Hks) as [Hfst Hkeys].
  destruct ks as [| first others];
    [destruct items; [congruence | discriminate] |].
  destruct first as [i0 k0]. set (first := (i0, k0)) in *.
  destruct others as [| second others]; [eauto |].
  assert (Hnan : existsb (fun p : Z * pyfloat => PyFloat.is_nan (snd p))
                         (first :: second :: others) = false).
  { apply not_true_is_false. intros E. apply existsb_exists in E.
    destruct E as (p & Hp & Hk).
    pose proof (Hkeys p Hp) as Hf.
    assert (Hi : In (fst p) items)
      by (rewrite <- Hfst; apply in_map; exact Hp).
    destruct (Hnum _ Hi) as (v & Hv & Hv').
    unfold MIPBranchingRule.fractionality in Hf. rewrite Hv in Hf.
    injection Hf as Hf. rewrite <- Hf in Hk.
    destruct v as [| | q |]; cbn [PyFloat.sub] in Hk;
      try (simpl in Hk; congruence).
    pose proof (@PyFloatFacts.round64_not_nan (q - (1 # 2))) as Hr.
    destruct (PyFloat.round64 (q - (1 # 2))); simpl in Hk; congruence. }
  rewrite Hnan. eauto.
Qed.

(** The two ways in which [branch] returns. *)
Lemma branch_returns (self : MIPBranchingRule.t) (node : Node)
      (children : list Node) :
  MIPBranchingRule.branch self node = Returns children ->
  let zero := MIPRegion.integers_to_zero (Node.region node) in
  let one := MIPRegion.integers_to_one (Node.region node) in
  (children = [] /\
   List.length (MIPBranchingRule.integers self)
   = (List.length zero + List.length one)%nat) \/
  (List.length (MIPBranchingRule.integers self)
   <> (List.length zero + List.length one)%nat /\
   exists i x x0 x1,
     MIPBranchingRule.sorted_first (Node.x node)
       (MIPBranchingRule.free_order self
          (MIPBranchingRule.integers self) zero one) = Returns i /\
     Node.x node = Some x /\
     Numpy.setitem x i (PyFloat.Fin 0) = Some x0 /\
     Numpy.setitem x i (PyFloat.Fin 1) = Some x1 /\
     children
     = [Node.init {| MIPRegion.integers_to_zero := zero ++ [i];
                     MIPRegion.integers_to_one := one |}
                  (Node.level node + 1)%Z (Some x0) (Node.lb node);
        Node.init {| MIPRegion.integers_to_zero := zero;
                     MIPRegion.integers_to_one := one ++ [i] |}
                  (Node.level node + 1)%Z (Some x1) (Node.lb node)]).
Proof.
  intros H zero one. unfold MIPBranchingRule.branch in H.
  fold zero one in H.
  destruct (Nat.eqb_spec (List.length (MIPBranchingRule.integers self))
                         (List.length zero + List.length one)) as [E | E].
  - left. injection H as <-. split; [reflexivity | exact E].
  - right. split; [exact E |].
    destruct (MIPBranchingRule.sorted_first (Node.x node) _)
      as [i | |] eqn:Hsel; try discriminate.
    destruct (Node.x node) as [x |] eqn:Hx; [| discriminate].
    destruct (Numpy.setitem x i (PyFloat.Fin 0)) as [x0 |] eqn:H0;
      [| discriminate].
    destruct (Numpy.setitem x i (PyFloat.Fin 1)) as [x1 |] eqn:H1;
      [| discriminate].
    injection H as <-. exists i, x, x0, x1.
    repeat split; assumption.
Qed.

(** X18.  When [MIPBranchingRule.branch] returns on keys that [sorted]
    can order (one free index, or no NaN among the entries of the free
    indices), it returns no child exactly when the region fixes as many
    indices as the problem has integer indices, and two children
    otherwise.  The two children split on one index [i]: an integer index
    of the problem that the region does not fix, such that no such index
    has a key [abs(node.x[j] - 0.5)], the difference rounded as a float,
    strictly below the key of [i].  They are one level below the node,
    inherit its bound, fix [i] to 0 and to 1 on top of what the node
    fixes, and carry the point of the node with the entry [i] set to 0
    and to 1, the other entries unchanged. *)
Theorem MIP_branch_children (self : MIPBranchingRule.t) (node : Node)
        (children : list Node) :
  iterates_free_indices (MIPBranchingRule.free_order self) ->
  MIPBranchingRule.branch self node = Returns children ->
  let integers := MIPBranchingRule.integers self in
  let zero := MIPRegion.integers_to_zero (Node.region node) in
  let one := MIPRegion.integers_to_one (Node.region node) in
  (children = [] /\
   List.length integers = (List.length zero + List.length one)%nat) \/
  (List.length integers <> (List.length zero + List.length one)%nat /\
   exists i x x0 x1 ki p,
     Node.x node = Some x /\
     (In i integers /\ ~ In i zero /\ ~ In i one) /\
     MIPBranchingRule.fractionality x i = Some ki /\
     (forall j, In j integers -> ~ In j zero -> ~ In j one ->
        exists kj, MIPBranchingRule.fractionality x j = Some kj /\
                   PyFloat.lt kj ki = false) /\
     Numpy.position (List.length x) i = Some p /\
     (nth_error x0 p = Some (PyFloat.Fin 0) /\
      nth_error x1 p = Some (PyFloat.Fin 1) /\
      forall q, q <> p ->
        nth_error x0 q = nth_error x q /\ nth_error x1 q = nth_error x q) /\
     children
     = [Node.init {| MIPRegion.integers_to_zero := zero ++ [i];
                     MIPRegion.integers_to_one := one |}
                  (Node.level node + 1)%Z (Some x0) (Node.lb node);
        Node.init {| MIPRegion.integers_to_zero := zero;
                     MIPRegion.integers_to_one := one ++ [i] |}
                  (Node.level node + 1)%Z (Some x1) (Node.lb node)]).
Proof.
  intros Horder H integers zero one.
  destruct (branch_returns _ _ H)
    as [Hleaf | (Hne & i & x & x0 & x1 & Hsel & Hx & H0 & H1 & Hch)];
    [left; exact Hleaf | right].
  split; [exact Hne |].
  destruct (sorted_first_returns _ _ Hsel)
    as (a & ki & Ha & Hi & Hki & Hleast).
  rewrite Hx in Ha. injection Ha as <-.
  destruct (Horder integers zero one) as [_ Hfree].
  unfold MIPBranchingRule.fractionality in Hki.
  destruct (Numpy.getitem x i) as [v |] eqn:Hv; [| discriminate].
  destruct (NumpyFacts.getitem_position _ _ Hv) as (p & Hp & _).
  destruct (NumpyFacts.setitem_spec x i (PyFloat.Fin 0) Hp)
    as (y0 & E0 & _ & Hp0 & Hq0).
  destruct (NumpyFacts.setitem_spec x i (PyFloat.Fin 1) Hp)
    as (y1 & E1 & _ & Hp1 & Hq1).
  rewrite H0 in E0. injection E0 as <-.
  rewrite H1 in E1. injection E1 as <-.
  exists i, x, x0, x1, ki, p.
  split; [exact Hx |]. split; [apply Hfree; exact Hi |].
  split; [unfold MIPBranchingRule.fractionality; rewrite Hv; exact Hki |].
  split.
  - intros j Hj Hjz Hjo. apply Hleast. apply Hfree. repeat split; assumption.
  - split; [exact Hp |]. split; [| exact Hch].
    split; [exact Hp0 |]. split; [exact Hp1 |].
    intros q Hq. split; [exact (Hq0 q Hq) | exact (Hq1 q Hq)].
Qed.

(** Among distinct integers, a shorter list misses one. *)
Lemma missing_index (integers fixed : list Z) :
  NoDup integers ->
  (List.length fixed < List.length integers)%nat ->
  exists i, In i integers /\ ~ In i fixed.
Proof.
  intros Hnd Hlen.
  destruct (Exists_dec (fun i => ~ In i fixed) integers) as [Hex | Hno].
  - intros i. destruct (in_dec Z.eq_dec i fixed); [right | left]; tauto.
  - apply Exists_exists in Hex. exact Hex.
  - exfalso.
    assert (Hrev : incl integers fixed).
    { intros i Hi. destruct (in_dec Z.eq_dec i fixed) as [Hin | Hout];
        [exact Hin |].
      exfalso. apply Hno. apply Exists_exists. eauto. }
    pose proof (NoDup_incl_length Hnd Hrev). lia.
Qed.

Lemma fixes_its_level_bound (integers : list Z) (node : Node) :
  fixes_its_level integers node ->
  (List.length (MIPRegion.integers_to_zero (Node.region node))
   + List.length (MIPRegion.integers_to_one (Node.region node))
   <= List.length integers)%nat.
Proof.
  intros (Hnd & Hincl & _). rewrite <- length_app.
  apply NoDup_incl_length; [exact Hnd | exact Hincl].
Qed.

(** A node that fixes one more index is one level down. *)
Lemma fixes_one_more (integers : list Z) (node child : Node) (i : Z) :
  fixes_its_level integers node ->
  In i integers ->
  ~ In i (MIPRegion.integers_to_zero (Node.region node)) ->
  ~ In i (MIPRegion.integers_to_one (Node.region node)) ->
  Permutation
    (i :: MIPRegion.integers_to_zero (Node.region node)
       ++ MIPRegion.integers_to_one (Node.region node))
    (MIPRegion.integers_to_zero (Node.region child)
       ++ MIPRegion.integers_to_one (Node.region child)) ->
  Node.level child = (Node.level node + 1)%Z ->
  fixes_its_level integers child.
Proof.
  intros (Hnd & Hincl & Hlevel) Hi Hz Ho Hperm Hchild.
  unfold fixes_its_level. split; [| split].
  - apply (Permutation_NoDup Hperm). constructor; [| exact Hnd].
    intros Hin. apply in_app_or in Hin. tauto.
  - intros j Hj. apply (Permutation_in _ (Permutation_sym Hperm)) in Hj.
    destruct Hj as [<- | Hj]; [exact Hi | exact (Hincl j Hj)].
  - rewrite Hchild, Hlevel, <- (Permutation_length Hperm). simpl. lia.
Qed.

(** X19.  In the tree of a problem with distinct integer indices, on a
    node that fixes distinct integer indices, as many as its level:
    the level is at most the number of integer indices; [branch]
    returns no child exactly when the level is that number; the
    children it returns are nodes of the same kind, one level down; and on
    a point that holds a number at every integer index [branch] does
    return. *)
Theorem MIP_branch_levels (self : MIPBranchingRule.t) (node : Node) :
  let integers := MIPBranchingRule.integers self in
  NoDup integers ->
  iterates_free_indices (MIPBranchingRule.free_order self) ->
  fixes_its_level integers node ->
  (Node.level node <= Z.of_nat (List.length integers))%Z /\
  (MIPBranchingRule.branch self node = Returns []
   <-> Node.level node = Z.of_nat (List.length integers)) /\
  (forall children,
     MIPBranchingRule.branch self node = Returns children ->
     forall child, In child children ->
       fixes_its_level integers child /\
       Node.level child = (Node.level node + 1)%Z /\
       Node.status child = OPEN) /\
  (forall x,
     Node.x node = Some x ->
     (forall i, In i integers ->
        exists v, Numpy.getitem x i = Some v /\ v <> PyFloat.NaN) ->
     exists children, MIPBranchingRule.branch self node = Returns children).
Proof.
  intros integers Hnd Horder Hnode.
  pose proof (fixes_its_level_bound Hnode) as Hbound.
  pose proof Hnode as (_ & _ & Hlevel). rewrite length_app in Hlevel.
  set (zero := MIPRegion.integers_to_zero (Node.region node)) in *.
  set (one := MIPRegion.integers_to_one (Node.region node)) in *.
  destruct (Horder integers zero one) as [_ Hfree].
  split; [lia |]. split; [| split].
  - split.
    + intros H. destruct (branch_returns _ _ H)
        as [[_ E] | (_ & i & x & x0 & x1 & _ & _ & _ & _ & Hch)];
        [| discriminate].
      fold integers zero one in E. lia.
    + intros E. unfold MIPBranchingRule.branch. fold integers zero one.
      replace (List.length integers =? List.length zero + List.length one)%nat
        with true; [reflexivity |].
      symmetry. apply Nat.eqb_eq. lia.
  - intros children H child Hchild.
    destruct (branch_returns _ _ H)
      as [[-> _] | (_ & i & x & x0 & x1 & Hsel & _ & _ & _ & ->)];
      [destruct Hchild |].
    fold integers zero one in Hsel.
    destruct (sorted_first_returns _ _ Hsel) as (_ & _ & _ & Hi & _).
    apply Hfree in Hi. destruct Hi as (Hi & Hz & Ho).
    destruct Hchild as [<- | [<- | []]].
    + split; [| split; reflexivity].
      apply (@fixes_one_more integers node _ i Hnode Hi Hz Ho);
        [| reflexivity].
      simpl. fold zero one. rewrite <- app_assoc. simpl.
      apply Permutation_middle.
    + split; [| split; reflexivity].
      apply (@fixes_one_more integers node _ i Hnode Hi Hz Ho);
        [| reflexivity].
      simpl. fold zero one. rewrite app_assoc.
      apply Permutation_cons_append.
  - intros x Hx Hnum. unfold MIPBranchingRule.branch.
    fold integers zero one.
    destruct (Nat.eqb_spec (List.length integers)
                           (List.length zero + List.length one)) as [E | E];
      [eauto |].
    destruct (@missing_index integers (zero ++ one) Hnd) as (i & Hi & Hout).
    { rewrite length_app. lia. }
    rewrite Hx.
    destruct (@sorted_first_total x
                (MIPBranchingRule.free_order self integers zero one))
      as [j Hj].
    + intros Hnil.
      assert (Hin : In i (MIPBranchingRule.free_order self integers
                                                      zero one)).
      { apply Hfree. split; [exact Hi |].
        split; intros Hin; apply Hout; apply in_or_app; tauto. }
      rewrite Hnil in Hin. destruct Hin.
    + intros k Hk. apply Hfree in Hk. apply Hnum. apply Hk.
    + rewrite Hj.
      destruct (sorted_first_returns _ _ Hj) as (a & kj & Ha & Hjin & Hkj & _).
      injection Ha as <-.
      unfold MIPBranchingRule.fractionality in Hkj.
      destruct (Numpy.getitem x j) as [v |] eqn:Hv; [| discriminate].
      destruct (NumpyFacts.getitem_position _ _ Hv) as (p & Hp & _).
      destruct (NumpyFacts.setitem_spec x j (PyFloat.Fin 0) Hp)
        as (y0 & -> & _).
      destruct (NumpyFacts.setitem_spec x j (PyFloat.Fin 1) Hp)
        as (y1 & -> & _).
      eauto.
Qed.

End MIPBranchingFacts.

(** ** [MIPUpperBoundingMethod.bound] *)

Section MIPUpperBoundFacts.
Variable Payload : Type.
Local Abbreviation Node := (Node.t MIPRegion.t Numpy.Array Payload).

(** The constraints handed to the solver: one per integer index, in the
    order of the list, on the entry of the point of the node. *)
Lemma integer_constraints_spec (x : option Numpy.Array) (indices : list Z)
      (cs : list (Z * pyfloat)) :
  MIPUpperBoundingMethod.integer_constraints x indices = Some cs ->
  map fst cs = indices /\
  forall i c, In (i, c) cs ->
    exists a v, x = Some a /\ Numpy.getitem a i = Some v /\
                c = Numpy.round (Numpy.clip01 v).
Proof.
  revert cs. induction indices as [| i rest IH]; intros cs H; simpl in H.
  - injection H as <-. split; [reflexivity | intros i c []].
  - destruct x as [a |] eqn:Hx; [| discriminate].
    destruct (Numpy.getitem a i) as [v |] eqn:Hv; [| discriminate].
    destruct (MIPUpperBoundingMethod.integer_constraints (Some a) rest)
      as [cs' |] eqn:Hrest; [| discriminate].
    injection H as <-. destruct (IH _ eq_refl) as [Hfst Hin].
    split; [simpl; rewrite Hfst; reflexivity |].
    intros j c [E | Hj]; [| exact (Hin j c Hj)].
    injection E as <- <-. exists a, v. repeat split. exact Hv.
Qed.

(** The point returned by [bound], position by position, from the point
    [src] that is clipped and rounded. *)
Lemma bound_inv (self : MIPUpperBoundingMethod.t) (node : Node)
      (y : Numpy.Array) :
  MIPUpperBoundingMethod.bound self node = Some y ->
  exists cs src,
    MIPUpperBoundingMethod.integer_constraints
      (Node.x node) (MIPUpperBoundingMethod.integers self) = Some cs /\
    (if fst (MIPUpperBoundingMethod.solve_fixed self cs)
     then snd (MIPUpperBoundingMethod.solve_fixed self cs) = src
     else Node.x node = Some src) /\
    List.length y = List.length src /\
    (forall i, In i (MIPUpperBoundingMethod.integers self) ->
       exists p v,
         Numpy.position (List.length src) i = Some p /\
         nth_error src p = Some v /\
         nth_error y p = Some (Numpy.round (Numpy.clip01 v))) /\
    (forall q,
       (forall i, In i (MIPUpperBoundingMethod.integers self) ->
          Numpy.position (List.length src) i <> Some q) ->
       nth_error y q = nth_error src q).
Proof.
  unfold MIPUpperBoundingMethod.bound. intros H.
  destruct (MIPUpperBoundingMethod.integer_constraints _ _)
    as [cs |] eqn:Hcs; [| discriminate].
  destruct (MIPUpperBoundingMethod.solve_fixed self cs)
    as [optimal solution] eqn:Hsol.
  destruct (if optimal then Some solution else Node.x node)
    as [src |] eqn:Hsrc; [| discriminate].
  destruct (Numpy.take src _) as [clipped |] eqn:Htake1; [| discriminate].
  destruct (Numpy.put src _ _) as [x1 |] eqn:Hput1; [| discriminate].
  destruct (Numpy.take x1 _) as [rounded |] eqn:Htake2; [| discriminate].
  destruct (NumpyFacts.put_map_take Numpy.clip01 src _ src eq_refl
              Htake1 Hput1) as (Hlen1 & Hin1 & Hout1 & _).
  destruct (NumpyFacts.put_map_take Numpy.round x1 _ x1 eq_refl
              Htake2 H) as (Hlen2 & Hin2 & Hout2 & _).
  rewrite Hlen1 in Hin2, Hout2.
  exists cs, src. split; [reflexivity |]. split.
  - rewrite Hsol. simpl. destruct optimal; simpl; congruence.
  - split; [congruence |]. split.
    + intros i Hi. destruct (Hin1 i Hi) as (p & Hp & Hx1).
      destruct (Hin2 i Hi) as (p' & Hp' & Hy).
      assert (p' = p) as -> by congruence.
      pose proof (NumpyFacts.position_bound _ _ Hp) as Hlt.
      destruct (nth_error src p) as [v |] eqn:Hv;
        [| apply nth_error_None in Hv; lia].
      exists p, v. split; [exact Hp |]. split; [exact Hv |].
      rewrite Hy, Hx1. reflexivity.
    + intros q Hq. rewrite (Hout2 q Hq). exact (Hout1 q Hq).
Qed.

(** X20.  The point returned by [MIPUpperBoundingMethod.bound] is made
    from the solution of the solver when it reports "optimal", and from
    the point of the node otherwise.  It has the length of that point;
    at each integer index of the problem it holds the entry of that
    point clipped to [0, 1] and rounded, that is NaN for NaN and
    otherwise that of 0 and 1 which is nearest to a finite entry (0 for
    one half); every position that no integer index designates is
    unchanged.  The solver is called with one constraint per integer
    index, in the order of the list. *)
Theorem MIP_upper_bound_rounds (self : MIPUpperBoundingMethod.t)
        (node : Node) (y : Numpy.Array) :
  MIPUpperBoundingMethod.bound self node = Some y ->
  let integers := MIPUpperBoundingMethod.integers self in
  exists cs src,
    MIPUpperBoundingMethod.integer_constraints (Node.x node) integers
    = Some cs /\
    map fst cs = integers /\
    (if fst (MIPUpperBoundingMethod.solve_fixed self cs)
     then snd (MIPUpperBoundingMethod.solve_fixed self cs) = src
     else Node.x node = Some src) /\
    List.length y = List.length src /\
    (forall i, In i integers ->
       exists v,
         Numpy.getitem src i = Some v /\
         Numpy.getitem y i = Some (Numpy.round (Numpy.clip01 v)) /\
         (v = PyFloat.NaN -> Numpy.getitem y i = Some PyFloat.NaN) /\
         (forall u, v = PyFloat.Fin u ->
            exists r, Numpy.getitem y i = Some (PyFloat.Fin (inject_Z r)) /\
                      nearest_binary u r)) /\
    (forall q,
       (forall i, In i integers ->
          Numpy.position (List.length src) i <> Some q) ->
       nth_error y q = nth_error src q).
Proof.
  intros H integers.
  destruct (bound_inv _ _ H) as (cs & src & Hcs & Hsrc & Hlen & Hin & Hout).
  fold integers in Hcs, Hin, Hout.
  exists cs, src. split; [exact Hcs |].
  split; [exact (proj1 (integer_constraints_spec _ _ Hcs)) |].
  split; [exact Hsrc |]. split; [exact Hlen |]. split; [| exact Hout].
  intros i Hi. destruct (Hin i Hi) as (p & v & Hp & Hv & Hy).
  assert (Hgy : Numpy.getitem y i = Some (Numpy.round (Numpy.clip01 v))).
  { unfold Numpy.getitem. rewrite Hlen, Hp. exact Hy. }
  exists v. split; [unfold Numpy.getitem; rewrite Hp; exact Hv |].
  split; [exact Hgy |]. split.
  - intros ->. exact Hgy.
  - intros u ->. rewrite Hgy.
    destruct (NumpyFacts.round_clip01 (PyFloat.Fin u))
      as [[E _] | (r & -> & _ & Hnear)]; [discriminate |].
    exists r. split; [reflexivity | exact (Hnear u eq_refl)].
Qed.

(** X21.  When [MIPUpperBoundingMethod.bound] returns a point, the
    point has the length of the point it was made from (the solution of
    the solver when it reports "optimal", the point of the node
    otherwise), its entries at the integer indices of the problem can be
    read, and they pass the test [cbin] of [MIP.is_feasible], all of them
    being 0 or 1, exactly when the point it was made from holds no NaN
    at an integer index. *)
Theorem MIP_upper_bound_integral (self : MIPUpperBoundingMethod.t)
        (node : Node) (y : Numpy.Array) :
  MIPUpperBoundingMethod.bound self node = Some y ->
  let integers := MIPUpperBoundingMethod.integers self in
  exists cs src ys,
    MIPUpperBoundingMethod.integer_constraints (Node.x node) integers
    = Some cs /\
    (if fst (MIPUpperBoundingMethod.solve_fixed self cs)
     then snd (MIPUpperBoundingMethod.solve_fixed self cs) = src
     else Node.x node = Some src) /\
    List.length y = List.length src /\
    Numpy.take y integers = Some ys /\
    (forallb Numpy.is_binary ys = true <->
     forall i, In i integers -> Numpy.getitem src i <> Some PyFloat.NaN).
Proof.
  intros Hy integers.
  destruct (bound_inv _ _ Hy) as (cs & src & Hcs & Hsrc & Hlen & Hin & _).
  fold integers in Hcs, Hin.
  assert (Hget : forall i, In i integers ->
            exists v, Numpy.getitem src i = Some v /\
                      Numpy.getitem y i
                      = Some (Numpy.round (Numpy.clip01 v))).
  { intros i Hi. destruct (Hin i Hi) as (p & v & Hp & Hv & Hyp).
    exists v. unfold Numpy.getitem. rewrite Hlen, Hp. split; assumption. }
  destruct (@NumpyFacts.take_total y integers) as [ys Hys].
  { intros i Hi. destruct (Hget i Hi) as (v & _ & Hv). eauto. }
  exists cs, src, ys. split; [exact Hcs |]. split; [exact Hsrc |].
  split; [exact Hlen |]. split; [exact Hys |].
  destruct (NumpyFacts.take_spec _ _ Hys) as [Hl Hnth]. split.
  - intros Hbin i Hi Hnan.
    destruct (Hget i Hi) as (v & Hv & Hyi).
    rewrite Hnan in Hv. injection Hv as <-.
    destruct (@NumpyFacts.take_In _ _ _ i Hys Hi) as (e & He & Hine).
    rewrite Hyi in He. injection He as <-.
    rewrite forallb_forall in Hbin. specialize (Hbin _ Hine).
    discriminate Hbin.
  - intros Hnum. apply forallb_forall. intros e He.
    apply In_nth_error in He. destruct He as [k Hk].
    assert (Hki : exists i, nth_error integers k = Some i).
    { destruct (nth_error integers k) as [i |] eqn:E; [eauto |].
      apply nth_error_None in E.
      assert (Hlt : (k < List.length ys)%nat)
        by (apply nth_error_Some; congruence).
      lia. }
    destruct Hki as [i Hi]. pose proof (nth_error_In _ _ Hi) as Hiin.
    destruct (Hnth k i Hi) as (e' & He' & Hk'). rewrite Hk in Hk'.
    injection Hk' as <-.
    destruct (Hget i Hiin) as (v & Hv & Hyi).
    rewrite Hyi in He'. injection He' as <-.
    apply NumpyFacts.round_clip01_binary. intros ->.
    exact (Hnum i Hiin Hv).
Qed.

End MIPUpperBoundFacts.

(** ** [MIP.is_feasible] and [MIP.value] *)

Module MIPFacts.

(** What a successful feasibility test has checked. *)
Lemma is_feasible_true (self : MIP.t) (x : Numpy.Array) (tol : pyfloat) :
  MIP.is_feasible self x tol = Some true ->
  (exists gx, MIP.g self x = Some gx /\
              forall c, In c gx -> PyFloat.le c tol = true) /\
  Numpy.all_compare PyFloat.ge x (Numpy.sub_scalar (MIP.lb self) tol)
  = Some true /\
  Numpy.all_compare PyFloat.le x (Numpy.add_scalar (MIP.ub self) tol)
  = Some true /\
  exists xi, Numpy.take x (MIP.integers self) = Some xi /\
             forallb Numpy.is_binary xi = true.
Proof.
  unfold MIP.is_feasible. intros H.
  destruct (MIP.g self x) as [gx |]; [| discriminate].
  destruct (Numpy.all_compare PyFloat.ge x _) as [cxlb |]; [| discriminate].
  destruct (Numpy.all_compare PyFloat.le x _) as [cxub |]; [| discriminate].
  destruct (Numpy.take x (MIP.integers self)) as [xi |]; [| discriminate].
  injection H as H.
  apply andb_prop in H. destruct H as [H Hbin].
  apply andb_prop in H. destruct H as [H Hub].
  apply andb_prop in H. destruct H as [Hleq Hlb].
  subst cxlb cxub. repeat split.
  - exists gx. split; [reflexivity |].
    intros c Hc. rewrite forallb_forall in Hleq. exact (Hleq c Hc).
  - exists xi. split; [reflexivity | exact Hbin].
Qed.

(** The comparisons with a looser tolerance. *)
Lemma le_looser (c : pyfloat) (t t' : Q) :
  t <= t' ->
  PyFloat.le c (PyFloat.Fin t) = true ->
  PyFloat.le c (PyFloat.Fin t') = true.
Proof. intros Ht. destruct c; PyFloatFacts.crush. Qed.

Lemma ge_sub_looser (e l : pyfloat) (t t' : Q) :
  t <= t' ->
  PyFloat.ge e (PyFloat.sub l (PyFloat.Fin t)) = true ->
  PyFloat.ge e (PyFloat.sub l (PyFloat.Fin t')) = true.
Proof.
  intros Ht. unfold PyFloat.ge.
  destruct l as [| | u |]; cbn [PyFloat.sub]; try (intros H; exact H).
  apply PyFloatFacts.le_trans. apply PyFloatFacts.round64_mono. lra.
Qed.

Lemma le_add_looser (e u : pyfloat) (t t' : Q) :
  t <= t' ->
  PyFloat.le e (Numpy.add u (PyFloat.Fin t)) = true ->
  PyFloat.le e (Numpy.add u (PyFloat.Fin t')) = true.
Proof.
  intros Ht. unfold Numpy.add.
  destruct u as [| | x |]; cbn [PyFloat.add]; try (intros H; exact H).
  intros H. apply (PyFloatFacts.le_trans _ _ _ H).
  apply PyFloatFacts.round64_mono. lra.
Qed.

(** A comparison that holds against [f] of every entry of an array holds
    against [f'] when [f'] is looser entry by entry. *)
Lemma all_compare_looser (cmp : pyfloat -> pyfloat -> bool)
      (f f' : pyfloat -> pyfloat) (x a : Numpy.Array) :
  (forall e l, cmp e (f l) = true -> cmp e (f' l) = true) ->
  Numpy.all_compare cmp x (Numpy.Vector (map f a)) = Some true ->
  Numpy.all_compare cmp x (Numpy.Vector (map f' a)) = Some true.
Proof.
  intros Hloose. unfold Numpy.all_compare. rewrite !length_map.
  destruct (Nat.eqb (List.length x) (List.length a)).
  - intros H. injection H as H. f_equal. clear - H Hloose.
    revert a H. induction x as [| e x IH]; intros [| l a] H;
      try reflexivity.
    simpl in *. apply andb_prop in H. destruct H as [H1 H2].
    rewrite (Hloose _ _ H1), (IH a H2). reflexivity.
  - assert (Hall : forall e,
               forallb (fun v => cmp e v) (map f a) = true ->
               forallb (fun v => cmp e v) (map f' a) = true).
    { intros e. rewrite !forallb_forall. intros H v Hv.
      apply in_map_iff in Hv. destruct Hv as (l & <- & Hl).
      apply Hloose. apply H. apply in_map. exact Hl. }
    destruct x as [| e [| e' x]].
    + destruct a as [| l [| l' a]]; simpl; intros H;
        try discriminate; exact H.
    + intros H. injection H as H. rewrite (Hall e H). reflexivity.
    + destruct a as [| l [| l' a]]; cbn [map]; intros H; try discriminate.
      assert (H' : forallb (fun e0 => cmp e0 (f l)) (e :: e' :: x) = true)
        by (injection H as H; exact H).
      clear H. f_equal. rewrite forallb_forall in H'.
      apply forallb_forall. intros v Hv. apply Hloose. exact (H' v Hv).
Qed.

(** X22.  A value of [MIP.value] other than [inf] certifies the point:
    the value is that of the objective, and the point passed
    [MIP.is_feasible] with the default tolerance, the float [1e-8]: no
    entry of [g(x)] exceeds the tolerance, the point is within the
    bounds [lb - 1e-8] and [ub + 1e-8], each rounded as a float, and each
    of its entries at an integer index of the problem is 0 or 1
    exactly. *)
Theorem MIP_value_certifies (self : MIP.t) (x : Numpy.Array) (v : pyfloat) :
  MIP.value self x = Some v ->
  v <> PyFloat.PosInf ->
  MIP.f self x = Some v /\
  MIP.is_feasible self x MIP.default_feas_tol = Some true /\
  (exists gx, MIP.g self x = Some gx /\
     forall c, In c gx -> PyFloat.le c MIP.default_feas_tol = true) /\
  Numpy.all_compare PyFloat.ge x
    (Numpy.sub_scalar (MIP.lb self) MIP.default_feas_tol) = Some true /\
  Numpy.all_compare PyFloat.le x
    (Numpy.add_scalar (MIP.ub self) MIP.default_feas_tol) = Some true /\
  forall i, In i (MIP.integers self) ->
    exists e, Numpy.getitem x i = Some e /\
              (Numpy.eqb e (PyFloat.Fin 0) = true \/
               Numpy.eqb e (PyFloat.Fin 1) = true).
Proof.
  unfold MIP.value. intros H Hv.
  destruct (MIP.is_feasible self x MIP.default_feas_tol)
    as [[|] |] eqn:Hfeas; try discriminate.
  - destruct (is_feasible_true _ _ _ Hfeas)
      as (Hg & Hlb & Hub & xi & Hxi & Hbin).
    split; [exact H |]. split; [reflexivity |].
    split; [exact Hg |]. split; [exact Hlb |]. split; [exact Hub |].
    intros i Hi. destruct (@NumpyFacts.take_In _ _ _ i Hxi Hi) as (e & He & Hin).
    exists e. split; [exact He |].
    rewrite forallb_forall in Hbin. specialize (Hbin e Hin).
    unfold Numpy.is_binary in Hbin. apply orb_prop in Hbin. exact Hbin.
  - injection H as <-. contradiction.
Qed.

(** X23.  A point that [MIP.is_feasible] accepts with a finite
    tolerance is accepted with every larger one; the test on the integer
    entries does not depend on the tolerance. *)
Theorem MIP_is_feasible_looser (self : MIP.t) (x : Numpy.Array) (t t' : Q) :
  t <= t' ->
  MIP.is_feasible self x (PyFloat.Fin t) = Some true ->
  MIP.is_feasible self x (PyFloat.Fin t') = Some true.
Proof.
  intros Ht H.
  destruct (is_feasible_true _ _ _ H)
    as ((gx & Hg & Hleq) & Hlb & Hub & xi & Hxi & Hbin).
  unfold MIP.is_feasible. rewrite Hg, Hxi, Hbin.
  assert (Hlb' : Numpy.all_compare PyFloat.ge x
                   (Numpy.sub_scalar (MIP.lb self) (PyFloat.Fin t'))
                 = Some true).
  { destruct (MIP.lb self) as [l | a]; simpl in *.
    - injection Hlb as Hlb. f_equal. rewrite forallb_forall in *.
      intros e He. exact (ge_sub_looser e l Ht (Hlb e He)).
    - apply (@all_compare_looser PyFloat.ge
               (fun v => PyFloat.sub v (PyFloat.Fin t))
               (fun v => PyFloat.sub v (PyFloat.Fin t')) x a);
        [| exact Hlb].
      intros e l. exact (ge_sub_looser e l Ht). }
  assert (Hub' : Numpy.all_compare PyFloat.le x
                   (Numpy.add_scalar (MIP.ub self) (PyFloat.Fin t'))
                 = Some true).
  { destruct (MIP.ub self) as [u | a]; simpl in *.
    - injection Hub as Hub. f_equal. rewrite forallb_forall in *.
      intros e He. exact (le_add_looser e u Ht (Hub e He)).
    - apply (@all_compare_looser PyFloat.le
               (fun v => Numpy.add v (PyFloat.Fin t))
               (fun v => Numpy.add v (PyFloat.Fin t')) x a);
        [| exact Hub].
      intros e l. exact (le_add_looser e l Ht). }
  rewrite Hlb', Hub'.
  replace (forallb (fun v => PyFloat.le v (PyFloat.Fin t')) gx) with true;
    [reflexivity |].
  symmetry. apply forallb_forall. intros c Hc.
  exact (le_looser c Ht (Hleq c Hc)).
Qed.

End MIPFacts.

(* ================================================================== *)
(** * The properties of the MIP instance at work on the example *)

Lemma existsb_eqb_In (i : Z) (l : list Z) :
  existsb (Z.eqb i) l = true <-> In i l.
Proof.
  rewrite existsb_exists. split.
  - intros (j & Hj & E). apply Z.eqb_eq in E. subst j. exact Hj.
  - intros Hi. exists i. split; [exact Hi | apply Z.eqb_refl].
Qed.

(** The order of the example is an iteration order of the set of free
    indices. *)
Lemma in_list_order_iterates :
  iterates_free_indices Stub.MIPExample.in_list_order.
Proof.
  intros integers zero one. unfold Stub.MIPExample.in_list_order.
  split; [apply NoDup_nodup |].
  intros i. rewrite nodup_In, filter_In, negb_true_iff, orb_false_iff.
  rewrite <- !not_true_iff_false, !existsb_eqb_In. tauto.
Qed.

Lemma MIP_branch_children_witness :
  iterates_free_indices
    (MIPBranchingRule.free_order Stub.MIPExample.rule) /\
  exists children,
    MIPBranchingRule.branch Stub.MIPExample.rule Stub.MIPExample.root
    = Returns children /\
    List.length children = 2%nat /\
    exists i ki,
      In i [0%Z; 2%Z] /\
      MIPBranchingRule.fractionality Stub.MIPExample.point i = Some ki /\
      forall j, In j [0%Z; 2%Z] ->
        exists kj,
          MIPBranchingRule.fractionality Stub.MIPExample.point j = Some kj /\
          PyFloat.lt kj ki = false.
Proof.
  split; [exact in_list_order_iterates |].
  pose (children :=
          match MIPBranchingRule.branch Stub.MIPExample.rule
                  Stub.MIPExample.root with
          | Returns c => c
          | _ => []
          end).
  assert (E : MIPBranchingRule.branch Stub.MIPExample.rule
                Stub.MIPExample.root = Returns children)
    by (vm_compute; reflexivity).
  exists children. split; [exact E |]. split; [vm_compute; reflexivity |].
  pose proof (@MIP_branch_children Z Stub.MIPExample.rule
                Stub.MIPExample.root children in_list_order_iterates E)
    as H.
  cbv zeta in H.
  destruct H as [[Hnil _]
                | (_ & i & x & x0 & x1 & ki & p & Hx & (Hi & _ & _)
                   & Hki & Hleast & _)].
  - vm_compute in Hnil. discriminate Hnil.
  - injection Hx as <-. exists i, ki.
    split; [exact Hi |]. split; [exact Hki |].
    intros j Hj. apply (Hleast j Hj); intros [].
Defined.

(** On the point [(0.9, 0.1)] the two keys are the same float, and the
    first index in iteration order is chosen. *)
Example MIP_branch_float_tie :
  MIPBranchingRule.fractionality Stub.MIPExample.tie_point 0%Z
  = Some (PyFloat.Fin (3602879701896397 # 9007199254740992)) /\
  MIPBranchingRule.fractionality Stub.MIPExample.tie_point 1%Z
  = Some (PyFloat.Fin (3602879701896397 # 9007199254740992)) /\
  ~ (8106479329266893 # 9007199254740992) - (1 # 2)
    == Qabs ((3602879701896397 # 36028797018963968) - (1 # 2)) /\
  MIPBranchingRule.sorted_first (Some Stub.MIPExample.tie_point) [0%Z; 1%Z]
  = Returns 0%Z /\
  exists child0 child1,
    MIPBranchingRule.branch Stub.MIPExample.tie_rule
                            Stub.MIPExample.tie_root
    = Returns [child0; child1] /\
    MIPRegion.integers_to_zero (Node.region child0) = [0%Z] /\
    MIPRegion.integers_to_one (Node.region child1) = [0%Z].
Proof.
  split; [vm_compute; reflexivity |]. split; [vm_compute; reflexivity |].
  split; [intros H; vm_compute in H; discriminate H |].
  split; [vm_compute; reflexivity |].
  do 2 eexists. split; [vm_compute; reflexivity |]. split; reflexivity.
Qed.

Lemma MIP_branch_levels_witness :
  NoDup [0%Z; 2%Z] /\
  fixes_its_level [0%Z; 2%Z] Stub.MIPExample.root /\
  (Node.level Stub.MIPExample.root <= 2)%Z /\
  exists children,
    MIPBranchingRule.branch Stub.MIPExample.rule Stub.MIPExample.root
    = Returns children.
Proof.
  assert (Hnd : NoDup [0%Z; 2%Z]).
  { constructor; [intros [H | []]; discriminate H |].
    constructor; [intros [] | constructor]. }
  assert (Hroot : fixes_its_level [0%Z; 2%Z] Stub.MIPExample.root).
  { split; [constructor |]. split; [intros i [] | reflexivity]. }
  split; [exact Hnd |]. split; [exact Hroot |].
  pose proof (@MIP_branch_levels Z Stub.MIPExample.rule
                Stub.MIPExample.root Hnd in_list_order_iterates Hroot)
    as H.
  cbv zeta in H. destruct H as (Hlevel & _ & _ & Hreturns).
  split; [exact Hlevel |].
  apply (Hreturns Stub.MIPExample.point eq_refl).
  intros i [<- | [<- | []]]; eexists;
    (split; [vm_compute; reflexivity | discriminate]).
Defined.

Lemma MIP_upper_bound_rounds_witness :
  MIPUpperBoundingMethod.bound Stub.MIPExample.ub_method
    Stub.MIPExample.root
  = Some [PyFloat.Fin 1; PyFloat.Fin (-3); PyFloat.Fin 0] /\
  exists r,
    Numpy.getitem [PyFloat.Fin 1; PyFloat.Fin (-3); PyFloat.Fin 0] 2%Z
    = Some (PyFloat.Fin (inject_Z r)) /\
    nearest_binary (1 # 2) r.
Proof.
  assert (E : MIPUpperBoundingMethod.bound Stub.MIPExample.ub_method
                Stub.MIPExample.root
              = Some [PyFloat.Fin 1; PyFloat.Fin (-3); PyFloat.Fin 0])
    by (vm_compute; reflexivity).
  split; [exact E |].
  pose proof (@MIP_upper_bound_rounds Z Stub.MIPExample.ub_method
                Stub.MIPExample.root _ E) as H.
  cbv zeta in H.
  destruct H as (cs & src & _ & _ & Hsrc & _ & Hin & _).
  simpl in Hsrc. subst src.
  destruct (Hin 2%Z (or_intror (or_introl eq_refl)))
    as (v & Hv & _ & _ & Hnear).
  vm_compute in Hv. injection Hv as Hv.
  exact (Hnear (1 # 2) (eq_sym Hv)).
Defined.

Lemma MIP_upper_bound_integral_witness :
  exists y ys,
    MIPUpperBoundingMethod.bound Stub.MIPExample.ub_method
      Stub.MIPExample.root = Some y /\
    List.length y = 3%nat /\
    Numpy.take y [0%Z; 2%Z] = Some ys /\
    forallb Numpy.is_binary ys = true.
Proof.
  destruct (MIPUpperBoundingMethod.bound Stub.MIPExample.ub_method
              Stub.MIPExample.root) as [y |] eqn:E;
    [| vm_compute in E; discriminate E].
  pose proof (@MIP_upper_bound_integral Z Stub.MIPExample.ub_method
                Stub.MIPExample.root y E) as H.
  cbv zeta in H.
  destruct H as (cs & src & ys & _ & Hsrc & Hlen & Hys & Hbin).
  simpl in Hsrc. subst src.
  exists y, ys. split; [reflexivity |]. split; [exact Hlen |].
  split; [exact Hys |]. apply Hbin.
  intros i [<- | [<- | []]] H; vm_compute in H; discriminate H.
Defined.

Lemma MIP_value_certifies_witness :
  MIP.value Stub.MIPExample.tight_problem Stub.MIPExample.tight_point
  = Some (PyFloat.Fin 1) /\
  ~ PyFloat.eps8 <= 0 + (1 # 100000000) /\
  MIP.is_feasible Stub.MIPExample.tight_problem Stub.MIPExample.tight_point
    MIP.default_feas_tol = Some true /\
  forall i, In i [1%Z] ->
    exists e,
      Numpy.getitem Stub.MIPExample.tight_point i = Some e /\
      (Numpy.eqb e (PyFloat.Fin 0) = true \/
       Numpy.eqb e (PyFloat.Fin 1) = true).
Proof.
  assert (E : MIP.value Stub.MIPExample.tight_problem
                Stub.MIPExample.tight_point = Some (PyFloat.Fin 1))
    by (vm_compute; reflexivity).
  split; [exact E |].
  split; [intros H; vm_compute in H; apply H; reflexivity |].
  assert (Hv : PyFloat.Fin 1 <> PyFloat.PosInf) by discriminate.
  destruct (MIPFacts.MIP_value_certifies _ _ E Hv)
    as (_ & Hfeas & _ & _ & _ & Hbin).
  split; [exact Hfeas | exact Hbin].
Defined.

Lemma MIP_is_feasible_looser_witness :
  (1 # 100000000) <= 1 /\
  MIP.is_feasible Stub.MIPExample.problem Stub.MIPExample.feasible_point
    (PyFloat.Fin (1 # 100000000)) = Some true /\
  MIP.is_feasible Stub.MIPExample.problem Stub.MIPExample.feasible_point
    (PyFloat.Fin 1) = Some true.
Proof.
  assert (Ht : (1 # 100000000) <= 1) by (vm_compute; discriminate).
  assert (E : MIP.is_feasible Stub.MIPExample.problem
                Stub.MIPExample.feasible_point
                (PyFloat.Fin (1 # 100000000)) = Some true)
    by (vm_compute; reflexivity).
  split; [exact Ht |]. split; [exact E |].
  exact (MIPFacts.MIP_is_feasible_looser _ _ Ht E).
Defined.
